(** * A shallow embedding of the TCP server (server3.c) and client (client.c)

    The two C files are embedded as functions over an explicit [World]:
    the process memory, [errno], the descriptor table, the byte streams
    behind the descriptors and a [script] of kernel responses.  Functions
    that may call [error] (which is [perror] followed by [exit(-1)]) live in
    a small state-and-exit monad; every [for(;;)] and [while] loop of the
    source is a [Fixpoint] on a fuel argument.

    Conventions
    - [int], [ssize_t], [size_t] and addresses are [Z]; the [size_t]
      arithmetic of the source is written with its wrap-around modulo 2^64.
    - A byte is a [Z]; memory is flat and byte addressed.  C's undefined
      behaviour on accesses outside an object is not modelled: such loads
      and stores act on the flat memory.
    - [fd_set] is a bit mask, as in the C library; its macros are
      defined for the descriptors [0 <= fd < FD_SETSIZE] only, and the
      statements about [do_work] are made for such descriptors.
    - The calls of the C library's [stdio] and [inet_aton] are parameters
      of the client. *)

From Stdlib Require Import String.
From Stdlib Require Import ZArith List Bool Lia.
Import ListNotations.
Open Scope Z_scope.

(** ** Constants of the system headers (Linux values) *)

Definition NULL : Z := 0.
Definition EINTR : Z := 4.
Definition EBADF : Z := 9.
Definition ENOMEM : Z := 12.
Definition EFAULT : Z := 14.
Definition ECONNABORTED : Z := 103.
Definition STDIN_FILENO : Z := 0.
Definition STDOUT_FILENO : Z := 1.

(** [#define MAXLINE 256], the same in both files. *)
Definition MAXLINE : Z := 256.

(** [#define PORT 1027] (both files) and [#define BACKLOG 5] (server3.c). *)
Definition PORT : Z := 1027.
Definition BACKLOG : Z := 5.

Definition EINVAL : Z := 22.
Definition PF_INET : Z := 2.
Definition AF_INET : Z := 2.
Definition SOCK_STREAM : Z := 1.
Definition INADDR_ANY : Z := 0.

(** ** Machine integers *)

Definition SIZE_MOD : Z := 2 ^ 64.

(** Conversion to [size_t] and back to [ssize_t]. *)
Definition to_size_t (v : Z) : Z := v mod SIZE_MOD.
Definition to_ssize_t (v : Z) : Z :=
  let u := v mod SIZE_MOD in if u <? 2 ^ 63 then u else u - SIZE_MOD.

(** [n -= rc] on [size_t]. *)
Definition size_sub (n rc : Z) : Z := (n - rc) mod SIZE_MOD.

(** ** Memory *)

Definition memory := Z -> Z.

Definition store (m : memory) (a v : Z) : memory :=
  fun x => if x =? a then v else m x.

Fixpoint store_bytes (m : memory) (a : Z) (bs : list Z) : memory :=
  match bs with
  | [] => m
  | b :: bs' => store_bytes (store m a b) (a + 1) bs'
  end.

Fixpoint load_bytes (m : memory) (a : Z) (k : nat) : list Z :=
  match k with
  | O => []
  | S k' => m a :: load_bytes m (a + 1) k'
  end.

(** A 4-byte little-endian [int], for [*arg = csocket] and [*((int* )arg)]. *)
Definition store_int (m : memory) (a v : Z) : memory :=
  store_bytes m a
    [v mod 256; (v / 256) mod 256; (v / 65536) mod 256; (v / 16777216) mod 256].

Definition load_int (m : memory) (a : Z) : Z :=
  let u := m a + 256 * m (a + 1) + 65536 * m (a + 2) + 16777216 * m (a + 3) in
  if u <? 2 ^ 31 then u else u - 2 ^ 32.

(** ** Descriptor sets ([fd_set] as a bit mask)

    An [fd_set] has [FD_SETSIZE] bits.  [FD_SET] and [FD_ISSET] are the
    macros for a descriptor [0 <= fd < FD_SETSIZE]; for any other [fd] the
    macros of the C library reach outside the set, which the mask cannot
    express: nothing is stated about [do_work] on such a descriptor. *)

Definition FD_SETSIZE : Z := 1024.
Definition FD_ZERO : Z := 0.
Definition FD_SET (fd set : Z) : Z := Z.lor set (Z.shiftl 1 fd).
Definition FD_ISSET (fd set : Z) : bool := Z.testbit set fd.

Fixpoint pos_popcount (p : positive) : Z :=
  match p with
  | xH => 1
  | xO q => pos_popcount q
  | xI q => 1 + pos_popcount q
  end.

Definition popcount (z : Z) : Z :=
  match z with
  | Zpos p => pos_popcount p
  | _ => 0
  end.

(** ** The environment *)

(** One event of the [script] is consumed by every system call.
    [Fail e]: the call fails with [errno = e].  [Short k]: a byte transfer
    moves at most [k] bytes.  [Ready m]: a readiness wait reports the
    watched descriptors that are in [m].  An event that has no meaning for
    the call, and the empty script, stand for a call that is served in
    full. *)
Inductive os_event : Type :=
  | Fail (e : positive)
  | Short (k : positive)
  | Ready (mask : Z).

(** The log of calls on descriptors, most recent first. *)
Inductive call : Type :=
  | c_read (fd count rc : Z)
  | c_write (fd buf count rc : Z)
  | c_close (fd rc : Z)
  | c_accept (fd rc : Z)
  | c_select (n readfds rc : Z)
  | c_pthread_create (arg rc : Z).

Record World : Type := mkWorld {
  script : list os_event;     (* the kernel's coming responses *)
  errno : Z;
  mem : memory;
  fdtab : list Z;             (* the open descriptors *)
  inp : Z -> list Z;          (* per descriptor: the bytes still to arrive, then end of stream *)
  out : Z -> list Z;          (* per descriptor: the bytes delivered so far *)
  peers : list (list Z);      (* listen queue: what each waiting peer will send *)
  heap : Z;                   (* next free heap address *)
  heap_end : Z;               (* where the heap ends: malloc fails beyond it *)
  rands : list Z;             (* the values rand() will return *)
  pool : list Z;              (* arguments of the threads created and not yet run *)
  trace : list call
}.

Definition set_script (v : list os_event) (w : World) : World :=
  mkWorld v (errno w) (mem w) (fdtab w) (inp w) (out w) (peers w) (heap w) (heap_end w) (rands w) (pool w) (trace w).
Definition set_errno (v : Z) (w : World) : World :=
  mkWorld (script w) v (mem w) (fdtab w) (inp w) (out w) (peers w) (heap w) (heap_end w) (rands w) (pool w) (trace w).
Definition set_mem (v : memory) (w : World) : World :=
  mkWorld (script w) (errno w) v (fdtab w) (inp w) (out w) (peers w) (heap w) (heap_end w) (rands w) (pool w) (trace w).
Definition set_fdtab (v : list Z) (w : World) : World :=
  mkWorld (script w) (errno w) (mem w) v (inp w) (out w) (peers w) (heap w) (heap_end w) (rands w) (pool w) (trace w).
Definition set_inp (v : Z -> list Z) (w : World) : World :=
  mkWorld (script w) (errno w) (mem w) (fdtab w) v (out w) (peers w) (heap w) (heap_end w) (rands w) (pool w) (trace w).
Definition set_out (v : Z -> list Z) (w : World) : World :=
  mkWorld (script w) (errno w) (mem w) (fdtab w) (inp w) v (peers w) (heap w) (heap_end w) (rands w) (pool w) (trace w).
Definition set_peers (v : list (list Z)) (w : World) : World :=
  mkWorld (script w) (errno w) (mem w) (fdtab w) (inp w) (out w) v (heap w) (heap_end w) (rands w) (pool w) (trace w).
Definition set_heap (v : Z) (w : World) : World :=
  mkWorld (script w) (errno w) (mem w) (fdtab w) (inp w) (out w) (peers w) v (heap_end w) (rands w) (pool w) (trace w).
Definition set_rands (v : list Z) (w : World) : World :=
  mkWorld (script w) (errno w) (mem w) (fdtab w) (inp w) (out w) (peers w) (heap w) (heap_end w) v (pool w) (trace w).
Definition set_pool (v : list Z) (w : World) : World :=
  mkWorld (script w) (errno w) (mem w) (fdtab w) (inp w) (out w) (peers w) (heap w) (heap_end w) (rands w) v (trace w).
Definition set_trace (v : list call) (w : World) : World :=
  mkWorld (script w) (errno w) (mem w) (fdtab w) (inp w) (out w) (peers w) (heap w) (heap_end w) (rands w) (pool w) v.

Definition log (c : call) (w : World) : World := set_trace (c :: trace w) w.

Definition upd (f : Z -> list Z) (fd : Z) (v : list Z) : Z -> list Z :=
  fun x => if x =? fd then v else f x.

Definition is_open (fd : Z) (w : World) : bool := existsb (Z.eqb fd) (fdtab w).

Definition next_event (w : World) : option os_event * World :=
  match script w with
  | [] => (None, w)
  | ev :: sc => (Some ev, set_script sc w)
  end.

(** The most bytes the kernel moves in a call that asks for [count] (a
    [size_t], so never negative). *)
Definition chunk (ev : option os_event) (count : Z) : Z :=
  Z.max 0 (match ev with
           | Some (Short k) => Z.min (Zpos k) count
           | _ => count
           end).

(** *** The system calls

    Each returns what the C function returns and sets [errno] on failure. *)

(** [read]: blocks until data or end of stream; [0] only at end of stream
    (or for [count = 0]). *)
Definition sys_read (fd buf count : Z) (w : World) : Z * World :=
  let (ev, w1) := next_event w in
  match ev with
  | Some (Fail e) => (-1, log (c_read fd count (-1)) (set_errno (Zpos e) w1))
  | _ =>
      if is_open fd w1 then
        let data := firstn (Z.to_nat (chunk ev count)) (inp w1 fd) in
        let rc := Z.of_nat (length data) in
        (rc, log (c_read fd count rc)
               (set_inp (upd (inp w1) fd (skipn (length data) (inp w1 fd)))
                  (set_mem (store_bytes (mem w1) buf data) w1)))
      else (-1, log (c_read fd count (-1)) (set_errno EBADF w1))
  end.

(** [write]: delivers a prefix of the [count] bytes at [buf], at least one
    byte when [count >= 1]. *)
Definition sys_write (fd buf count : Z) (w : World) : Z * World :=
  let (ev, w1) := next_event w in
  match ev with
  | Some (Fail e) => (-1, log (c_write fd buf count (-1)) (set_errno (Zpos e) w1))
  | _ =>
      if is_open fd w1 then
        let rc := chunk ev count in
        (rc, log (c_write fd buf count rc)
               (set_out (upd (out w1) fd (out w1 fd ++ load_bytes (mem w1) buf (Z.to_nat rc))) w1))
      else (-1, log (c_write fd buf count (-1)) (set_errno EBADF w1))
  end.

Definition sys_close (fd : Z) (w : World) : Z * World :=
  let (ev, w1) := next_event w in
  match ev with
  | Some (Fail e) => (-1, log (c_close fd (-1)) (set_errno (Zpos e) w1))
  | _ =>
      if is_open fd w1 then
        (0, log (c_close fd 0)
              (set_fdtab (filter (fun x => negb (x =? fd)) (fdtab w1)) w1))
      else (-1, log (c_close fd (-1)) (set_errno EBADF w1))
  end.

(** The lowest descriptor that is not open. *)
Fixpoint lowest_free (fuel : nat) (fd : Z) (tab : list Z) : Z :=
  match fuel with
  | O => fd
  | S f => if existsb (Z.eqb fd) tab then lowest_free f (fd + 1) tab else fd
  end.

Definition fresh_fd (tab : list Z) : Z := lowest_free (length tab) 0 tab.

(** [accept]: the next peer of the listen queue gets the lowest free
    descriptor.  Beyond the listed peers, further peers connect and send
    nothing.  No peer address is stored (the one caller passes [NULL]). *)
Definition sys_accept (socket addr addrlen : Z) (w : World) : Z * World :=
  let (ev, w1) := next_event w in
  match ev with
  | Some (Fail e) => (-1, log (c_accept socket (-1)) (set_errno (Zpos e) w1))
  | _ =>
      if is_open socket w1 then
        let fd := fresh_fd (fdtab w1) in
        (fd, log (c_accept socket fd)
               (set_peers (tl (peers w1))
                  (set_out (upd (out w1) fd [])
                     (set_inp (upd (inp w1) fd (hd [] (peers w1)))
                        (set_fdtab (fd :: fdtab w1) w1)))))
      else (-1, log (c_accept socket (-1)) (set_errno EBADF w1))
  end.

(** The descriptors a readiness wait reports, of those it watches. *)
Definition reported (ev : option os_event) (watched : Z) : Z :=
  match ev with
  | Some (Ready m) => Z.land watched m
  | _ => watched
  end.

Definition all_open (n readfds : Z) (w : World) : bool :=
  forallb (fun i => implb (Z.testbit readfds (Z.of_nat i)) (is_open (Z.of_nat i) w))
          (seq 0 (Z.to_nat n)).

(** [select] with a read set only and no timeout: returns the number of
    ready descriptors and the read set reduced to them; on failure the set
    is left as it was. *)
Definition sys_select (n readfds : Z) (w : World) : (Z * Z) * World :=
  let (ev, w1) := next_event w in
  match ev with
  | Some (Fail e) => ((-1, readfds), log (c_select n readfds (-1)) (set_errno (Zpos e) w1))
  | _ =>
      if all_open n readfds w1 then
        let ready := reported ev (Z.land readfds (Z.ones n)) in
        ((popcount ready, ready), log (c_select n readfds (popcount ready)) w1)
      else ((-1, readfds), log (c_select n readfds (-1)) (set_errno EBADF w1))
  end.

(** [malloc]: a bump allocator; [NULL] and [ENOMEM] when the heap has no
    room for [size] bytes. *)
Definition sys_malloc (size : Z) (w : World) : Z * World :=
  if heap w + size <=? heap_end w then (heap w, set_heap (heap w + size) w)
  else (NULL, set_errno ENOMEM w).

(** [free] leaves the memory contents as they are. *)
Definition sys_free (p : Z) (w : World) : unit * World := (tt, w).

(** [rand]: the next value of [rands], in [0, RAND_MAX]; [0] once the list
    is used up. *)
Definition sys_rand (w : World) : Z * World :=
  match rands w with
  | [] => (0, w)
  | r :: rs => (r mod 2 ^ 31, set_rands rs w)
  end.

(** [pthread_create]: returns the error number itself (not [-1]); on
    success the new thread, which runs [serve_client arg], joins [pool]. *)
Definition sys_pthread_create (arg : Z) (w : World) : Z * World :=
  let (ev, w1) := next_event w in
  match ev with
  | Some (Fail e) => (Zpos e, log (c_pthread_create arg (Zpos e)) w1)
  | _ => (0, log (c_pthread_create arg 0) (set_pool (pool w1 ++ [arg]) w1))
  end.

(** *** The calls of the startup

    They are not entered in the log of calls. *)

(** [socket]: a new descriptor, the lowest free one, with nothing
    delivered to it yet. *)
Definition sys_socket (domain type protocol : Z) (w : World) : Z * World :=
  let (ev, w1) := next_event w in
  match ev with
  | Some (Fail e) => (-1, set_errno (Zpos e) w1)
  | _ =>
      let fd := fresh_fd (fdtab w1) in
      (fd, set_out (upd (out w1) fd []) (set_fdtab (fd :: fdtab w1) w1))
  end.

Definition sys_bind (socket addr addrlen : Z) (w : World) : Z * World :=
  let (ev, w1) := next_event w in
  match ev with
  | Some (Fail e) => (-1, set_errno (Zpos e) w1)
  | _ => if is_open socket w1 then (0, w1) else (-1, set_errno EBADF w1)
  end.

Definition sys_listen (socket backlog : Z) (w : World) : Z * World :=
  let (ev, w1) := next_event w in
  match ev with
  | Some (Fail e) => (-1, set_errno (Zpos e) w1)
  | _ => if is_open socket w1 then (0, w1) else (-1, set_errno EBADF w1)
  end.

(** [connect]: the peer connected to is the next of [peers]; what it will
    send is what the descriptor will read. *)
Definition sys_connect (socket addr addrlen : Z) (w : World) : Z * World :=
  let (ev, w1) := next_event w in
  match ev with
  | Some (Fail e) => (-1, set_errno (Zpos e) w1)
  | _ =>
      if is_open socket w1 then
        (0, set_peers (tl (peers w1))
              (set_inp (upd (inp w1) socket (hd [] (peers w1))) w1))
      else (-1, set_errno EBADF w1)
  end.

(** [htons] and [htonl] on a little-endian host. *)
Definition htons (x : Z) : Z := (x mod 256) * 256 + (x / 256) mod 256.
Definition htonl (x : Z) : Z :=
  (x mod 256) * 16777216 + ((x / 256) mod 256) * 65536 +
  ((x / 65536) mod 256) * 256 + (x / 16777216) mod 256.

(** A 2-byte little-endian store, for the [unsigned short] fields of
    [struct sockaddr_in]. *)
Definition store16 (m : memory) (a v : Z) : memory :=
  store_bytes m a [v mod 256; (v / 256) mod 256].

(** ** The monad of the program: state, and [exit] *)

Inductive outcome (A : Type) : Type :=
  | Ret (a : A) (w : World)          (* the function returns *)
  | Exit (msg : string) (w : World)  (* [error(msg)]: the process has exited *)
  | OutOfFuel.
Arguments Ret {A} a w.
Arguments Exit {A} msg w.
Arguments OutOfFuel {A}.

Definition M (A : Type) : Type := World -> outcome A.

Definition ret {A} (a : A) : M A := fun w => Ret a w.

Definition bind {A B} (m : M A) (k : A -> M B) : M B :=
  fun w =>
    match m w with
    | Ret a w' => k a w'
    | Exit msg w' => Exit msg w'
    | OutOfFuel => OutOfFuel
    end.

Notation "x <- m ;; k" := (bind m (fun x => k))
  (at level 61, m at next level, right associativity).
Notation "m ;;; k" := (bind m (fun _ => k))
  (at level 61, right associativity).

Definition lift {A} (f : World -> A * World) : M A :=
  fun w => let (a, w') := f w in Ret a w'.

Definition get_errno : M Z := fun w => Ret (errno w) w.
Definition put_errno (e : Z) : M unit := fun w => Ret tt (set_errno e w).
Definition out_of_fuel {A} : M A := fun _ => OutOfFuel.

(** [void error(const char* s) { perror(s); exit(-1); }]
    (server3.c:38, client.c:33).  [exit] ends the whole process; the
    message and the world at that moment (with the [errno] that [perror]
    prints) are kept. *)
Definition error {A} (s : string) : M A := fun w => Exit s w.

Definition peek (a : Z) : M Z := fun w => Ret (mem w a) w.
Definition poke (a v : Z) : M unit := fun w => Ret tt (set_mem (store (mem w) a v) w).
Definition peek_int (a : Z) : M Z := fun w => Ret (load_int (mem w) a) w.
Definition poke_int (a v : Z) : M unit := fun w => Ret tt (set_mem (store_int (mem w) a v) w).

(** ** The wrappers that both files define, word for word the same *)

(** [void Close(int fd)] (server3.c:134, client.c:65). *)
Fixpoint Close (fuel : nat) (fd : Z) : M unit :=
  match fuel with
  | O => out_of_fuel
  | S f =>
      rc <- lift (sys_close fd) ;;
      if rc =? 0 then ret tt
      else
        e <- get_errno ;;
        if e =? EINTR then Close f fd
        else error "close()"
  end.

(** [size_t Read(int fd, void* buf, size_t count)] (server3.c:147,
    client.c:107). *)
Fixpoint Read (fuel : nat) (fd buf count : Z) : M Z :=
  match fuel with
  | O => out_of_fuel
  | S f =>
      rc <- lift (sys_read fd buf count) ;;
      if negb (rc =? -1) then ret (to_size_t rc)
      else
        e <- get_errno ;;
        if e =? EINTR then Read f fd buf count
        else error "read()"
  end.

(** [size_t Write(int fd, const void* buf, size_t count)] (server3.c:163,
    client.c:121). *)
Fixpoint Write (fuel : nat) (fd buf count : Z) : M Z :=
  match fuel with
  | O => out_of_fuel
  | S f =>
      rc <- lift (sys_write fd buf count) ;;
      if negb (rc =? -1) then ret (to_size_t rc)
      else
        e <- get_errno ;;
        if e =? EINTR then Write f fd buf count
        else error "write()"
  end.

(** [int Socket(int domain, int type, int protocol)] (server3.c:58,
    client.c:42): no retry, any failure is fatal. *)
Definition Socket (domain type protocol : Z) : M Z :=
  rc <- lift (sys_socket domain type protocol) ;;
  if rc =? -1 then error "socket()" else ret rc.

(** [memset(a, c, n)] and the stores into [struct sockaddr_in] (Linux
    layout: [sin_family] at offset 0, [sin_port] at 2, [sin_addr] at 4,
    16 bytes in all). *)
Definition memset (a c : Z) (n : nat) : M unit :=
  fun w => Ret tt (set_mem (store_bytes (mem w) a (repeat c n)) w).
Definition poke16 (a v : Z) : M unit :=
  fun w => Ret tt (set_mem (store16 (mem w) a v) w).

(** ** server3.c *)

Module Server.

(** [int Accept(int socket, struct sockaddr* addr, socklen_t* addrlen)]
    (server3.c:117). *)
Fixpoint Accept (fuel : nat) (socket addr addrlen : Z) : M Z :=
  match fuel with
  | O => out_of_fuel
  | S f =>
      rc <- lift (sys_accept socket addr addrlen) ;;
      if negb (rc =? -1) then ret rc
      else
        e <- get_errno ;;
        if (e =? EINTR) || (e =? ECONNABORTED) then Accept f socket addr addrlen
        else error "accept()"
  end.

(** [void* Malloc(size_t size)] (server3.c:180). *)
Definition Malloc (size : Z) : M Z :=
  rc <- lift (sys_malloc size) ;;
  if rc =? NULL then error "malloc()" else ret rc.

(** [void Pthread_create(...)] (server3.c:207); the start routine is
    always [serve_client]. *)
Definition Pthread_create (arg : Z) : M unit :=
  rc <- lift (sys_pthread_create arg) ;;
  if negb (rc =? 0) then put_errno rc ;;; error "pthread_create()"
  else ret tt.

(** The [while (n < size)] loop of [reads]; returns the final [p] and [n]. *)
Fixpoint reads_loop (fuel : nat) (socket p n size : Z) : M (Z * Z) :=
  match fuel with
  | O => out_of_fuel
  | S f =>
      if n <? size then
        rc <- Read f socket p 1 ;;
        if rc =? 0 then ret (p, n)
        else
          c <- peek p ;;
          if c =? 10 (* '\n' *) then ret (p + 1, (n + 1) mod SIZE_MOD)
          else reads_loop f socket (p + 1) ((n + 1) mod SIZE_MOD) size
      else ret (p, n)
  end.

(** [size_t reads(int socket, char* s, size_t size)] (server3.c:223). *)
Definition reads (fuel : nat) (socket s size : Z) : M Z :=
  (if s =? NULL then put_errno EFAULT ;;; error "reads()" else ret tt) ;;;
  if size =? 0 then ret 0
  else
    r <- reads_loop fuel socket s 0 (size_sub size 1) ;;
    poke (fst r) 0 ;;;
    ret (snd r).

(** The [while (n)] loop of [writen] in server3.c: every call of [Write]
    asks for [count] bytes. *)
Fixpoint writen_loop (fuel : nat) (socket p n count : Z) : M unit :=
  match fuel with
  | O => out_of_fuel
  | S f =>
      if n =? 0 then ret tt
      else
        rc <- Write f socket p count ;;
        writen_loop f socket (p + rc) (size_sub n rc) count
  end.

(** [size_t writen(int socket, const char* buf, size_t count)]
    (server3.c:261). *)
Definition writen (fuel : nat) (socket buf count : Z) : M Z :=
  (if buf =? NULL then put_errno EFAULT ;;; error "writen()" else ret tt) ;;;
  writen_loop fuel socket buf count count ;;;
  ret count.

(** The [for] loop of [serve_client]: [rand()] is called anew in every
    test of the condition. *)
Fixpoint fill_message (fuel : nat) (random_message i : Z) : M unit :=
  match fuel with
  | O => out_of_fuel
  | S f =>
      r <- lift sys_rand ;;
      if i <? r mod 11 then
        r' <- lift sys_rand ;;
        poke (random_message + i) (97 + r' mod (122 - 97 + 1)) ;;;
        fill_message f random_message (i + 1)
      else ret tt
  end.

(** [void* serve_client(void* arg)] (server3.c:287).
    [pthread_detach(pthread_self())] has no effect on the world. *)
Definition serve_client (fuel : nat) (arg : Z) : M Z :=
  socket <- peek_int arg ;;
  lift (sys_free arg) ;;;
  r <- lift sys_rand ;;
  random_message <- lift (sys_malloc (1 * (r mod 11 + 1))) ;;
  fill_message fuel random_message 0 ;;;
  r' <- lift sys_rand ;;
  poke (random_message + r' mod 10) 0 ;;;
  writen fuel socket random_message 64 ;;;
  Close fuel socket ;;;
  ret NULL.

(** The body of the [for(;;)] loop of [main] (server3.c:371). *)
Definition accept_dispatch (fuel : nat) (lsocket : Z) : M unit :=
  csocket <- Accept fuel lsocket NULL 0 ;;
  arg <- Malloc 4 (* sizeof(int) *) ;;
  poke_int arg csocket ;;;
  Pthread_create arg.

(** [int Bind(int socket, struct sockaddr* addr, socklen_t addrlen)]
    (server3.c:76). *)
Definition Bind (socket addr addrlen : Z) : M Z :=
  rc <- lift (sys_bind socket addr addrlen) ;;
  if rc =? -1 then error "bind()" else ret rc.

(** [int Listen(int socket, int backlog)] (server3.c:93). *)
Definition Listen (socket backlog : Z) : M Z :=
  rc <- lift (sys_listen socket backlog) ;;
  if rc =? -1 then error "listen()" else ret rc.

(** The [for(;;)] loop of [main] (server3.c:371): it has no [break]. *)
Fixpoint main_loop (fuel : nat) (lsocket : Z) : M Z :=
  match fuel with
  | O => out_of_fuel
  | S f => accept_dispatch f lsocket ;;; main_loop f lsocket
  end.

(** [int main(void)] (server3.c:316), as the listener thread runs it.
    [servaddr] is the address of the local [struct sockaddr_in].
    [srand(time(NULL))] has no effect on the world: the values of [rand]
    are those of [rands]. *)
Definition main (fuel : nat) (servaddr : Z) : M Z :=
  lsocket <- Socket PF_INET SOCK_STREAM 0 ;;
  memset servaddr 0 16 ;;;
  poke16 servaddr AF_INET ;;;
  poke16 (servaddr + 2) (htons PORT) ;;;
  poke_int (servaddr + 4) (htonl INADDR_ANY) ;;;
  Bind lsocket servaddr 16 ;;;
  Listen lsocket BACKLOG ;;;
  main_loop fuel lsocket.

End Server.

(** ** client.c *)

Module Client.

(** [int Select(int n, fd_set *readfds, ...)] (client.c:92); the write
    set, the exception set and the timeout are [NULL] in the one call.
    Returns [rc] and the read set as [select] left it. *)
Fixpoint Select (fuel : nat) (n readfds : Z) : M (Z * Z) :=
  match fuel with
  | O => out_of_fuel
  | S f =>
      r <- lift (sys_select n readfds) ;;
      if negb (fst r =? -1) then ret r
      else
        e <- get_errno ;;
        if e =? EINTR then Select f n (snd r)
        else error "select()"
  end.

(** The [while(n)] loop of [writen] in client.c: every call of [Write]
    asks for the [n] bytes that remain. *)
Fixpoint writen_loop (fuel : nat) (socket p n : Z) : M unit :=
  match fuel with
  | O => out_of_fuel
  | S f =>
      if n =? 0 then ret tt
      else
        rc <- Write f socket p n ;;
        writen_loop f socket (p + rc) (size_sub n rc)
  end.

(** [size_t writen(int socket, const char *buf, size_t count)]
    (client.c:139). *)
Definition writen (fuel : nat) (socket buf count : Z) : M Z :=
  (if buf =? NULL then put_errno EFAULT ;;; error "writen()" else ret tt) ;;;
  writen_loop fuel socket buf count ;;;
  ret count.

(** One round of the [for(;;)] loop of [do_work]; [true] stands for
    [break].  [s] is the address of the local array [char s[MAXLINE]]. *)
Definition do_work_round (fuel : nat) (s socket n : Z) : M bool :=
  let readfds := FD_SET socket (FD_SET STDIN_FILENO FD_ZERO) in
  r <- Select fuel n readfds ;;
  let readfds := snd r in
  brk <-
    (if FD_ISSET STDIN_FILENO readfds then
       rc <- Read fuel STDIN_FILENO s MAXLINE ;;
       let rc := to_ssize_t rc in
       if rc =? 0 then ret true
       else writen fuel socket s (to_size_t rc) ;;; ret false
     else ret false) ;;
  if (brk : bool) then ret true
  else if FD_ISSET socket readfds then
    rc <- Read fuel socket s MAXLINE ;;
    let rc := to_ssize_t rc in
    if rc =? 0 then ret true
    else Write fuel STDOUT_FILENO s (to_size_t rc) ;;; ret false
  else ret false.

Fixpoint do_work_loop (fuel : nat) (s socket n : Z) : M unit :=
  match fuel with
  | O => out_of_fuel
  | S f =>
      brk <- do_work_round f s socket n ;;
      if (brk : bool) then ret tt else do_work_loop f s socket n
  end.

(** [void do_work(int socket)] (client.c:167). *)
Definition do_work (fuel : nat) (s socket : Z) : M unit :=
  let n := (if STDIN_FILENO >? socket then STDIN_FILENO else socket) + 1 in
  do_work_loop fuel s socket n.

(** The line that [Connect] prints, ["Connection... \n"] in C: 15 bytes. *)
Definition connection_line : string :=
  "Connection... " ++ String (Ascii.ascii_of_nat 10) EmptyString.

(** [void show_usage()] (client.c:161): [puts] and [exit(-1)]; the line
    is kept as the message of the exit. *)
Definition show_usage : M unit := error "Usage: client ip_address".

Section Libc.

(** [printf] of the C library, called with a string that holds no
    conversion.  What it does to the world depends on the buffering of
    [stdout]: the line may go to descriptor 1 at once or stay in the
    buffer of [stdout] until [exit], and [errno] may change. *)
Variable printf : string -> World -> World.

(** [void Connect(int socket, const struct sockaddr *addr, socklen_t
    addrlen)] (client.c:56): no retry; [printf] is called between
    [connect] and the test of its result. *)
Definition Connect (socket addr addrlen : Z) : M unit :=
  rc <- lift (sys_connect socket addr addrlen) ;;
  (fun w => Ret tt (printf connection_line w)) ;;;
  if rc =? -1 then error "connect()" else ret tt.

(** [inet_aton] of the C library: the four bytes of the address, in
    network order, or nothing for a string that is no address. *)
Variable inet_aton : string -> option (list Z).

(** [void Inet_aton(const char *str, struct in_addr *addr)] (client.c:77). *)
Definition Inet_aton (str : string) (addr : Z) : M unit :=
  match inet_aton str with
  | Some bytes => fun w => Ret tt (set_mem (store_bytes (mem w) addr bytes) w)
  | None => put_errno EINVAL ;;; error "inet_aton()"
  end.

(** [int main(int argc, char **argv)] (client.c:200).  [servaddr] and [s]
    are the addresses of the local [struct sockaddr_in] and of the array
    of [do_work]; [argv1] is the string [argv[1]]. *)
Definition main (fuel : nat) (servaddr s : Z) (argc : Z) (argv1 : string) : M Z :=
  (if negb (argc =? 2) then show_usage else ret tt) ;;;
  socket <- Socket PF_INET SOCK_STREAM 0 ;;
  memset servaddr 0 16 ;;;
  poke16 servaddr AF_INET ;;;
  poke16 (servaddr + 2) (htons PORT) ;;;
  Inet_aton argv1 (servaddr + 4) ;;;
  Connect socket servaddr 16 ;;;
  do_work fuel s socket ;;;
  Close fuel socket ;;;
  ret 0.

End Libc.

End Client.

(** ** The process: one listener and the threads it created

    Threads are interleaved at the grain of whole calls: an action runs
    either one round of the listener's loop or one created thread to its
    end.  [exit] ends the process, so no action changes an exited process. *)

Inductive pstate : Type :=
  | Running (w : World)
  | Exited (msg : string) (w : World)
  | Unfinished.

Inductive action : Type :=
  | Listener
  | Handler (i : nat).

Definition remove_nth {A} (i : nat) (l : list A) : list A :=
  firstn i l ++ skipn (S i) l.

Definition finish {A} (o : outcome A) : pstate :=
  match o with
  | Ret _ w => Running w
  | Exit msg w => Exited msg w
  | OutOfFuel => Unfinished
  end.

Definition proc_step (fuel : nat) (lsocket : Z) (st : pstate) (a : action) : pstate :=
  match st with
  | Running w =>
      match a with
      | Listener => finish (Server.accept_dispatch fuel lsocket w)
      | Handler i =>
          match nth_error (pool w) i with
          | Some arg =>
              finish (Server.serve_client fuel arg (set_pool (remove_nth i (pool w)) w))
          | None => st
          end
      end
  | _ => st
  end.

Definition proc_run (fuel : nat) (lsocket : Z) (st : pstate) (sched : list action) : pstate :=
  fold_left (proc_step fuel lsocket) sched st.

(** * Properties *)

(** ** Vocabulary of the statements *)

(** Two worlds that differ at most in [errno] and in the log of calls:
    what a caller can tell apart by its memory, its descriptors and the
    streams is the same. *)
Definition same_io (w1 w2 : World) : Prop :=
  set_trace [] (set_errno 0 w1) = set_trace [] (set_errno 0 w2).

Definition same_outcome {A} (o1 o2 : outcome A) : Prop :=
  match o1, o2 with
  | Ret a1 w1, Ret a2 w2 => a1 = a2 /\ same_io w1 w2
  | Exit m1 w1, Exit m2 w2 => m1 = m2 /\ errno w1 = errno w2 /\ same_io w1 w2
  | OutOfFuel, OutOfFuel => True
  | _, _ => False
  end.

(** What [same_io] gives for one call: the same return value, worlds that
    are again [same_io], and the same [errno] when the call failed. *)
Definition agree {A} (r1 r2 : A * World) (failed : A -> bool) : Prop :=
  fst r1 = fst r2 /\ same_io (snd r1) (snd r2) /\
  (failed (fst r1) = true -> errno (snd r1) = errno (snd r2)).

(** The call ended in [error(msg)] with [errno = e], in a world that is
    [w0] but for [errno] and the log. *)
Definition fatal {A} (msg : string) (e : Z) (w0 : World) (o : outcome A) : Prop :=
  exists w', o = Exit msg w' /\ errno w' = e /\ same_io w' w0.

(** The computation returned, with a value and in a world that satisfy [P]. *)
Definition returned {A} (o : outcome A) (P : A -> World -> Prop) : Prop :=
  match o with
  | Ret a w' => P a w'
  | _ => False
  end.

(** The computation ended in [error], in a world that satisfies [P]. *)
Definition exited {A} (o : outcome A) (P : string -> World -> Prop) : Prop :=
  match o with
  | Exit msg w' => P msg w'
  | _ => False
  end.

(** The process is running, in a world that satisfies [P]. *)
Definition running (st : pstate) (P : World -> Prop) : Prop :=
  match st with
  | Running w' => P w'
  | _ => False
  end.

(** The process has exited, with a message and in a world that satisfy [P]. *)
Definition has_exited (st : pstate) (P : string -> World -> Prop) : Prop :=
  match st with
  | Exited msg w' => P msg w'
  | _ => False
  end.

(** *** Scripts *)

(** A script that holds no failure other than [EINTR]. *)
Definition quiet_event (ev : os_event) : bool :=
  match ev with
  | Fail e => Zpos e =? EINTR
  | _ => true
  end.

Definition quiet (sc : list os_event) : bool := forallb quiet_event sc.

(** The event that serves the next call under a quiet script, that is the
    first one that is not a failure, and the script behind it. *)
Fixpoint serving (sc : list os_event) : option os_event * list os_event :=
  match sc with
  | [] => (None, [])
  | Fail _ :: sc' => serving sc'
  | ev :: sc' => (Some ev, sc')
  end.

(** The next readiness wait will report both descriptor 0 and [socket]. *)
Definition both_ready (sc : list os_event) (socket : Z) : bool :=
  match fst (serving sc) with
  | Some (Ready m) => Z.testbit m STDIN_FILENO && Z.testbit m socket
  | _ => true
  end.

(** *** Lines *)

(** How many of the bytes [data] make the first line when at most [limit]
    bytes are taken: up to and with the first newline (byte 10), or [limit]
    bytes, or all of [data], whichever comes first. *)
Fixpoint line_length (limit : nat) (data : list Z) : nat :=
  match limit, data with
  | S l, b :: rest => if b =? 10 then 1 else S (line_length l rest)
  | _, _ => 0
  end.

(** *** The log of calls *)

Definition any_call (c : call) : bool := true.

Definition is_select (c : call) : bool :=
  match c with c_select _ _ _ => true | _ => false end.

Definition is_read_on (fd : Z) (c : call) : bool :=
  match c with c_read fd' _ _ => fd' =? fd | _ => false end.

Definition is_write_on (fd : Z) (c : call) : bool :=
  match c with c_write fd' _ _ _ => fd' =? fd | _ => false end.





(** The calls that the computation added to the log all satisfy [p]. *)
Definition new_calls {A} (p : call -> bool) (w : World) (o : outcome A) : Prop :=
  match o with
  | Ret _ w' | Exit _ w' => exists new, trace w' = new ++ trace w /\ forallb p new = true
  | OutOfFuel => True
  end.



(** [w'] differs from [w] at most in what is private to the program:
    memory, [errno], the heap pointer and the state of [rand]. *)
Definition private_step (w w' : World) : Prop :=
  script w' = script w /\ fdtab w' = fdtab w /\ inp w' = inp w /\ out w' = out w /\
  peers w' = peers w /\ pool w' = pool w /\ trace w' = trace w /\
  heap_end w' = heap_end w.

(** *** The rounds of the client *)

(** The set that [do_work] hands to the readiness wait. *)
Definition watched (socket : Z) : Z := FD_SET socket (FD_SET STDIN_FILENO FD_ZERO).

(** The set that the next readiness wait of the round will report. *)
Definition round_ready (sc : list os_event) (socket : Z) : Z :=
  reported (fst (serving sc)) (Z.land (watched socket) (Z.ones (socket + 1))).

(** A [select] with these arguments that failed. *)
Definition interrupted_wait (n readfds : Z) (c : call) : bool :=
  match c with
  | c_select n' r' rc => (n' =? n) && (r' =? readfds) && (rc =? -1)
  | _ => false
  end.

(** *** More scripts *)

(** A script under which no write of [count] bytes is short: its failures
    are interruptions, and a [Short k] has [k >= count]. *)
Definition unshort_event (count : Z) (ev : os_event) : bool :=
  match ev with
  | Fail e => Zpos e =? EINTR
  | Short k => count <=? Zpos k
  | Ready _ => true
  end.

Definition unshort (count : Z) (sc : list os_event) : bool :=
  forallb (unshort_event count) sc.

(** An event that is no failure: the call that meets it is served. *)
Definition serves (ev : os_event) : bool :=
  match ev with
  | Fail _ => false
  | _ => true
  end.

(** The computation did not return; if it ended in [error], the message
    is one of [msgs]. *)
Definition stops_in {A} (msgs : list string) (o : outcome A) : Prop :=
  match o with
  | Ret _ _ => False
  | Exit msg _ => In msg msgs
  | OutOfFuel => True
  end.

(** If the computation ended in [error], the message is one of [msgs]. *)
Definition exits_in {A} (msgs : list string) (o : outcome A) : Prop :=
  match o with
  | Exit msg _ => In msg msgs
  | _ => True
  end.

(** A script that holds nothing but failures which [Accept] retries. *)
Definition accept_retries (ev : os_event) : bool :=
  match ev with
  | Fail e => (Zpos e =? EINTR) || (Zpos e =? ECONNABORTED)
  | _ => false
  end.

(** What is left of the script is a suffix of what there was: the
    computation took its events from the front, in order. *)
Definition script_suffix {A} (w : World) (o : outcome A) : Prop :=
  match o with
  | Ret _ w' | Exit _ w' => exists used, script w = used ++ script w'
  | OutOfFuel => True
  end.

(** The computation left the part [f] of the world as it was. *)
Definition keeps {A X} (f : World -> X) (w : World) (o : outcome A) : Prop :=
  match o with
  | Ret _ w' | Exit _ w' => f w' = f w
  | OutOfFuel => True
  end.

(** *** Memory *)

(** The computation changed no byte of memory outside [lo, hi). *)
Definition mem_outside {A} (lo hi : Z) (w : World) (o : outcome A) : Prop :=
  match o with
  | Ret _ w' | Exit _ w' => forall x, x < lo \/ hi <= x -> mem w' x = mem w x
  | OutOfFuel => True
  end.

(** *** The log of a round, call by call *)

(** A read or a write on [fd] that failed. *)
Definition failed_on (fd : Z) (c : call) : bool :=
  match c with
  | c_read fd' _ rc | c_write fd' _ _ rc => (fd' =? fd) && (rc =? -1)
  | _ => false
  end.

(** Every write to [fd] in the log took all the bytes it was asked for,
    or failed: none was short. *)
Definition whole_write (fd : Z) (c : call) : bool :=
  match c with
  | c_write fd' _ count rc => negb (fd' =? fd) || (rc =? count) || (rc =? -1)
  | _ => true
  end.

Definition whole_writes (fd : Z) (log : list call) : bool := forallb (whole_write fd) log.

(** *** The C library's [stdout] *)

(** The bytes of a string. *)
Definition bytes_of (str : string) : list Z :=
  map (fun c => Z.of_nat (Ascii.nat_of_ascii c)) (list_ascii_of_string str).

(** [printf] on a [stdout] that is fully buffered, as it is on a pipe or
    a file: the line stays in the buffer of [stdout] until [exit];
    nothing reaches descriptor 1 and no system call is made. *)
Definition printf_buffered (str : string) (w : World) : World := w.

(** [printf] on a [stdout] that is line buffered, as it is on a terminal,
    for a line that ends in a newline: the line goes to descriptor 1 at
    once; when descriptor 1 is not open, [errno] is [EBADF] afterwards. *)
Definition printf_line (str : string) (w : World) : World :=
  if is_open STDOUT_FILENO w
  then set_out (upd (out w) STDOUT_FILENO (out w STDOUT_FILENO ++ bytes_of str)) w
  else set_errno EBADF w.

(** What the statements ask of [printf]: of the streams it touches
    descriptor 1 alone, which receives the line whole or not yet; it
    takes nothing from the script, the inputs or the listen queue, opens
    and closes nothing and logs no call.  [errno] and memory are free. *)
Definition stdio_call (p : string -> World -> World) : Prop :=
  forall str w,
    script (p str w) = script w /\ fdtab (p str w) = fdtab w /\
    inp (p str w) = inp w /\ peers (p str w) = peers w /\
    trace (p str w) = trace w /\
    (forall fd, fd <> STDOUT_FILENO -> out (p str w) fd = out w fd) /\
    (out (p str w) STDOUT_FILENO = out w STDOUT_FILENO \/
     out (p str w) STDOUT_FILENO = out w STDOUT_FILENO ++ bytes_of str).

(** [printf] leaves [errno] as it is when descriptor 1 is open. *)
Definition stdio_keeps_errno (p : string -> World -> World) : Prop :=
  forall str w, is_open STDOUT_FILENO w = true -> errno (p str w) = errno w.

(** *** Who owns a connection *)









(** ** Concrete worlds *)

(** Descriptors 0, 1 and 2 are open, nothing is pending anywhere, the
    kernel serves every call in full. *)
Definition blank : World :=
  mkWorld [] 0 (fun _ => 0) [0; 1; 2] (fun _ => []) (fun _ => []) [] 4096 65536 [] [] [].

(** Descriptor 3 is open; the two bytes [97; 98] at address 100 are the
    buffer, the byte 99 behind them is not part of it; the kernel will take
    one byte in the first write, and serve every later call in full. *)
Definition w_short : World :=
  set_script [Short 1]
    (set_mem (store_bytes (fun _ => 0) 100 [97; 98; 99])
       (set_fdtab [0; 1; 2; 3] blank)).

(** Descriptor 3 is open and its peer will send [104; 105; 10; 106] and
    then close; the first system call will be interrupted. *)
Definition w_line : World :=
  set_script [Fail 4]
    (set_inp (upd (fun _ => []) 3 [104; 105; 10; 106])
       (set_fdtab [0; 1; 2; 3] blank)).

(** The same, with a peer that sends [104; 105] and closes. *)
Definition w_eof : World :=
  set_script [Fail 4]
    (set_inp (upd (fun _ => []) 3 [104; 105])
       (set_fdtab [0; 1; 2; 3] blank)).

(** Descriptors 0 and 3 are open; local input is at its end, the peer of
    descriptor 3 has sent [104; 105]; the readiness wait is interrupted
    once and then reports both descriptors (bits 0 and 3 of the mask). *)
Definition w_both : World :=
  set_script [Fail 4; Ready 9]
    (set_inp (upd (fun _ => []) 3 [104; 105])
       (set_fdtab [0; 1; 2; 3] blank)).

(** Descriptors 0, 1 and 3 are open.  The peer of descriptor 3 has sent
    [104; 105]; the readiness wait reports descriptor 3 alone (bit 3 of the
    mask), the read takes both bytes, and the write to descriptor 1 that
    follows takes one byte only.  Later calls are served in full, and
    local input is at its end. *)
Definition w_remote : World :=
  set_script [Ready 8; Short 2; Short 1]
    (set_inp (upd (fun _ => []) 3 [104; 105])
       (set_fdtab [0; 1; 2; 3] blank)).

(** The mirror image: local input holds [104; 105], the readiness wait
    reports descriptor 0 alone, and the first write to descriptor 3 takes
    one byte only. *)
Definition w_local : World :=
  set_script [Ready 1; Short 2; Short 1]
    (set_inp (upd (fun _ => []) 0 [104; 105])
       (set_fdtab [0; 1; 2; 3] blank)).

(** A server with the listening descriptor 3, two accepted connections on
    descriptors 4 and 5, and the two threads created for them, not yet run
    (their arguments, at 4096 and 4100, hold 4 and 5).  One more peer
    waits in the listen queue.  The next system call will fail with
    [EPIPE]. *)
Definition w_two : World :=
  set_script [Fail 32]
    (set_peers [[1]]
       (set_pool [4096; 4100]
          (set_heap 4104
             (set_mem (store_int (store_int (fun _ => 0) 4096 4) 4100 5)
                (set_fdtab [5; 4; 0; 1; 2; 3] blank))))).


(** Descriptors 0 to 3 are open, nothing is pending on any of them, and
    the kernel serves every call in full. *)
Definition w_idle : World := set_fdtab [0; 1; 2; 3] blank.

(** As [w_two], but the kernel fails [accept] twice, once interrupted and
    once with the connection aborted, and serves every call after that. *)
Definition w_knock : World := set_script [Fail 4; Fail 103] w_two.



(** Descriptors 0 to 3 are open; local input holds [104; 105] and the peer
    of descriptor 3 has sent [111; 107].  The first readiness wait is
    interrupted, and then reports descriptor 3 alone; no write is short. *)
Definition w_chat : World :=
  set_script [Fail 4; Ready 8]
    (set_inp (upd (upd (fun _ => []) 0 [104; 105]) 3 [111; 107]) w_idle).

(** A client about to start: descriptors 0, 1 and 2 are open, local input
    holds [104; 105], and the peer that will answer sends [111; 107]. *)
Definition w_dial : World :=
  set_peers [[111; 107]] (set_inp (upd (fun _ => []) 0 [104; 105]) blank).

(** A resolver that knows one address. *)
Definition resolve_local (str : string) : option (list Z) :=
  if String.eqb str "127.0.0.1" then Some [127; 0; 0; 1] else None.

(** Descriptors 0 to 3 are open; local input holds [104; 105] and the peer
    of descriptor 3 has sent [111; 107].  The readiness wait is
    interrupted once and then reports both descriptors; the kernel takes
    one byte in the first write. *)
Definition w_pair : World :=
  set_script [Fail 4; Ready 9; Short 2; Short 1]
    (set_inp (upd (upd (fun _ => []) 0 [104; 105]) 3 [111; 107]) w_idle).

(** * Proofs *)

(** ** Basic facts *)

(** Split a conjunction into its parts, and nothing else. *)
Ltac conjs := repeat match goal with |- _ /\ _ => split end.

Lemma to_size_t_small (v : Z) : 0 <= v < SIZE_MOD -> to_size_t v = v.
Proof. intros H. unfold to_size_t. apply Z.mod_small. exact H. Qed.

Lemma size_sub_small (n rc : Z) : 0 <= rc <= n -> n < SIZE_MOD -> size_sub n rc = n - rc.
Proof. intros H1 H2. unfold size_sub. apply Z.mod_small. lia. Qed.

Lemma load_bytes_length (m : memory) (k : nat) : forall a, length (load_bytes m a k) = k.
Proof. induction k as [|k IH]; intros a; simpl; [reflexivity | now rewrite IH]. Qed.

Lemma load_bytes_app (m : memory) (j : nat) :
  forall a k, load_bytes m a (j + k) = load_bytes m a j ++ load_bytes m (a + Z.of_nat j) k.
Proof.
  induction j as [|j IH]; intros a k.
  - simpl. now rewrite Z.add_0_r.
  - cbn [Nat.add load_bytes app]. rewrite IH. do 3 f_equal. lia.
Qed.

Lemma store_bytes_outside (bs : list Z) :
  forall m a x, x < a \/ a + Z.of_nat (length bs) <= x -> store_bytes m a bs x = m x.
Proof.
  induction bs as [|b bs IH]; intros m a x H; simpl; [reflexivity|].
  rewrite IH by (simpl length in H; lia).
  unfold store. destruct (x =? a) eqn:E; [apply Z.eqb_eq in E; simpl length in H; lia | reflexivity].
Qed.

Lemma load_bytes_ext (k : nat) :
  forall m m' a, (forall x, a <= x < a + Z.of_nat k -> m' x = m x) ->
                 load_bytes m' a k = load_bytes m a k.
Proof.
  induction k as [|k IH]; intros m m' a H; simpl; [reflexivity|].
  rewrite H by lia. f_equal. apply IH. intros x Hx. apply H. lia.
Qed.

(** ** The null-buffer check of [writen] *)

(** C9. [writen] called with a null buffer sets [errno] to [EFAULT] and
    ends in [error("writen()")]: the call does not return, and the world at
    the exit is the world of the call but for [errno], so no byte was
    written and no call was made.  Both files, every descriptor, every
    count, every amount of fuel. *)
Theorem writen_null_buffer :
  forall (fuel : nat) (socket count : Z) (w : World),
    Server.writen fuel socket NULL count w = Exit "writen()" (set_errno EFAULT w) /\
    Client.writen fuel socket NULL count w = Exit "writen()" (set_errno EFAULT w).
Proof. intros. split; reflexivity. Qed.

(** ** The retry loops of the wrappers *)

Ltac split_same_io H :=
  match type of H with
  | same_io ?w1 ?w2 =>
      destruct w1, w2; unfold same_io in H; simpl in H;
      injection H; intros; subst; clear H
  end.

Ltac case_script :=
  match goal with
  | |- context [match ?s with [] => _ | _ :: _ => _ end] =>
      let e := fresh "e" in let k := fresh "k" in let m := fresh "m" in
      let sc := fresh "sc" in
      destruct s as [|[e|k|m] sc]
  end.

Lemma chunk_nonneg (ev : option os_event) (count : Z) : 0 <= chunk ev count.
Proof. unfold chunk. lia. Qed.

Lemma chunk_le (ev : option os_event) (count : Z) : 0 <= count -> chunk ev count <= count.
Proof. unfold chunk. destruct ev as [[e|k|m]|]; lia. Qed.

Lemma chunk_pos (ev : option os_event) (count : Z) : 1 <= count -> 1 <= chunk ev count.
Proof. unfold chunk. destruct ev as [[e|k|m]|]; lia. Qed.

Ltac sys_same_io :=
  match goal with H : same_io _ _ |- _ => split_same_io H end;
  unfold agree, sys_read, sys_write, sys_close, sys_accept, sys_select,
    next_event, all_open, is_open;
  cbn [script fdtab];
  case_script;
  cbn [set_script script fdtab errno mem inp out peers heap heap_end rands pool trace];
  try match goal with |- context [if ?b then _ else _] => destruct b end;
  cbn [fst snd log set_script set_errno set_mem set_fdtab set_inp set_out
       set_peers set_trace script fdtab errno mem inp out peers heap heap_end rands pool trace];
  (split; [reflexivity | split; [reflexivity | try reflexivity; try discriminate]]).

Lemma sys_read_same_io (fd buf count : Z) (w1 w2 : World) :
  same_io w1 w2 ->
  agree (sys_read fd buf count w1) (sys_read fd buf count w2) (fun rc => rc =? -1).
Proof. intros H. sys_same_io; intros E; apply Z.eqb_eq in E; lia. Qed.

Lemma sys_write_same_io (fd buf count : Z) (w1 w2 : World) :
  same_io w1 w2 ->
  agree (sys_write fd buf count w1) (sys_write fd buf count w2) (fun rc => rc =? -1).
Proof.
  intros H. sys_same_io; intros E; apply Z.eqb_eq in E;
    match goal with H : chunk ?ev ?c = _ |- _ => pose proof (chunk_nonneg ev c); lia end.
Qed.

Lemma sys_close_same_io (fd : Z) (w1 w2 : World) :
  same_io w1 w2 ->
  agree (sys_close fd w1) (sys_close fd w2) (fun rc => negb (rc =? 0)).
Proof. intros H. sys_same_io. Qed.

Lemma lowest_free_ge (tab : list Z) (fuel : nat) : forall fd, fd <= lowest_free fuel fd tab.
Proof.
  induction fuel as [|f IH]; intros fd; simpl; [lia|].
  destruct (existsb (Z.eqb fd) tab); [specialize (IH (fd + 1)); lia | lia].
Qed.

Lemma fresh_fd_nonneg (tab : list Z) : 0 <= fresh_fd tab.
Proof. apply lowest_free_ge. Qed.

Lemma pos_popcount_pos (p : positive) : 0 < pos_popcount p.
Proof. induction p; cbn [pos_popcount]; lia. Qed.

Lemma popcount_nonneg (z : Z) : 0 <= popcount z.
Proof. destruct z; simpl; try lia. pose proof (pos_popcount_pos p). lia. Qed.

Lemma sys_accept_same_io (socket addr addrlen : Z) (w1 w2 : World) :
  same_io w1 w2 ->
  agree (sys_accept socket addr addrlen w1) (sys_accept socket addr addrlen w2)
        (fun rc => rc =? -1).
Proof.
  intros H. sys_same_io; intros E; apply Z.eqb_eq in E;
    match goal with H : fresh_fd ?t = _ |- _ => pose proof (fresh_fd_nonneg t); lia end.
Qed.

Lemma sys_select_same_io (n readfds : Z) (w1 w2 : World) :
  same_io w1 w2 ->
  agree (sys_select n readfds w1) (sys_select n readfds w2) (fun r => fst r =? -1).
Proof.
  intros H. sys_same_io; cbn [fst]; intros E; apply Z.eqb_eq in E;
    match goal with H : popcount ?t = _ |- _ => pose proof (popcount_nonneg t); lia end.
Qed.

(** The shape every retry loop has in common: after one call, agreeing
    worlds take the same branch. *)
Ltac retry_same_io IH lem :=
  let H := fresh "H" in
  intros ? ? H; cbn [Read Write Close Server.Accept Client.Select];
  unfold bind, lift;
  match goal with
  | |- same_outcome (match (let (_, _) := ?c1 in _) with _ => _ end)
                    (match (let (_, _) := ?c2 in _) with _ => _ end) =>
      let Hv := fresh "Hv" in let Hw := fresh "Hw" in let He := fresh "He" in
      destruct (lem _ _ H) as (Hv & Hw & He);
      destruct c1 as [rc1 w1']; destruct c2 as [rc2 w2'];
      cbn [fst snd] in Hv, Hw, He; subst rc2
  end.

Ltac retry_finish IH :=
  match goal with
  | Hw : same_io ?a ?b, He : _ -> errno ?a = errno ?b |- _ =>
      match goal with
      | |- context [?x =? ?y] =>
          match type of He with
          | context [x =? y] =>
              destruct (x =? y) eqn:?; cbn [negb] in *;
              unfold ret, get_errno, error;
              try (split; [reflexivity | exact Hw]);
              try (rewrite (He eq_refl);
                   match goal with
                   | |- context [if ?c then _ else _] =>
                       destruct c; [apply IH; exact Hw | repeat split; auto]
                   end)
          end
      end
  end.

Lemma Read_same_io (fuel : nat) (fd buf count : Z) :
  forall w1 w2, same_io w1 w2 ->
    same_outcome (Read fuel fd buf count w1) (Read fuel fd buf count w2).
Proof.
  induction fuel as [|f IH]; [intros; exact I|].
  retry_same_io IH (sys_read_same_io fd buf count). retry_finish IH.
Qed.

Lemma Write_same_io (fuel : nat) (fd buf count : Z) :
  forall w1 w2, same_io w1 w2 ->
    same_outcome (Write fuel fd buf count w1) (Write fuel fd buf count w2).
Proof.
  induction fuel as [|f IH]; [intros; exact I|].
  retry_same_io IH (sys_write_same_io fd buf count). retry_finish IH.
Qed.

Lemma Close_same_io (fuel : nat) (fd : Z) :
  forall w1 w2, same_io w1 w2 ->
    same_outcome (Close fuel fd w1) (Close fuel fd w2).
Proof.
  induction fuel as [|f IH]; [intros; exact I|].
  retry_same_io IH (sys_close_same_io fd). retry_finish IH.
Qed.

Lemma Accept_same_io (fuel : nat) (socket addr addrlen : Z) :
  forall w1 w2, same_io w1 w2 ->
    same_outcome (Server.Accept fuel socket addr addrlen w1)
                 (Server.Accept fuel socket addr addrlen w2).
Proof.
  induction fuel as [|f IH]; [intros; exact I|].
  retry_same_io IH (sys_accept_same_io socket addr addrlen). retry_finish IH.
Qed.

Lemma Select_same_io (fuel : nat) (n : Z) :
  forall readfds w1 w2, same_io w1 w2 ->
    same_outcome (Client.Select fuel n readfds w1) (Client.Select fuel n readfds w2).
Proof.
  induction fuel as [|f IH]; [intros; exact I|]. intros readfds.
  retry_same_io IH (sys_select_same_io n readfds). retry_finish IH.
Qed.

(** *** What a wrapper returns *)

Lemma chunk_le_max (ev : option os_event) (count : Z) : chunk ev count <= Z.max 0 count.
Proof. unfold chunk. destruct ev as [[e|k|m]|]; lia. Qed.

Lemma sys_read_rc (fd buf count : Z) (w : World) :
  fst (sys_read fd buf count w) = -1 \/
  0 <= fst (sys_read fd buf count w) <= Z.max 0 count.
Proof.
  unfold sys_read.
  destruct (next_event w) as [ev w1].
  assert (G : forall l : list Z,
             0 <= Z.of_nat (length (firstn (Z.to_nat (chunk ev count)) l)) <= Z.max 0 count).
  { intros l. rewrite length_firstn. pose proof (chunk_le_max ev count).
    pose proof (chunk_nonneg ev count). lia. }
  destruct ev as [[e|k|m]|]; try (left; reflexivity);
    destruct (is_open fd w1); cbn [fst]; auto.
Qed.

Lemma sys_write_rc (fd buf count : Z) (w : World) :
  fst (sys_write fd buf count w) = -1 \/
  0 <= fst (sys_write fd buf count w) <= Z.max 0 count.
Proof.
  unfold sys_write.
  destruct (next_event w) as [ev w1].
  pose proof (chunk_le_max ev count). pose proof (chunk_nonneg ev count).
  destruct ev as [[e|k|m]|]; try (left; reflexivity);
    destruct (is_open fd w1); cbn [fst]; auto.
Qed.

Lemma sys_accept_rc (socket addr addrlen : Z) (w : World) :
  fst (sys_accept socket addr addrlen w) = -1 \/
  0 <= fst (sys_accept socket addr addrlen w).
Proof.
  unfold sys_accept.
  destruct (next_event w) as [ev w1].
  pose proof (fresh_fd_nonneg (fdtab w1)).
  destruct ev as [[e|k|m]|]; try (left; reflexivity);
    destruct (is_open socket w1); cbn [fst]; auto.
Qed.

Lemma sys_select_rc (n readfds : Z) (w : World) :
  fst (fst (sys_select n readfds w)) = -1 \/
  0 <= fst (fst (sys_select n readfds w)).
Proof.
  unfold sys_select.
  destruct (next_event w) as [ev w1].
  destruct ev as [[e|k|m]|]; try (left; reflexivity);
    destruct (all_open n readfds w1); cbn [fst]; auto using popcount_nonneg.
Qed.

Lemma Read_result (fuel : nat) (fd buf count : Z) :
  forall w v w', Read fuel fd buf count w = Ret v w' ->
                 0 <= count < SIZE_MOD -> 0 <= v <= count.
Proof.
  induction fuel as [|f IH]; intros w v w' H Hc; [discriminate|].
  cbn [Read] in H. unfold bind, lift in H.
  pose proof (sys_read_rc fd buf count w) as Hrc.
  destruct (sys_read fd buf count w) as [rc w1]. cbn [fst] in Hrc.
  destruct (rc =? -1) eqn:E; cbn [negb] in H.
  - unfold get_errno in H. destruct (errno w1 =? EINTR); [eauto | discriminate].
  - apply Z.eqb_neq in E. unfold ret in H. injection H as <- _.
    rewrite to_size_t_small; lia.
Qed.

Lemma Write_result (fuel : nat) (fd buf count : Z) :
  forall w v w', Write fuel fd buf count w = Ret v w' ->
                 0 <= count < SIZE_MOD -> 0 <= v <= count.
Proof.
  induction fuel as [|f IH]; intros w v w' H Hc; [discriminate|].
  cbn [Write] in H. unfold bind, lift in H.
  pose proof (sys_write_rc fd buf count w) as Hrc.
  destruct (sys_write fd buf count w) as [rc w1]. cbn [fst] in Hrc.
  destruct (rc =? -1) eqn:E; cbn [negb] in H.
  - unfold get_errno in H. destruct (errno w1 =? EINTR); [eauto | discriminate].
  - apply Z.eqb_neq in E. unfold ret in H. injection H as <- _.
    rewrite to_size_t_small; lia.
Qed.

Lemma Accept_result (fuel : nat) (socket addr addrlen : Z) :
  forall w v w', Server.Accept fuel socket addr addrlen w = Ret v w' -> 0 <= v.
Proof.
  induction fuel as [|f IH]; intros w v w' H; [discriminate|].
  cbn [Server.Accept] in H. unfold bind, lift in H.
  pose proof (sys_accept_rc socket addr addrlen w) as Hrc.
  destruct (sys_accept socket addr addrlen w) as [rc w1]. cbn [fst] in Hrc.
  destruct (rc =? -1) eqn:E; cbn [negb] in H.
  - unfold get_errno in H.
    destruct ((errno w1 =? EINTR) || (errno w1 =? ECONNABORTED)); [eauto | discriminate].
  - apply Z.eqb_neq in E. unfold ret in H. injection H as <- _. lia.
Qed.

Lemma Select_result (fuel : nat) (n : Z) :
  forall readfds w v w', Client.Select fuel n readfds w = Ret v w' -> 0 <= fst v.
Proof.
  induction fuel as [|f IH]; intros readfds w v w' H; [discriminate|].
  cbn [Client.Select] in H. unfold bind, lift in H.
  pose proof (sys_select_rc n readfds w) as Hrc.
  destruct (sys_select n readfds w) as [r w1]. cbn [fst] in Hrc.
  destruct (fst r =? -1) eqn:E; cbn [negb] in H.
  - unfold get_errno in H. destruct (errno w1 =? EINTR); [eauto | discriminate].
  - apply Z.eqb_neq in E. unfold ret in H. injection H as <- _. lia.
Qed.

(** *** The first attempt fails *)

Section FirstAttemptFails.

Variables (w : World) (e : positive) (sc : list os_event).
Hypothesis Hsc : script w = Fail e :: sc.

Lemma failed_read (fuel : nat) (fd buf count : Z) :
  Read (S fuel) fd buf count w =
  (if Zpos e =? EINTR then Read fuel fd buf count else error "read()")
    (log (c_read fd count (-1)) (set_errno (Zpos e) (set_script sc w))).
Proof.
  cbn [Read]. unfold bind, lift, sys_read, next_event. rewrite Hsc. reflexivity.
Qed.

Lemma failed_write (fuel : nat) (fd buf count : Z) :
  Write (S fuel) fd buf count w =
  (if Zpos e =? EINTR then Write fuel fd buf count else error "write()")
    (log (c_write fd buf count (-1)) (set_errno (Zpos e) (set_script sc w))).
Proof.
  cbn [Write]. unfold bind, lift, sys_write, next_event. rewrite Hsc. reflexivity.
Qed.

Lemma failed_close (fuel : nat) (fd : Z) :
  Close (S fuel) fd w =
  (if Zpos e =? EINTR then Close fuel fd else error "close()")
    (log (c_close fd (-1)) (set_errno (Zpos e) (set_script sc w))).
Proof.
  cbn [Close]. unfold bind, lift, sys_close, next_event. rewrite Hsc. reflexivity.
Qed.

Lemma failed_accept (fuel : nat) (socket addr addrlen : Z) :
  Server.Accept (S fuel) socket addr addrlen w =
  (if (Zpos e =? EINTR) || (Zpos e =? ECONNABORTED)
   then Server.Accept fuel socket addr addrlen else error "accept()")
    (log (c_accept socket (-1)) (set_errno (Zpos e) (set_script sc w))).
Proof.
  cbn [Server.Accept]. unfold bind, lift, sys_accept, next_event. rewrite Hsc. reflexivity.
Qed.

Lemma failed_select (fuel : nat) (n readfds : Z) :
  Client.Select (S fuel) n readfds w =
  (if Zpos e =? EINTR then Client.Select fuel n readfds else error "select()")
    (log (c_select n readfds (-1)) (set_errno (Zpos e) (set_script sc w))).
Proof.
  cbn [Client.Select]. unfold bind, lift, sys_select, next_event. rewrite Hsc. reflexivity.
Qed.

End FirstAttemptFails.

Lemma fatal_intro {A} (msg : string) (e : Z) (c : call) (w0 : World) :
  fatal msg e w0 (@error A msg (log c (set_errno e w0))).
Proof. exists (log c (set_errno e w0)). repeat split. Qed.

(** C6. Let the first event of the script be a failure with [errno = e],
    and let [w0] be the world in which that failure never happened.
    - [e = EINTR]: [Read], [Write], [Close] and [Select] end as they end
      from [w0] (same return value, same memory, descriptors and streams;
      only [errno] and the log of calls can differ);
    - any other [e]: they end in [error] with their own message and
      [errno = e], nothing else changed;
    - [Accept] does the first for [EINTR] and for [ECONNABORTED], the second
      for any other [e];
    - whenever [Read] or [Write] returns, the value is a count between 0
      and the count asked for; whenever [Accept] or [Select] returns, the
      value is not negative. *)
Theorem transparent_retry :
  forall (fuel : nat) (w : World) (e : positive) (sc : list os_event)
         (fd buf count socket addr addrlen n readfds : Z),
    script w = Fail e :: sc ->
    0 <= count < SIZE_MOD ->
    let w0 := set_script sc w in
    (if Zpos e =? EINTR then
       same_outcome (Read (S fuel) fd buf count w) (Read fuel fd buf count w0) /\
       same_outcome (Write (S fuel) fd buf count w) (Write fuel fd buf count w0) /\
       same_outcome (Close (S fuel) fd w) (Close fuel fd w0) /\
       same_outcome (Client.Select (S fuel) n readfds w) (Client.Select fuel n readfds w0)
     else
       fatal "read()" (Zpos e) w0 (Read (S fuel) fd buf count w) /\
       fatal "write()" (Zpos e) w0 (Write (S fuel) fd buf count w) /\
       fatal "close()" (Zpos e) w0 (Close (S fuel) fd w) /\
       fatal "select()" (Zpos e) w0 (Client.Select (S fuel) n readfds w)) /\
    (if (Zpos e =? EINTR) || (Zpos e =? ECONNABORTED) then
       same_outcome (Server.Accept (S fuel) socket addr addrlen w)
                    (Server.Accept fuel socket addr addrlen w0)
     else
       fatal "accept()" (Zpos e) w0 (Server.Accept (S fuel) socket addr addrlen w)) /\
    (forall (g : nat) (x : World) (v : Z) (x' : World),
        Read g fd buf count x = Ret v x' \/ Write g fd buf count x = Ret v x' ->
        0 <= v <= count) /\
    (forall (g : nat) (x : World) (v : Z) (x' : World),
        Server.Accept g socket addr addrlen x = Ret v x' -> 0 <= v) /\
    (forall (g : nat) (x : World) (v : Z * Z) (x' : World),
        Client.Select g n readfds x = Ret v x' -> 0 <= fst v).
Proof.
  intros fuel w e sc fd buf count socket addr addrlen n readfds Hsc Hc w0.
  rewrite (failed_read w e sc Hsc), (failed_write w e sc Hsc),
    (failed_close w e sc Hsc), (failed_select w e sc Hsc),
    (failed_accept w e sc Hsc).
  fold w0. repeat apply conj.
  - destruct (Zpos e =? EINTR); repeat apply conj;
      first [ apply Read_same_io | apply Write_same_io | apply Close_same_io
            | apply Select_same_io | apply fatal_intro ]; reflexivity.
  - destruct ((Zpos e =? EINTR) || (Zpos e =? ECONNABORTED));
      [apply Accept_same_io; reflexivity | apply fatal_intro].
  - intros g x v x' [H|H]; [eapply Read_result | eapply Write_result]; eauto.
  - intros g x v x'. apply Accept_result.
  - intros g x v x'. apply Select_result.
Qed.

Lemma transparent_retry_witness :
  script w_line = [Fail 4] /\ 0 <= 5 < SIZE_MOD /\
  same_outcome (Read 3 3 200 5 w_line) (Read 2 3 200 5 (set_script [] w_line)) /\
  same_outcome (Write 3 3 200 5 w_line) (Write 2 3 200 5 (set_script [] w_line)) /\
  same_outcome (Close 3 3 w_line) (Close 2 3 (set_script [] w_line)) /\
  same_outcome (Client.Select 3 4 9 w_line) (Client.Select 2 4 9 (set_script [] w_line)) /\
  same_outcome (Server.Accept 3 3 0 0 w_line) (Server.Accept 2 3 0 0 (set_script [] w_line)) /\
  (forall g x v x',
      Read g 3 200 5 x = Ret v x' \/ Write g 3 200 5 x = Ret v x' -> 0 <= v <= 5).
Proof.
  assert (Hc : 0 <= 5 < SIZE_MOD) by (unfold SIZE_MOD; lia).
  destruct (transparent_retry 2 w_line 4 [] 3 200 5 3 0 0 4 9 eq_refl Hc)
    as (H1 & H2 & H3 & _).
  split; [reflexivity|]. split; [exact Hc|].
  destruct H1 as (Hr & Hw & Hcl & Hs).
  conjs; assumption.
Defined.

(** ** [Write] and [writen] under a quiet script *)

Lemma Write_quiet (f : nat) (fd p n : Z) :
  forall w,
    is_open fd w = true -> quiet (script w) = true ->
    (length (script w) < f)%nat -> 0 <= n < SIZE_MOD ->
    exists rc w',
      Write f fd p n w = Ret rc w' /\
      (n = 0 -> rc = 0) /\ (1 <= n -> 1 <= rc <= n) /\
      out w' = upd (out w) fd (out w fd ++ load_bytes (mem w) p (Z.to_nat rc)) /\
      mem w' = mem w /\ fdtab w' = fdtab w /\ inp w' = inp w /\
      quiet (script w') = true /\
      (length (script w') <= length (script w))%nat /\
      (script w = [] \/ (length (script w') < length (script w))%nat).
Proof.
  induction f as [|f IH]; intros w Ho Hq Hf Hn; [inversion Hf|].
  destruct (script w) as [|ev sc] eqn:Hsc.
  - (* served in full *)
    exists n, (log (c_write fd p n (chunk None n))
                 (set_out (upd (out w) fd (out w fd ++ load_bytes (mem w) p (Z.to_nat (chunk None n)))) w)).
    assert (Hk : chunk None n = n) by (unfold chunk; lia).
    cbn [Write]. unfold bind, lift, sys_write, next_event. rewrite Hsc, Ho.
    rewrite Hk.
    destruct (n =? -1) eqn:E; [apply Z.eqb_eq in E; lia|]. cbn [negb]. unfold ret.
    rewrite to_size_t_small by lia. cbn. rewrite Hsc.
    conjs; auto; lia.
  - destruct ev as [e|k|m].
    + (* interrupted: the same call again *)
      cbn [quiet forallb quiet_event] in Hq. apply andb_true_iff in Hq as [He Hq].
      rewrite (failed_write w e sc Hsc), He.
      destruct (IH (log (c_write fd p n (-1)) (set_errno (Zpos e) (set_script sc w))))
        as (rc & w' & HW & H0 & H1 & H2 & H3 & H4 & H5 & H6 & H7 & H8);
        try assumption; try (cbn in *; lia).
      exists rc, w'. cbn in H2, H3, H4, H5, H7, H8. cbn [length] in *.
      conjs; auto; try lia.
    + (* a short write *)
      pose proof (chunk_nonneg (Some (Short k)) n) as Hk0.
      pose proof (chunk_le (Some (Short k)) n ltac:(lia)) as Hk1.
      exists (chunk (Some (Short k)) n),
        (log (c_write fd p n (chunk (Some (Short k)) n))
           (set_out (upd (out w) fd
                       (out w fd ++ load_bytes (mem w) p (Z.to_nat (chunk (Some (Short k)) n))))
              (set_script sc w))).
      cbn [Write]. unfold bind, lift, sys_write, next_event. rewrite Hsc.
      replace (is_open fd (set_script sc w)) with true by (symmetry; exact Ho).
      destruct (chunk (Some (Short k)) n =? -1) eqn:E; [apply Z.eqb_eq in E; lia|].
      cbn [negb]. unfold ret. rewrite to_size_t_small by lia.
      cbn [quiet forallb quiet_event] in Hq.
      pose proof (chunk_pos (Some (Short k)) n).
      conjs; auto; try (cbn; lia).
    + pose proof (chunk_nonneg (Some (Ready m)) n) as Hk0.
      assert (Hk : chunk (Some (Ready m)) n = n) by (unfold chunk; lia).
      exists n,
        (log (c_write fd p n n)
           (set_out (upd (out w) fd (out w fd ++ load_bytes (mem w) p (Z.to_nat n)))
              (set_script sc w))).
      cbn [Write]. unfold bind, lift, sys_write, next_event. rewrite Hsc.
      replace (is_open fd (set_script sc w)) with true by (symmetry; exact Ho).
      rewrite Hk.
      destruct (n =? -1) eqn:E; [apply Z.eqb_eq in E; lia|].
      cbn [negb]. unfold ret. rewrite to_size_t_small by lia.
      cbn [quiet forallb quiet_event] in Hq.
      conjs; auto; try (cbn; lia).
Qed.

Lemma upd_same (f : Z -> list Z) (fd : Z) (v : list Z) : upd f fd v fd = v.
Proof. unfold upd. now rewrite Z.eqb_refl. Qed.

Lemma upd_other (f : Z -> list Z) (fd fd' : Z) (v : list Z) :
  fd' <> fd -> upd f fd v fd' = f fd'.
Proof. intros H. unfold upd. apply Z.eqb_neq in H. now rewrite H. Qed.

Lemma client_writen_loop_quiet (F : nat) (fd : Z) :
  forall w p n,
    is_open fd w = true -> quiet (script w) = true -> 0 <= n < SIZE_MOD ->
    (length (script w) + Z.to_nat n < F)%nat ->
    exists w',
      Client.writen_loop F fd p n w = Ret tt w' /\
      out w' fd = out w fd ++ load_bytes (mem w) p (Z.to_nat n) /\
      (forall fd', fd' <> fd -> out w' fd' = out w fd') /\
      mem w' = mem w /\ fdtab w' = fdtab w /\ inp w' = inp w /\
      quiet (script w') = true /\
      (length (script w') <= length (script w))%nat.
Proof.
  induction F as [|F IH]; intros w p n Ho Hq Hn HF; [inversion HF|].
  cbn [Client.writen_loop].
  destruct (n =? 0) eqn:E.
  - apply Z.eqb_eq in E. subst n. exists w. unfold ret. cbn [Z.to_nat load_bytes].
    rewrite app_nil_r. conjs; auto.
  - apply Z.eqb_neq in E.
    destruct (Write_quiet F fd p n w Ho Hq ltac:(lia) Hn)
      as (rc & w1 & HW & _ & Hrc & Hout & Hmem & Hfd & Hinp & Hq1 & Hlen & _).
    specialize (Hrc ltac:(lia)).
    unfold bind. rewrite HW.
    rewrite size_sub_small by lia.
    destruct (IH w1 (p + rc) (n - rc)) as (w' & HL & Hout' & Hoth & Hmem' & Hfd' & Hinp' & Hq' & Hlen');
      try assumption; try lia.
    { unfold is_open in *. now rewrite Hfd. }
    exists w'. conjs; auto; try congruence; try lia.
    + rewrite Hout', Hout, upd_same, Hmem, <- app_assoc. f_equal.
      replace (Z.to_nat n) with (Z.to_nat rc + Z.to_nat (n - rc))%nat by lia.
      rewrite load_bytes_app. do 2 f_equal. lia.
    + intros fd' Hne. rewrite (Hoth fd' Hne), Hout. now apply upd_other.
Qed.

(** X1.  [writen] of client.c delivers the buffer whole, whatever the partial
    writes and interruptions: it returns [count], and the stream has
    received exactly the [count] bytes at [buf], in order. *)
Theorem client_writen_delivers :
  forall (fuel : nat) (socket buf count : Z) (w : World),
    buf <> NULL -> is_open socket w = true -> quiet (script w) = true ->
    0 <= count < SIZE_MOD ->
    (length (script w) + Z.to_nat count < fuel)%nat ->
    exists w',
      Client.writen fuel socket buf count w = Ret count w' /\
      out w' socket = out w socket ++ load_bytes (mem w) buf (Z.to_nat count) /\
      (forall fd', fd' <> socket -> out w' fd' = out w fd') /\
      mem w' = mem w.
Proof.
  intros fuel socket buf count w Hb Ho Hq Hc Hf.
  destruct (client_writen_loop_quiet fuel socket w buf count Ho Hq Hc Hf)
    as (w' & HL & Hout & Hoth & Hmem & _).
  exists w'. unfold Client.writen.
  apply Z.eqb_neq in Hb. rewrite Hb. unfold bind, ret. rewrite HL. auto.
Qed.

Lemma client_writen_delivers_witness :
  exists w',
    Client.writen 5 3 100 2 w_short = Ret 2 w' /\
    out w' 3 = out w_short 3 ++ load_bytes (mem w_short) 100 (Z.to_nat 2) /\
    (forall fd', fd' <> 3 -> out w' fd' = out w_short fd') /\
    mem w' = mem w_short.
Proof.
  apply (client_writen_delivers 5 3 100 2 w_short).
  - discriminate.
  - reflexivity.
  - reflexivity.
  - unfold SIZE_MOD. lia.
  - cbn. lia.
Defined.

(** *** [writen] of server3.c after a short write *)

Lemma Write_full (f : nat) (fd p n : Z) (w : World) :
  script w = [] -> is_open fd w = true -> 0 <= n < SIZE_MOD ->
  Write (S f) fd p n w =
  Ret n (log (c_write fd p n n)
           (set_out (upd (out w) fd (out w fd ++ load_bytes (mem w) p (Z.to_nat n))) w)).
Proof.
  intros Hsc Ho Hn.
  cbn [Write]. unfold bind, lift, sys_write, next_event. rewrite Hsc, Ho.
  replace (chunk None n) with n by (unfold chunk; lia).
  destruct (n =? -1) eqn:E; [apply Z.eqb_eq in E; lia|].
  cbn [negb]. unfold ret. now rewrite to_size_t_small by lia.
Qed.

Lemma odd_size_sub_2 (n : Z) : Z.odd n = true -> Z.odd (size_sub n 2) = true.
Proof.
  intros H. unfold size_sub, SIZE_MOD.
  rewrite Z.mod_eq by lia.
  rewrite Z.odd_sub, Z.odd_sub, Z.odd_mul, H. reflexivity.
Qed.

Lemma size_sub_range (n rc : Z) : 0 <= size_sub n rc < SIZE_MOD.
Proof. unfold size_sub, SIZE_MOD. apply Z.mod_pos_bound. lia. Qed.

(** Once the count that remains is odd, a loop that writes two bytes at a
    time never sees it reach zero. *)
Lemma server_writen_loop_odd (F : nat) (fd : Z) :
  forall w p n,
    script w = [] -> is_open fd w = true -> Z.odd n = true -> 0 <= n < SIZE_MOD ->
    Server.writen_loop F fd p n 2 w = OutOfFuel.
Proof.
  induction F as [|F IH]; intros w p n Hsc Ho Hodd Hn; [reflexivity|].
  cbn [Server.writen_loop].
  destruct (n =? 0) eqn:E; [apply Z.eqb_eq in E; subst n; discriminate|].
  unfold bind. destruct F as [|F']; [reflexivity|].
  rewrite Write_full by (auto; unfold SIZE_MOD; lia).
  apply IH; auto using odd_size_sub_2, size_sub_range.
Qed.

Lemma server_writen_loop_step (F : nat) (fd p n count : Z) (w : World) :
  n <> 0 ->
  Server.writen_loop (S F) fd p n count w =
  match Write F fd p count w with
  | Ret rc w' => Server.writen_loop F fd (p + rc) (size_sub n rc) count w'
  | Exit msg w' => Exit msg w'
  | OutOfFuel => OutOfFuel
  end.
Proof.
  intros H. cbn [Server.writen_loop]. apply Z.eqb_neq in H. now rewrite H.
Qed.

(** C1, on server3.c.  The buffer is the two bytes [97; 98]; the first
    write takes one byte.  The second call of [Write] again asks for
    [count = 2] bytes, from the advanced cursor: the byte 99 behind the
    buffer goes out to the stream, the count that remains wraps around to
    2^64 - 1, and [writen] does not return, whatever the fuel.  [writen]
    of client.c, at the same input, returns 2 with exactly [97; 98]
    delivered. *)
Theorem server_writen_overrun :
  load_bytes (mem w_short) 100 2 = [97; 98] /\
  (exists w1 w2,
      Write 1 3 100 2 w_short = Ret 1 w1 /\
      Write 1 3 (100 + 1) 2 w1 = Ret 2 w2 /\
      out w2 3 = [97; 98; 99] /\
      size_sub (size_sub 2 1) 2 = SIZE_MOD - 1) /\
  (forall fuel, Server.writen fuel 3 100 2 w_short = OutOfFuel) /\
  (exists w', Client.writen 3 3 100 2 w_short = Ret 2 w' /\ out w' 3 = [97; 98]).
Proof.
  split; [reflexivity|]. split; [|split].
  - do 2 eexists. split; [reflexivity|]. split; [reflexivity|]. split; reflexivity.
  - intros fuel. unfold Server.writen. cbn [Z.eqb NULL]. unfold bind at 1 2. unfold ret at 1.
    destruct fuel as [|[|F]]; try reflexivity.
    rewrite server_writen_loop_step by discriminate.
    change (Write (S F) 3 100 2 w_short) with
      (Ret (A:=Z) 1 (log (c_write 3 100 2 1)
         (set_out (upd (out w_short) 3 (out w_short 3 ++ load_bytes (mem w_short) 100 1))
            (set_script [] w_short)))).
    cbv beta iota.
    rewrite server_writen_loop_odd; auto using size_sub_range.
  - eexists. split; reflexivity.
Qed.

(** ** [Read] and [reads] under a quiet script *)

Lemma firstn_length_firstn {A} (m : nat) (l : list A) :
  firstn (length (firstn m l)) l = firstn m l.
Proof.
  rewrite length_firstn.
  destruct (Nat.le_ge_cases m (length l)) as [H|H].
  - now rewrite Nat.min_l.
  - rewrite Nat.min_r by exact H. now rewrite !firstn_all2.
Qed.

Lemma Read_served (f : nat) (fd buf count : Z) (w : World) (ev : option os_event) (w1 : World) :
  next_event w = (ev, w1) -> (forall e, ev <> Some (Fail e)) ->
  is_open fd w1 = true ->
  let k := length (firstn (Z.to_nat (chunk ev count)) (inp w1 fd)) in
  0 <= count < SIZE_MOD ->
  Read (S f) fd buf count w =
  Ret (Z.of_nat k)
      (log (c_read fd count (Z.of_nat k))
         (set_inp (upd (inp w1) fd (skipn k (inp w1 fd)))
            (set_mem (store_bytes (mem w1) buf (firstn k (inp w1 fd))) w1))).
Proof.
  intros Hev Hnf Ho k Hc.
  assert (Hk : (k <= Z.to_nat count)%nat).
  { subst k. rewrite length_firstn. pose proof (chunk_le ev count). lia. }
  cbn [Read]. unfold bind, lift, sys_read. rewrite Hev.
  assert (E : (if is_open fd w1
               then
                (Z.of_nat k,
                 log (c_read fd count (Z.of_nat k))
                   (set_inp (upd (inp w1) fd (skipn k (inp w1 fd)))
                      (set_mem (store_bytes (mem w1) buf
                                  (firstn (Z.to_nat (chunk ev count)) (inp w1 fd))) w1)))
               else (-1, log (c_read fd count (-1)) (set_errno EBADF w1))) =
              (Z.of_nat k,
                 log (c_read fd count (Z.of_nat k))
                   (set_inp (upd (inp w1) fd (skipn k (inp w1 fd)))
                      (set_mem (store_bytes (mem w1) buf (firstn k (inp w1 fd))) w1)))).
  { rewrite Ho. subst k. now rewrite firstn_length_firstn. }
  destruct ev as [[e|j|m]|]; [exfalso; eapply Hnf; reflexivity | | |];
    fold k; rewrite E;
    (destruct (Z.of_nat k =? -1) eqn:E1; [apply Z.eqb_eq in E1; lia|]);
    cbn [negb]; unfold ret; rewrite to_size_t_small by lia; reflexivity.
Qed.

Lemma Read_quiet (f : nat) (fd buf count : Z) :
  forall w,
    is_open fd w = true -> quiet (script w) = true ->
    (length (script w) < f)%nat -> 0 <= count < SIZE_MOD ->
    exists k w',
      Read f fd buf count w = Ret (Z.of_nat k) w' /\
      (k <= Z.to_nat count)%nat /\ (k <= length (inp w fd))%nat /\
      (1 <= count -> inp w fd <> [] -> (1 <= k)%nat) /\
      mem w' = store_bytes (mem w) buf (firstn k (inp w fd)) /\
      inp w' = upd (inp w) fd (skipn k (inp w fd)) /\
      out w' = out w /\ fdtab w' = fdtab w /\
      quiet (script w') = true /\
      (length (script w') <= length (script w))%nat.
Proof.
  induction f as [|f IH]; intros w Ho Hq Hf Hc; [inversion Hf|].
  assert (Served : forall ev w1,
             next_event w = (ev, w1) -> (forall e, ev <> Some (Fail e)) ->
             mem w1 = mem w -> inp w1 = inp w -> out w1 = out w -> fdtab w1 = fdtab w ->
             quiet (script w1) = true -> (length (script w1) <= length (script w))%nat ->
             exists k w',
               Read (S f) fd buf count w = Ret (Z.of_nat k) w' /\
               (k <= Z.to_nat count)%nat /\ (k <= length (inp w fd))%nat /\
               (1 <= count -> inp w fd <> [] -> (1 <= k)%nat) /\
               mem w' = store_bytes (mem w) buf (firstn k (inp w fd)) /\
               inp w' = upd (inp w) fd (skipn k (inp w fd)) /\
               out w' = out w /\ fdtab w' = fdtab w /\
               quiet (script w') = true /\
               (length (script w') <= length (script w))%nat).
  { intros ev w1 Hev Hnf Hm Hi Hou Hfd Hq1 Hl1.
    assert (Ho1 : is_open fd w1 = true) by (unfold is_open in *; now rewrite Hfd).
    eexists. eexists. split; [apply (Read_served f fd buf count w ev w1 Hev Hnf Ho1 Hc)|].
    cbn [mem inp out fdtab script log set_inp set_mem set_trace].
    rewrite Hm, Hi, Hou, Hfd. rewrite !length_firstn.
    pose proof (chunk_le ev count ltac:(lia)). pose proof (chunk_pos ev count).
    conjs; auto; try lia.
    intros H1 Hne. destruct (inp w fd); [congruence|]. cbn [length]. lia. }
  unfold next_event in Served.
  destruct (script w) as [|ev sc] eqn:Hsc.
  - apply (Served None w); rewrite ?Hsc; auto; try (intros; discriminate).
  - cbn [quiet forallb] in Hq. apply andb_true_iff in Hq as [He Hq].
    destruct ev as [e|j|m]; cbn [quiet_event] in He.
    + rewrite (failed_read w e sc Hsc), He.
      destruct (IH (log (c_read fd count (-1)) (set_errno (Zpos e) (set_script sc w))))
        as (k & w' & HR & H1 & H2 & H3 & H4 & H5 & H6 & H7 & H8 & H9);
        try assumption; try (cbn in *; lia).
      exists k, w'. cbn in H2, H3, H4, H5, H6, H7, H9. cbn [length].
      conjs; auto; lia.
    + apply (Served (Some (Short j)) (set_script sc w)); auto; try (intros; discriminate).
      cbn. lia.
    + apply (Served (Some (Ready m)) (set_script sc w)); auto; try (intros; discriminate).
      cbn. lia.
Qed.

Lemma reads_loop_quiet (F : nat) (socket : Z) :
  forall w p n size,
    is_open socket w = true -> quiet (script w) = true ->
    0 <= n <= size -> size < SIZE_MOD ->
    (length (script w) + Z.to_nat (size - n) < F)%nat ->
    let k := line_length (Z.to_nat (size - n)) (inp w socket) in
    exists w',
      Server.reads_loop F socket p n size w = Ret (p + Z.of_nat k, n + Z.of_nat k) w' /\
      load_bytes (mem w') p k = firstn k (inp w socket) /\
      (forall x, x < p \/ p + Z.of_nat k <= x -> mem w' x = mem w x) /\
      inp w' socket = skipn k (inp w socket) /\
      (forall fd', fd' <> socket -> inp w' fd' = inp w fd') /\
      out w' = out w /\ fdtab w' = fdtab w /\
      quiet (script w') = true /\
      (length (script w') <= length (script w))%nat.
Proof.
  induction F as [|F IH]; intros w p n size Ho Hq Hn Hs HF k; [inversion HF|].
  cbn [Server.reads_loop].
  destruct (n <? size) eqn:E.
  - apply Z.ltb_lt in E.
    destruct (Read_quiet F socket p 1 w Ho Hq ltac:(lia) ltac:(unfold SIZE_MOD; lia))
      as (k1 & w1 & HR & Hk1 & Hk1' & Hk1'' & Hmem & Hinp & Hout & Hfd & Hq1 & Hl1).
    unfold bind. rewrite HR.
    assert (Hlim : Z.to_nat (size - n) = S (Z.to_nat (size - (n + 1)))) by lia.
    subst k. rewrite Hlim.
    destruct (inp w socket) as [|b rest] eqn:Hdata.
    + (* end of stream *)
      assert (k1 = 0%nat) by (cbn [length] in Hk1'; lia). subst k1.
      cbn [Z.of_nat Z.eqb line_length]. unfold ret. rewrite !Z.add_0_r.
      exists w1. cbn [firstn store_bytes skipn] in Hmem, Hinp.
      conjs; auto.
      * intros x _. now rewrite Hmem.
      * rewrite Hinp, upd_same. reflexivity.
      * intros fd' Hne. rewrite Hinp. now apply upd_other.
    + assert (k1 = 1%nat) by (specialize (Hk1'' ltac:(lia) ltac:(discriminate)); lia).
      subst k1. cbn [firstn store_bytes skipn] in Hmem, Hinp.
      change (Z.of_nat 1 =? 0) with false. cbv iota.
      unfold peek. rewrite Hmem. unfold store at 1. rewrite Z.eqb_refl.
      rewrite (Z.mod_small (n + 1)) by lia.
      cbn [line_length].
      destruct (b =? 10) eqn:Eb.
      * (* the newline ends the line *)
        unfold ret. exists w1. conjs; auto.
        -- cbn [load_bytes firstn]. rewrite Hmem. unfold store. now rewrite Z.eqb_refl.
        -- intros x Hx. rewrite Hmem. unfold store.
           destruct (x =? p) eqn:Ex; [apply Z.eqb_eq in Ex; lia | reflexivity].
        -- rewrite Hinp, upd_same. reflexivity.
        -- intros fd' Hne. rewrite Hinp. now apply upd_other.
      * assert (Ho1 : is_open socket w1 = true) by (unfold is_open in *; now rewrite Hfd).
        destruct (IH w1 (p + 1) (n + 1) size Ho1 Hq1 ltac:(lia) Hs ltac:(lia))
          as (w' & HL & Hld & Hout' & Hinp' & Hoth & Hou' & Hfd' & Hq' & Hl').
        assert (Hrest : inp w1 socket = rest) by (rewrite Hinp; apply upd_same).
        rewrite Hrest in HL, Hld, Hout', Hinp'.
        set (k' := line_length (Z.to_nat (size - (n + 1))) rest) in *.
        exists w'.
        replace (p + Z.of_nat (S k')) with (p + 1 + Z.of_nat k') by lia.
        replace (n + Z.of_nat (S k')) with (n + 1 + Z.of_nat k') by lia.
        conjs; auto; try congruence; try lia.
        -- cbn [load_bytes firstn]. rewrite Hld. f_equal.
           rewrite Hout' by lia. rewrite Hmem. unfold store. now rewrite Z.eqb_refl.
        -- intros x Hx. rewrite Hout' by lia. rewrite Hmem. unfold store.
           destruct (x =? p) eqn:Ex; [apply Z.eqb_eq in Ex; lia | reflexivity].
        -- intros fd' Hne. rewrite (Hoth fd' Hne), Hinp. now apply upd_other.
  - apply Z.ltb_ge in E. assert (n = size) by lia. subst n.
    subst k. rewrite Z.sub_diag. cbn [Z.to_nat line_length Z.of_nat]. rewrite !Z.add_0_r.
    exists w. unfold ret. conjs; auto.
Qed.

(** What [reads] does with a non-null buffer of capacity [size >= 1] under
    a quiet script: it takes the first line of the stream, [line_length]
    bytes, into the buffer, puts a zero byte behind them, and returns their
    number. *)
Lemma reads_line (fuel : nat) (socket s size : Z) (w : World) :
  s <> NULL -> is_open socket w = true -> quiet (script w) = true ->
  1 <= size < SIZE_MOD ->
  (length (script w) + Z.to_nat (size - 1) < fuel)%nat ->
  let k := line_length (Z.to_nat (size - 1)) (inp w socket) in
  exists w',
    Server.reads fuel socket s size w = Ret (Z.of_nat k) w' /\
    load_bytes (mem w') s k = firstn k (inp w socket) /\
    mem w' (s + Z.of_nat k) = 0 /\
    (forall x, x < s \/ s + Z.of_nat k < x -> mem w' x = mem w x) /\
    inp w' socket = skipn k (inp w socket) /\
    (forall fd', fd' <> socket -> inp w' fd' = inp w fd') /\
    out w' = out w.
Proof.
  intros Hs Ho Hq Hsz Hf k.
  unfold Server.reads.
  apply Z.eqb_neq in Hs. rewrite Hs.
  destruct (size =? 0) eqn:E; [apply Z.eqb_eq in E; lia|].
  rewrite size_sub_small by lia.
  destruct (reads_loop_quiet fuel socket w s 0 (size - 1) Ho Hq ltac:(lia) ltac:(lia)
              ltac:(rewrite Z.sub_0_r; exact Hf))
    as (w' & HL & Hld & Hout & Hinp & Hoth & Hou & _).
  rewrite Z.sub_0_r in HL, Hld, Hout, Hinp. fold k in HL, Hld, Hout, Hinp.
  unfold bind at 1 2. unfold ret at 1. unfold bind. rewrite HL.
  cbn [fst snd]. unfold poke, ret. rewrite Z.add_0_l.
  eexists. split; [reflexivity|]. cbn [mem inp out set_mem].
  conjs; auto.
  - rewrite <- Hld. apply load_bytes_ext. intros x Hx. unfold store.
    destruct (x =? s + Z.of_nat k) eqn:Ex; [apply Z.eqb_eq in Ex; lia | reflexivity].
  - unfold store. now rewrite Z.eqb_refl.
  - intros x Hx. unfold store.
    destruct (x =? s + Z.of_nat k) eqn:Ex; [apply Z.eqb_eq in Ex; lia|].
    apply Hout. lia.
Qed.

Lemma line_length_no_newline (pre post : list Z) :
  ~ In 10 pre -> line_length (length pre) (pre ++ post) = length pre.
Proof.
  induction pre as [|b pre IH]; intros H; [reflexivity|].
  cbn [length app line_length].
  destruct (b =? 10) eqn:E; [apply Z.eqb_eq in E; subst b; exfalso; apply H; now left|].
  f_equal. apply IH. intros Hin. apply H. now right.
Qed.

Lemma line_length_newline (pre post : list Z) :
  forall limit, ~ In 10 pre -> (length pre < limit)%nat ->
    line_length limit (pre ++ 10 :: post) = S (length pre).
Proof.
  induction pre as [|b pre IH]; intros limit H Hl; (destruct limit as [|l]; [inversion Hl|]).
  - reflexivity.
  - cbn [length app line_length].
    destruct (b =? 10) eqn:E; [apply Z.eqb_eq in E; subst b; exfalso; apply H; now left|].
    f_equal. apply IH; [intros Hin; apply H; now right | cbn [length] in Hl; lia].
Qed.

Lemma line_length_eof (data : list Z) :
  forall limit, ~ In 10 data -> (length data <= limit)%nat ->
    line_length limit data = length data.
Proof.
  induction data as [|b data IH]; intros limit H Hl; [now destruct limit|].
  destruct limit as [|l]; [inversion Hl|].
  cbn [length line_length].
  destruct (b =? 10) eqn:E; [apply Z.eqb_eq in E; subst b; exfalso; apply H; now left|].
  f_equal. apply IH; [intros Hin; apply H; now right | cbn [length] in Hl; lia].
Qed.

Lemma firstn_length_app {A} (pre post : list A) : firstn (length pre) (pre ++ post) = pre.
Proof. induction pre as [|a pre IH]; cbn; [now destruct post | now rewrite IH]. Qed.

Lemma skipn_length_app {A} (pre post : list A) : skipn (length pre) (pre ++ post) = post.
Proof. induction pre as [|a pre IH]; cbn; auto. Qed.

Lemma firstn_line {A} (pre post : list A) (nl : A) :
  firstn (S (length pre)) (pre ++ nl :: post) = pre ++ [nl].
Proof. induction pre as [|a pre IH]; [reflexivity|]. cbn [length app]. rewrite firstn_cons. now rewrite IH. Qed.

Lemma skipn_line {A} (pre post : list A) (nl : A) :
  skipn (S (length pre)) (pre ++ nl :: post) = post.
Proof. induction pre as [|a pre IH]; [reflexivity|]. cbn [length app]. rewrite skipn_cons. exact IH. Qed.

(** C3. [reads] with a non-null buffer.  Capacity 0: it returns 0 and the
    world is as before.  Capacity >= 1, a stream whose first
    [capacity - 1] bytes [pre] hold no newline: it returns [capacity - 1],
    the buffer holds [pre] and then a zero byte at index [capacity - 1], no
    byte outside the [capacity] bytes of the buffer has changed, and the
    bytes [post] behind [pre] are still to be read from the stream. *)
Theorem reads_bounded :
  forall (fuel : nat) (socket s : Z) (w : World),
    s <> NULL ->
    Server.reads fuel socket s 0 w = Ret 0 w /\
    (forall (capacity : Z) (pre post : list Z),
        is_open socket w = true -> quiet (script w) = true ->
        1 <= capacity < SIZE_MOD ->
        inp w socket = pre ++ post ->
        Z.of_nat (length pre) = capacity - 1 ->
        ~ In 10 pre ->
        (length (script w) + Z.to_nat capacity < fuel)%nat ->
        exists w',
          Server.reads fuel socket s capacity w = Ret (capacity - 1) w' /\
          load_bytes (mem w') s (length pre) = pre /\
          mem w' (s + (capacity - 1)) = 0 /\
          (forall x, x < s \/ s + capacity <= x -> mem w' x = mem w x) /\
          inp w' socket = post).
Proof.
  intros fuel socket s w Hs. split.
  - unfold Server.reads. apply Z.eqb_neq in Hs. rewrite Hs. reflexivity.
  - intros capacity pre post Ho Hq Hc Hdata Hlen Hnl Hf.
    destruct (reads_line fuel socket s capacity w Hs Ho Hq Hc ltac:(lia))
      as (w' & HR & Hld & Hz & Hout & Hinp & _).
    replace (Z.to_nat (capacity - 1)) with (length pre) in * by lia.
    rewrite Hdata, line_length_no_newline in * by assumption.
    rewrite firstn_length_app in Hld. rewrite skipn_length_app in Hinp.
    rewrite Hlen in HR, Hz, Hout.
    exists w'. conjs; auto. intros x Hx. apply Hout. lia.
Qed.

Lemma reads_bounded_witness :
  Server.reads 10 3 200 0 w_line = Ret 0 w_line /\
  exists w',
    Server.reads 10 3 200 3 w_line = Ret (3 - 1) w' /\
    load_bytes (mem w') 200 (length [104; 105]) = [104; 105] /\
    mem w' (200 + (3 - 1)) = 0 /\
    (forall x, x < 200 \/ 200 + 3 <= x -> mem w' x = mem w_line x) /\
    inp w' 3 = [10; 106].
Proof.
  destruct (reads_bounded 10 3 200 w_line ltac:(discriminate)) as [H0 H1].
  split; [exact H0|].
  apply (H1 3 [104; 105] [10; 106]).
  - reflexivity.
  - reflexivity.
  - unfold SIZE_MOD. lia.
  - reflexivity.
  - reflexivity.
  - intros [H|[H|[]]]; discriminate.
  - cbn. lia.
Defined.

(** C4. [reads] with a non-null buffer of capacity >= 1, a stream that
    starts with [pre], free of newlines, then a newline, with
    [length pre + 1 <= capacity - 1]: it returns [length pre + 1], the
    buffer holds [pre], the newline, and a zero byte right behind it, and
    what followed the newline is still to be read. *)
Theorem reads_newline :
  forall (fuel : nat) (socket s capacity : Z) (w : World) (pre post : list Z),
    s <> NULL -> is_open socket w = true -> quiet (script w) = true ->
    1 <= capacity < SIZE_MOD ->
    inp w socket = pre ++ 10 :: post ->
    ~ In 10 pre ->
    Z.of_nat (length pre) + 1 <= capacity - 1 ->
    (length (script w) + Z.to_nat capacity < fuel)%nat ->
    exists w',
      Server.reads fuel socket s capacity w = Ret (Z.of_nat (length pre) + 1) w' /\
      load_bytes (mem w') s (S (length pre)) = pre ++ [10] /\
      mem w' (s + (Z.of_nat (length pre) + 1)) = 0 /\
      (forall x, x < s \/ s + capacity <= x -> mem w' x = mem w x) /\
      inp w' socket = post.
Proof.
  intros fuel socket s capacity w pre post Hs Ho Hq Hc Hdata Hnl Hlen Hf.
  destruct (reads_line fuel socket s capacity w Hs Ho Hq Hc ltac:(lia))
    as (w' & HR & Hld & Hz & Hout & Hinp & _).
  rewrite Hdata, line_length_newline in * by (assumption || lia).
  rewrite firstn_line in Hld. rewrite skipn_line in Hinp.
  replace (Z.of_nat (S (length pre))) with (Z.of_nat (length pre) + 1) in * by lia.
  exists w'. conjs; auto. intros x Hx. apply Hout. lia.
Qed.

Lemma reads_newline_witness :
  exists w',
    Server.reads 300 3 200 256 w_line = Ret (Z.of_nat (length [104; 105]) + 1) w' /\
    load_bytes (mem w') 200 (S (length [104; 105])) = [104; 105] ++ [10] /\
    mem w' (200 + (Z.of_nat (length [104; 105]) + 1)) = 0 /\
    (forall x, x < 200 \/ 200 + 256 <= x -> mem w' x = mem w_line x) /\
    inp w' 3 = [106].
Proof.
  apply (reads_newline 300 3 200 256 w_line [104; 105] [106]).
  - discriminate.
  - reflexivity.
  - reflexivity.
  - unfold SIZE_MOD. lia.
  - reflexivity.
  - intros [H|[H|[]]]; discriminate.
  - cbn. lia.
  - cbn. lia.
Defined.

(** C5. [reads] with a non-null buffer of capacity >= 1, a stream that
    ends after the bytes [data], free of newlines and fewer than
    [capacity - 1]: it returns [length data], the buffer holds [data] and a
    zero byte right behind them (no newline is put in), and the stream is
    used up. *)
Theorem reads_end_of_stream :
  forall (fuel : nat) (socket s capacity : Z) (w : World) (data : list Z),
    s <> NULL -> is_open socket w = true -> quiet (script w) = true ->
    1 <= capacity < SIZE_MOD ->
    inp w socket = data ->
    ~ In 10 data ->
    Z.of_nat (length data) < capacity - 1 ->
    (length (script w) + Z.to_nat capacity < fuel)%nat ->
    exists w',
      Server.reads fuel socket s capacity w = Ret (Z.of_nat (length data)) w' /\
      load_bytes (mem w') s (length data) = data /\
      mem w' (s + Z.of_nat (length data)) = 0 /\
      (forall x, x < s \/ s + capacity <= x -> mem w' x = mem w x) /\
      inp w' socket = [].
Proof.
  intros fuel socket s capacity w data Hs Ho Hq Hc Hdata Hnl Hlen Hf.
  destruct (reads_line fuel socket s capacity w Hs Ho Hq Hc ltac:(lia))
    as (w' & HR & Hld & Hz & Hout & Hinp & _).
  rewrite Hdata, line_length_eof in * by (assumption || lia).
  rewrite firstn_all in Hld. rewrite skipn_all in Hinp.
  exists w'. conjs; auto. intros x Hx. apply Hout. lia.
Qed.

Lemma reads_end_of_stream_witness :
  exists w',
    Server.reads 300 3 200 256 w_eof = Ret (Z.of_nat (length [104; 105])) w' /\
    load_bytes (mem w') 200 (length [104; 105]) = [104; 105] /\
    mem w' (200 + Z.of_nat (length [104; 105])) = 0 /\
    (forall x, x < 200 \/ 200 + 256 <= x -> mem w' x = mem w_eof x) /\
    inp w' 3 = [].
Proof.
  apply (reads_end_of_stream 300 3 200 256 w_eof [104; 105]).
  - discriminate.
  - reflexivity.
  - reflexivity.
  - unfold SIZE_MOD. lia.
  - reflexivity.
  - intros [H|[H|[]]]; discriminate.
  - cbn. lia.
  - cbn. lia.
Defined.

(** ** The log of calls *)

Ltac case_sys w :=
  unfold sys_read, sys_write, sys_close, sys_accept, sys_select, sys_pthread_create,
    next_event;
  destruct (script w) as [|[?e|?k|?m] ?sc];
  try match goal with |- context [if ?b then _ else _] => destruct b end;
  try reflexivity.

Lemma sys_read_trace (fd buf count : Z) (w : World) :
  trace (snd (sys_read fd buf count w)) =
  c_read fd count (fst (sys_read fd buf count w)) :: trace w.
Proof. case_sys w. Qed.

Lemma sys_write_trace (fd buf count : Z) (w : World) :
  trace (snd (sys_write fd buf count w)) =
  c_write fd buf count (fst (sys_write fd buf count w)) :: trace w.
Proof. case_sys w. Qed.



Lemma sys_select_trace (n readfds : Z) (w : World) :
  trace (snd (sys_select n readfds w)) =
  c_select n readfds (fst (fst (sys_select n readfds w))) :: trace w.
Proof. case_sys w. Qed.




Lemma new_calls_ret {A} (p : call -> bool) (a : A) (w : World) : new_calls p w (ret a w).
Proof. exists []. split; reflexivity. Qed.

Lemma new_calls_error {A} (p : call -> bool) (msg : string) (w : World) :
  new_calls p w (@error A msg w).
Proof. exists []. split; reflexivity. Qed.

Lemma new_calls_step {A} (p : call -> bool) (c : call) (w w1 : World) (o : outcome A) :
  trace w1 = c :: trace w -> p c = true -> new_calls p w1 o -> new_calls p w o.
Proof.
  intros Ht Hp. destruct o; cbn; auto; intros (new & Hn & Hf);
    exists (new ++ [c]); rewrite Hn, Ht, <- app_assoc;
    (split; [reflexivity | rewrite forallb_app, Hf; cbn; now rewrite Hp]).
Qed.

Lemma new_calls_bind {A B} (p : call -> bool) (m : M A) (k : A -> M B) (w : World) :
  new_calls p w (m w) ->
  (forall a w1, new_calls p w1 (k a w1)) ->
  new_calls p w (bind m k w).
Proof.
  intros Hm Hk. unfold bind. destruct (m w) as [a w1|msg w1|]; cbn in *; auto.
  destruct Hm as (new1 & Hn1 & Hf1).
  specialize (Hk a w1). destruct (k a w1) as [b w2|msg w2|]; cbn in *; auto;
    destruct Hk as (new2 & Hn2 & Hf2);
    exists (new2 ++ new1); rewrite Hn2, Hn1, app_assoc;
    (split; [reflexivity | now rewrite forallb_app, Hf1, Hf2]).
Qed.

Lemma new_calls_weaken {A} (p q : call -> bool) (w : World) (o : outcome A) :
  (forall c, p c = true -> q c = true) -> new_calls p w o -> new_calls q w o.
Proof.
  intros H. destruct o; cbn; auto; intros (new & Hn & Hf); exists new;
    (split; [exact Hn|]); rewrite forallb_forall in *; auto.
Qed.

Lemma Read_calls (f : nat) (fd buf count : Z) :
  forall w, new_calls (is_read_on fd) w (Read f fd buf count w).
Proof.
  induction f as [|f IH]; intros w; [exact I|].
  cbn [Read]. unfold bind, lift.
  pose proof (sys_read_trace fd buf count w) as Ht.
  destruct (sys_read fd buf count w) as [rc w1]. cbn [fst snd] in Ht.
  apply (new_calls_step _ _ _ _ _ Ht); [cbn; apply Z.eqb_refl|].
  destruct (negb (rc =? -1)); [apply new_calls_ret|].
  unfold get_errno. destruct (errno w1 =? EINTR); [apply IH | apply new_calls_error].
Qed.

Lemma Write_calls (f : nat) (fd buf count : Z) :
  forall w, new_calls (is_write_on fd) w (Write f fd buf count w).
Proof.
  induction f as [|f IH]; intros w; [exact I|].
  cbn [Write]. unfold bind, lift.
  pose proof (sys_write_trace fd buf count w) as Ht.
  destruct (sys_write fd buf count w) as [rc w1]. cbn [fst snd] in Ht.
  apply (new_calls_step _ _ _ _ _ Ht); [cbn; apply Z.eqb_refl|].
  destruct (negb (rc =? -1)); [apply new_calls_ret|].
  unfold get_errno. destruct (errno w1 =? EINTR); [apply IH | apply new_calls_error].
Qed.

(** ** The readiness wait *)

Lemma serving_quiet (sc : list os_event) : quiet sc = true -> quiet (snd (serving sc)) = true.
Proof.
  induction sc as [|[e|k|m] sc IH]; cbn [serving quiet forallb snd]; auto;
    intros H; apply andb_true_iff in H as [_ H]; auto.
Qed.

Lemma serving_length (sc : list os_event) : (length (snd (serving sc)) <= length sc)%nat.
Proof. induction sc as [|[e|k|m] sc IH]; cbn [serving snd length]; lia. Qed.

Lemma Select_quiet (f : nat) (n : Z) :
  forall readfds w,
    quiet (script w) = true -> (length (script w) < f)%nat ->
    all_open n readfds w = true ->
    let ready := reported (fst (serving (script w))) (Z.land readfds (Z.ones n)) in
    exists w',
      Client.Select f n readfds w = Ret (popcount ready, ready) w' /\
      script w' = snd (serving (script w)) /\
      mem w' = mem w /\ inp w' = inp w /\ out w' = out w /\ fdtab w' = fdtab w /\
      exists sel, trace w' = sel ++ trace w /\ forallb is_select sel = true.
Proof.
  induction f as [|f IH]; intros readfds w Hq Hf Ho ready; [inversion Hf|].
  assert (Served : forall ev w1,
             next_event w = (ev, w1) -> (forall e, ev <> Some (Fail e)) ->
             all_open n readfds w1 = true ->
             Client.Select (S f) n readfds w =
             Ret (popcount (reported ev (Z.land readfds (Z.ones n))),
                  reported ev (Z.land readfds (Z.ones n)))
                 (log (c_select n readfds (popcount (reported ev (Z.land readfds (Z.ones n))))) w1)).
  { intros ev w1 Hev Hnf Ho1. cbn [Client.Select]. unfold bind, lift, sys_select.
    rewrite Hev.
    assert (E : (popcount (reported ev (Z.land readfds (Z.ones n))) =? -1) = false).
    { apply Z.eqb_neq. pose proof (popcount_nonneg (reported ev (Z.land readfds (Z.ones n)))). lia. }
    destruct ev as [[e|j|m]|]; [exfalso; eapply Hnf; reflexivity | | |];
      rewrite Ho1; cbn [fst snd]; rewrite E; reflexivity. }
  unfold next_event in Served. subst ready.
  destruct (script w) as [|ev sc] eqn:Hsc.
  - eexists. split; [apply (Served None w); auto; intros; discriminate|].
    cbn. rewrite Hsc. conjs; auto. exists [c_select n readfds (popcount (Z.land readfds (Z.ones n)))].
    split; reflexivity.
  - cbn [quiet forallb] in Hq. apply andb_true_iff in Hq as [He Hq].
    destruct ev as [e|j|m]; cbn [quiet_event] in He.
    + rewrite (failed_select w e sc Hsc), He. cbn [serving fst snd].
      destruct (IH readfds (log (c_select n readfds (-1)) (set_errno (Zpos e) (set_script sc w))))
        as (w' & HS & H1 & H2 & H3 & H4 & H5 & sel & H6 & H7);
        try assumption; try (cbn in *; lia).
      exists w'. cbn in HS, H1, H2, H3, H4, H5, H6. conjs; auto.
      exists (sel ++ [c_select n readfds (-1)]). rewrite H6, <- app_assoc.
      split; [reflexivity | now rewrite forallb_app, H7].
    + eexists. split; [apply (Served (Some (Short j)) (set_script sc w)); auto; intros; discriminate|].
      cbn. conjs; auto. eexists [_]. split; reflexivity.
    + eexists. split; [apply (Served (Some (Ready m)) (set_script sc w)); auto; intros; discriminate|].
      cbn. conjs; auto. eexists [_]. split; reflexivity.
Qed.

Lemma testbit_one (k : Z) : Z.testbit 1 k = (k =? 0).
Proof. destruct k; reflexivity. Qed.

Lemma testbit_FD_SET (fd set i : Z) :
  0 <= fd -> 0 <= i -> Z.testbit (FD_SET fd set) i = Z.testbit set i || (i =? fd).
Proof.
  intros Hfd Hi. unfold FD_SET. rewrite Z.lor_spec, Z.shiftl_spec by exact Hi.
  rewrite testbit_one. f_equal.
  destruct (i - fd =? 0) eqn:E1, (i =? fd) eqn:E2; try reflexivity;
    rewrite ?Z.eqb_eq, ?Z.eqb_neq in *; lia.
Qed.

Lemma testbit_watched (socket i : Z) :
  0 <= socket -> 0 <= i ->
  Z.testbit (FD_SET socket (FD_SET STDIN_FILENO FD_ZERO)) i =
  (i =? STDIN_FILENO) || (i =? socket).
Proof.
  intros Hs Hi. rewrite !testbit_FD_SET by (unfold STDIN_FILENO; lia).
  unfold FD_ZERO. now rewrite Z.bits_0.
Qed.

Lemma watched_all_open (socket : Z) (w : World) :
  0 <= socket -> is_open STDIN_FILENO w = true -> is_open socket w = true ->
  all_open (socket + 1) (FD_SET socket (FD_SET STDIN_FILENO FD_ZERO)) w = true.
Proof.
  intros Hs H0 H1. unfold all_open. apply forallb_forall. intros i _.
  rewrite testbit_watched by lia.
  destruct (Z.of_nat i =? STDIN_FILENO) eqn:E0.
  - apply Z.eqb_eq in E0. rewrite E0, H0. reflexivity.
  - destruct (Z.of_nat i =? socket) eqn:E1; [|reflexivity].
    apply Z.eqb_eq in E1. rewrite E1, H1. reflexivity.
Qed.

Lemma both_ready_bits (sc : list os_event) (socket : Z) :
  0 <= socket -> both_ready sc socket = true ->
  let ready := reported (fst (serving sc))
                 (Z.land (FD_SET socket (FD_SET STDIN_FILENO FD_ZERO)) (Z.ones (socket + 1))) in
  FD_ISSET STDIN_FILENO ready = true /\ FD_ISSET socket ready = true.
Proof.
  intros Hs Hb ready.
  assert (W : forall i, 0 <= i <= socket -> (i = STDIN_FILENO \/ i = socket) ->
                        Z.testbit (Z.land (FD_SET socket (FD_SET STDIN_FILENO FD_ZERO))
                                          (Z.ones (socket + 1))) i = true).
  { intros i Hi Hor. rewrite Z.land_spec, testbit_watched by lia.
    rewrite Z.testbit_ones_nonneg by lia.
    replace (i <? socket + 1) with true by (symmetry; apply Z.ltb_lt; lia).
    rewrite andb_true_r. destruct Hor as [->| ->]; rewrite Z.eqb_refl; auto using orb_true_r. }
  unfold both_ready in Hb. subst ready. unfold FD_ISSET, reported.
  destruct (fst (serving sc)) as [[e|k|m]|];
    try (split; apply W; unfold STDIN_FILENO; auto; lia).
  apply andb_true_iff in Hb as [Hb0 Hb1].
  rewrite !Z.land_spec, Hb0, Hb1, !andb_true_r.
  rewrite <- !Z.land_spec. split; apply W; unfold STDIN_FILENO; auto; lia.
Qed.

(** ** The loop of the client *)

Lemma new_calls_get_errno (p : call -> bool) (w : World) : new_calls p w (get_errno w).
Proof. exists []. split; reflexivity. Qed.

Lemma new_calls_put_errno (p : call -> bool) (e : Z) (w : World) :
  new_calls p w (put_errno e w).
Proof. exists []. split; reflexivity. Qed.

Lemma client_writen_loop_calls (F : nat) (socket : Z) :
  forall p n w, new_calls (is_write_on socket) w (Client.writen_loop F socket p n w).
Proof.
  induction F as [|F IH]; intros p n w; [exact I|].
  cbn [Client.writen_loop]. destruct (n =? 0); [apply new_calls_ret|].
  apply new_calls_bind; [apply Write_calls | intros; apply IH].
Qed.

Lemma client_writen_calls (fuel : nat) (socket buf count : Z) (w : World) :
  new_calls (is_write_on socket) w (Client.writen fuel socket buf count w).
Proof.
  unfold Client.writen. apply new_calls_bind.
  - destruct (buf =? NULL); [|apply new_calls_ret].
    apply new_calls_bind; [apply new_calls_put_errno | intros; apply new_calls_error].
  - intros _ w1. apply new_calls_bind; [apply client_writen_loop_calls|].
    intros; apply new_calls_ret.
Qed.

Lemma Read_any (f : nat) (fd buf count : Z) (w : World) :
  new_calls any_call w (Read f fd buf count w).
Proof. eapply new_calls_weaken; [|apply Read_calls]. reflexivity. Qed.

Lemma Write_any (f : nat) (fd buf count : Z) (w : World) :
  new_calls any_call w (Write f fd buf count w).
Proof. eapply new_calls_weaken; [|apply Write_calls]. reflexivity. Qed.

Lemma client_writen_any (fuel : nat) (socket buf count : Z) (w : World) :
  new_calls any_call w (Client.writen fuel socket buf count w).
Proof. eapply new_calls_weaken; [|apply client_writen_calls]. reflexivity. Qed.

Ltac calls_auto :=
  repeat first
    [ apply new_calls_ret | apply new_calls_error | apply new_calls_get_errno
    | apply new_calls_put_errno
    | apply Read_any | apply Write_any | apply client_writen_any
    | apply new_calls_bind; [|intros ? ?]
    | match goal with |- new_calls _ _ ((if ?b then _ else _) _) => destruct b end
    | progress cbv zeta ].

Lemma bind_assoc {A B C} (m : M A) (k1 : A -> M B) (k2 : B -> M C) (w : World) :
  bind (bind m k1) k2 w = bind m (fun a => bind (k1 a) k2) w.
Proof. unfold bind. destruct (m w); reflexivity. Qed.

(** Whatever follows, the first call of [Read] is a [read] of its
    descriptor. *)
Lemma Read_first_call {B} (f : nat) (fd buf count : Z) (k : Z -> M B) (w : World) :
  (forall a x, new_calls any_call x (k a x)) ->
  match bind (Read (S f) fd buf count) k w with
  | Ret _ w' | Exit _ w' =>
      exists later rc, trace w' = later ++ c_read fd count rc :: trace w
  | OutOfFuel => True
  end.
Proof.
  intros Hk.
  assert (G : new_calls any_call (snd (sys_read fd buf count w))
                (bind (if negb (fst (sys_read fd buf count w) =? -1)
                       then ret (to_size_t (fst (sys_read fd buf count w)))
                       else e <- get_errno ;;
                            if e =? EINTR then Read f fd buf count else error "read()") k
                   (snd (sys_read fd buf count w)))).
  { calls_auto. apply Hk. }
  pose proof (sys_read_trace fd buf count w) as Ht.
  cbn [Read]. rewrite bind_assoc. unfold bind at 1. unfold lift.
  destruct (sys_read fd buf count w) as [rc0 w1]. cbn [fst snd] in G, Ht.
  match goal with
  | |- match ?o with _ => _ end => change (new_calls any_call w1 o) in G; destruct o
  end; cbn in G; auto; destruct G as (later & Hl & _); exists later, rc0; now rewrite Hl, Ht.
Qed.

(** What the round does once the readiness wait has reported local input:
    the first call is a read of descriptor 0. *)
Lemma round_after_select (fuel : nat) (s socket ready : Z) (w1 : World) :
  FD_ISSET STDIN_FILENO ready = true ->
  match
    (brk <-
       (if FD_ISSET STDIN_FILENO ready then
          rc <- Read (S fuel) STDIN_FILENO s MAXLINE ;;
          let rc := to_ssize_t rc in
          if rc =? 0 then ret true
          else Client.writen (S fuel) socket s (to_size_t rc) ;;; ret false
        else ret false) ;;
     if (brk : bool) then ret true
     else if FD_ISSET socket ready then
       rc <- Read (S fuel) socket s MAXLINE ;;
       let rc := to_ssize_t rc in
       if rc =? 0 then ret true
       else Write (S fuel) STDOUT_FILENO s (to_size_t rc) ;;; ret false
     else ret false) w1
  with
  | Ret _ w' | Exit _ w' =>
      exists later rc, trace w' = later ++ c_read STDIN_FILENO MAXLINE rc :: trace w1
  | OutOfFuel => True
  end.
Proof.
  intros H0. rewrite H0. rewrite bind_assoc.
  apply Read_first_call. intros a x. calls_auto.
Qed.

Lemma bind_eq {A B} (m : M A) (k : A -> M B) (w w1 : World) (a : A) :
  m w = Ret a w1 -> bind m k w = k a w1.
Proof. intros H. unfold bind. now rewrite H. Qed.

Lemma max_fd (socket : Z) :
  0 <= socket -> (if STDIN_FILENO >? socket then STDIN_FILENO else socket) + 1 = socket + 1.
Proof.
  intros H. unfold STDIN_FILENO.
  destruct (0 >? socket) eqn:E; [|reflexivity]. rewrite Z.gtb_ltb in E. apply Z.ltb_lt in E. lia.
Qed.

(** C7, connection to local output.  The readiness wait reports the
    connection; [Read] drains the chunk [104; 105] from it; the one call
    of [Write] to descriptor 1 is served one byte, and its return value is
    not looked at: byte 105 reaches no one, and the loop goes on to its
    end.  In the other direction the same short write loses nothing,
    because there the chunk goes through [writen]. *)
Theorem forward_to_stdout_short_write :
  returned (Client.do_work 5 300 3 w_remote)
    (fun _ w' =>
       inp w' 3 = [] /\
       out w' STDOUT_FILENO = [104] /\
       rev (trace w') =
         [c_select 4 9 1; c_read 3 256 2; c_write 1 300 2 1;
          c_select 4 9 2; c_read 0 256 0]) /\
  returned (Client.do_work 5 300 3 w_local)
    (fun _ w' =>
       inp w' STDIN_FILENO = [] /\
       out w' 3 = [104; 105] /\
       rev (trace w') =
         [c_select 4 9 1; c_read 0 256 2; c_write 3 300 2 1; c_write 3 301 1 1;
          c_select 4 9 2; c_read 0 256 0]).
Proof.
  split; vm_compute; conjs; reflexivity.
Qed.

(** ** The handler and its descriptor *)















(** *** [Close] *)








(** *** Up to the call of [writen] *)

Lemma private_step_refl (w : World) : private_step w w.
Proof. unfold private_step. conjs; reflexivity. Qed.

Lemma private_step_trans (w1 w2 w3 : World) :
  private_step w1 w2 -> private_step w2 w3 -> private_step w1 w3.
Proof. unfold private_step. intros H1 H2. decompose [and] H1. decompose [and] H2. conjs; congruence. Qed.

Lemma sys_rand_private (w : World) :
  private_step w (snd (sys_rand w)) /\ heap (snd (sys_rand w)) = heap w /\
  0 <= fst (sys_rand w).
Proof.
  unfold sys_rand. destruct (rands w) as [|r rs]; cbn [fst snd].
  - split; [apply private_step_refl | split; [reflexivity | lia]].
  - split; [unfold private_step; conjs; reflexivity|]. split; [reflexivity|].
    apply Z.mod_pos_bound. lia.
Qed.

Lemma fill_message_returns (F : nat) (msg : Z) :
  forall i w,
    0 <= i -> (Z.to_nat (11 - i) < F)%nat ->
    exists w', Server.fill_message F msg i w = Ret tt w' /\ private_step w w'.
Proof.
  induction F as [|F IH]; intros i w Hi HF; [inversion HF|].
  cbn [Server.fill_message]. unfold bind at 1. unfold lift at 1.
  destruct (sys_rand_private w) as (Hp1 & _ & Hr).
  destruct (sys_rand w) as [r w1]. cbn [fst snd] in Hp1, Hr.
  assert (0 <= r mod 11 < 11) by (apply Z.mod_pos_bound; lia).
  destruct (i <? r mod 11) eqn:E.
  - apply Z.ltb_lt in E. unfold bind at 1. unfold lift at 1.
    destruct (sys_rand_private w1) as (Hp2 & _ & _).
    destruct (sys_rand w1) as [r' w2]. cbn [fst snd] in Hp2.
    unfold bind at 1. unfold poke at 1.
    destruct (IH (i + 1) (set_mem (store (mem w2) (msg + i) (97 + r' mod (122 - 97 + 1))) w2))
      as (w' & HF' & Hp3); try lia.
    exists w'. split; [exact HF'|].
    eapply private_step_trans; [exact Hp1|]. eapply private_step_trans; [exact Hp2|].
    eapply private_step_trans; [|exact Hp3]. unfold private_step. conjs; reflexivity.
  - exists w1. split; [reflexivity | exact Hp1].
Qed.

(** With room on the heap and fuel for the [for] loop, [serve_client]
    gets as far as [writen], with a message that is not [NULL], in a world
    that the kernel cannot tell from the one it started in. *)
Lemma serve_client_reaches_writen (fuel : nat) (arg : Z) (w : World) :
  (12 <= fuel)%nat -> 0 < heap w -> heap w + 11 <= heap_end w ->
  exists msg w5,
    msg <> NULL /\ private_step w w5 /\
    Server.serve_client fuel arg w =
    (Server.writen fuel (load_int (mem w) arg) msg 64 ;;;
     Close fuel (load_int (mem w) arg) ;;; ret NULL) w5.
Proof.
  intros Hf Hh Hend.
  unfold Server.serve_client. unfold bind at 1. unfold peek_int.
  unfold bind at 1. unfold lift at 1, sys_free.
  unfold bind at 1. unfold lift at 1.
  destruct (sys_rand_private w) as (Hp1 & Hh1 & Hr).
  destruct (sys_rand w) as [r w1]. cbn [fst snd] in Hp1, Hh1, Hr.
  assert (0 <= r mod 11 < 11) by (apply Z.mod_pos_bound; lia).
  unfold bind at 1. unfold lift at 1, sys_malloc.
  assert (Hend1 : heap_end w1 = heap_end w) by apply Hp1.
  replace (heap w1 + 1 * (r mod 11 + 1) <=? heap_end w1) with true
    by (symmetry; apply Z.leb_le; lia).
  set (w2 := set_heap (heap w1 + 1 * (r mod 11 + 1)) w1).
  destruct (fill_message_returns fuel (heap w1) 0 w2 ltac:(lia) ltac:(cbn; lia))
    as (w3 & HF & Hp3).
  rewrite (bind_eq _ _ _ _ _ HF).
  unfold bind at 1. unfold lift at 1.
  destruct (sys_rand_private w3) as (Hp4 & _ & _).
  destruct (sys_rand w3) as [r' w4]. cbn [fst snd] in Hp4.
  unfold bind at 1. unfold poke at 1.
  exists (heap w1), (set_mem (store (mem w4) (heap w1 + r' mod 10) 0) w4).
  split; [unfold NULL; lia|]. split; [|reflexivity].
  eapply private_step_trans; [exact Hp1|].
  eapply private_step_trans; [|eapply private_step_trans; [exact Hp3|]].
  - unfold private_step, w2. conjs; reflexivity.
  - eapply private_step_trans; [exact Hp4|]. unfold private_step. conjs; reflexivity.
Qed.


(** *** The listener makes no call on a connected stream *)



(** The handler of descriptor 4 in [w_two], when the kernel is at peace:
    it returns, descriptor 4 is closed, and its log is one write and one
    close. *)
Example handler_returns :
  load_int (mem w_two) 4096 = 4 /\
  returned (Server.serve_client 70 4096 (set_script [] w_two))
    (fun _ w' =>
       is_open 4 w' = false /\
       trace w' = [c_close 4 0; c_write 4 4104 64 64]).
Proof. split; [reflexivity|]. vm_compute. split; reflexivity. Qed.


(** ** A fatal error in a handler *)

Lemma exited_stays (fuel : nat) (lsocket : Z) (msg : string) (w : World) (sched : list action) :
  proc_run fuel lsocket (Exited msg w) sched = Exited msg w.
Proof. induction sched as [|a sched IH]; [reflexivity | exact IH]. Qed.

(** C2, as the code has it.  The thread [i] of the pool is a handler.
    - Whenever the handler ends in [error], that is the end of the
      process: the process has exited with the handler's message, and no
      action of the listener or of a handler changes anything any more.
    - A fatal I/O error does end the handler in [error]: if the first
      system call it makes, the write to its connection, fails with an
      [errno] other than [EINTR], the handler ends in [error("write()")]
      with that [errno]; the threads that had not run yet are still in the
      pool and the peers of the listen queue are still waiting. *)
Theorem handler_failure_exits_process :
  forall (fuel : nat) (lsocket : Z) (w : World) (i : nat) (arg : Z),
    nth_error (pool w) i = Some arg ->
    let w0 := set_pool (remove_nth i (pool w)) w in
    (forall (msg : string) (w' : World),
        Server.serve_client fuel arg w0 = Exit msg w' ->
        proc_step fuel lsocket (Running w) (Handler i) = Exited msg w' /\
        forall sched, proc_run fuel lsocket (Exited msg w') sched = Exited msg w') /\
    (forall (e : positive) (sc : list os_event),
        script w = Fail e :: sc -> Zpos e <> EINTR ->
        0 < heap w -> heap w + 11 <= heap_end w ->
        (12 <= fuel)%nat ->
        exists w',
          Server.serve_client fuel arg w0 = Exit "write()" w' /\
          errno w' = Zpos e /\
          pool w' = remove_nth i (pool w) /\
          peers w' = peers w).
Proof.
  intros fuel lsocket w i arg Hi w0. split.
  - intros msg w' Hexit. cbn [proc_step]. rewrite Hi. fold w0. rewrite Hexit.
    split; [reflexivity | intros sched; apply exited_stays].
  - intros e sc Hsc He Hh Hend Hf.
    destruct (serve_client_reaches_writen fuel arg w0 Hf Hh Hend)
      as (msg & w5 & Hmsg & Hp & Heq).
    rewrite Heq. destruct Hp as (Hs5 & _ & _ & _ & Hpe5 & Hpo5 & _).
    unfold w0 in Hs5, Hpe5, Hpo5. cbn [script peers pool set_pool] in Hs5, Hpe5, Hpo5.
    rewrite Hsc in Hs5.
    destruct fuel as [|[|f]]; [lia | lia |].
    unfold bind at 1. unfold Server.writen.
    apply Z.eqb_neq in Hmsg. rewrite Hmsg.
    unfold bind at 1 2. unfold ret at 1.
    rewrite server_writen_loop_step by discriminate.
    rewrite (failed_write w5 e sc Hs5).
    apply Z.eqb_neq in He. rewrite He.
    eexists. split; [reflexivity|]. cbn. auto.
Qed.

Lemma handler_failure_exits_process_witness :
  exists w',
    proc_step 70 3 (Running w_two) (Handler 0) = Exited "write()" w' /\
    (forall sched, proc_run 70 3 (Exited "write()" w') sched = Exited "write()" w') /\
    errno w' = Zpos 32 /\
    pool w' = remove_nth 0 (pool w_two) /\
    peers w' = peers w_two.
Proof.
  destruct (handler_failure_exits_process 70 3 w_two 0 4096 eq_refl) as [Hall Hwrite].
  destruct (Hwrite 32%positive []) as (w' & Hexit & Herrno & Hpool & Hpeers).
  - reflexivity.
  - discriminate.
  - cbn. lia.
  - cbn. lia.
  - lia.
  - destruct (Hall _ _ Hexit) as [Hstep Hstay].
    exists w'. conjs; assumption.
Defined.

(** C2 fails: in [w_two] the handler of descriptor 4 runs first and its
    write fails with [EPIPE].  The listener and the other handler are then
    given their turn, and nothing happens: the process has exited, the
    waiting peer is still in the listen queue, the handler of descriptor 5
    is still in the pool, and descriptor 5 has received nothing.  Without
    the failure, the same schedule accepts the peer and serves descriptor
    5. *)
Lemma handler_failure_not_isolated :
  has_exited (proc_run 70 3 (Running w_two) [Handler 0; Listener; Handler 0])
    (fun msg w' =>
       msg = "write()"%string /\
       peers w' = [[1]] /\ pool w' = [4100] /\
       out w' 5 = [] /\ is_open 5 w' = true /\
       trace w' = [c_write 4 4104 64 (-1)]) /\
  running (proc_run 70 3 (Running (set_script [] w_two)) [Handler 0; Listener; Handler 0])
    (fun w' =>
       peers w' = [] /\ pool w' = [4105] /\
       length (out w' 5) = 64%nat /\ is_open 5 w' = false /\
       rev (trace w') =
         [c_write 4 4104 64 64; c_close 4 0; c_accept 3 4; c_pthread_create 4105 0;
          c_write 5 4109 64 64; c_close 5 0]).
Proof.
  split; vm_compute; conjs; reflexivity.
Qed.

(** * More of the two programs *)

(** ** What the calls do to memory *)

Lemma mem_outside_ret {A} (lo hi : Z) (a : A) (w : World) : mem_outside lo hi w (ret a w).
Proof. intros x _. reflexivity. Qed.

Lemma mem_outside_error {A} (lo hi : Z) (msg : string) (w : World) :
  mem_outside lo hi w (@error A msg w).
Proof. intros x _. reflexivity. Qed.

Lemma mem_outside_after {A} (lo hi : Z) (w w1 : World) (o : outcome A) :
  (forall x, x < lo \/ hi <= x -> mem w1 x = mem w x) ->
  mem_outside lo hi w1 o -> mem_outside lo hi w o.
Proof.
  intros H. destruct o; cbn; auto; intros H1 x Hx; rewrite H1 by exact Hx; now apply H.
Qed.

Lemma mem_outside_bind {A B} (lo hi : Z) (m : M A) (k : A -> M B) (w : World) :
  mem_outside lo hi w (m w) ->
  (forall a w1, mem_outside lo hi w1 (k a w1)) ->
  mem_outside lo hi w (bind m k w).
Proof.
  intros Hm Hk. unfold bind. destruct (m w) as [a w1|msg w1|]; cbn in *; auto.
  apply (mem_outside_after lo hi w w1); auto.
Qed.

Lemma mem_outside_widen {A} (lo hi lo' hi' : Z) (w : World) (o : outcome A) :
  lo' <= lo -> hi <= hi' -> mem_outside lo hi w o -> mem_outside lo' hi' w o.
Proof. intros Hl Hh. destruct o; cbn; auto; intros H x Hx; apply H; lia. Qed.

Lemma sys_read_mem (fd buf count : Z) (w : World) :
  forall x, x < buf \/ buf + Z.max 0 count <= x ->
            mem (snd (sys_read fd buf count w)) x = mem w x.
Proof.
  intros x Hx. unfold sys_read.
  destruct (next_event w) as [ev w1] eqn:Hev.
  assert (Hm : mem w1 = mem w).
  { unfold next_event in Hev. destruct (script w); injection Hev as _ <-; reflexivity. }
  assert (G : mem (set_mem (store_bytes (mem w1) buf
                              (firstn (Z.to_nat (chunk ev count)) (inp w1 fd))) w1) x = mem w x).
  { cbn [mem set_mem]. rewrite store_bytes_outside; [now rewrite Hm|].
    rewrite length_firstn. pose proof (chunk_le_max ev count). lia. }
  destruct ev as [[e|k|m]|]; try (cbn; now rewrite Hm);
    destruct (is_open fd w1); cbn; try exact G; now rewrite Hm.
Qed.

Lemma Read_mem (f : nat) (fd buf count : Z) :
  forall w, mem_outside buf (buf + Z.max 0 count) w (Read f fd buf count w).
Proof.
  induction f as [|f IH]; intros w; [exact I|].
  cbn [Read]. unfold bind, lift.
  pose proof (sys_read_mem fd buf count w) as Hm.
  destruct (sys_read fd buf count w) as [rc w1]. cbn [snd] in Hm.
  apply (mem_outside_after _ _ w w1 _ Hm).
  destruct (negb (rc =? -1)); [apply mem_outside_ret|].
  unfold get_errno. destruct (errno w1 =? EINTR); [apply IH | apply mem_outside_error].
Qed.

Lemma sys_write_mem (fd buf count : Z) (w : World) :
  mem (snd (sys_write fd buf count w)) = mem w.
Proof. case_sys w. Qed.

Lemma sys_select_mem (n readfds : Z) (w : World) :
  mem (snd (sys_select n readfds w)) = mem w.
Proof. case_sys w. Qed.

Lemma sys_close_mem (fd : Z) (w : World) : mem (snd (sys_close fd w)) = mem w.
Proof. case_sys w. Qed.

Lemma mem_outside_same {A} (lo hi : Z) (w w1 : World) (o : outcome A) :
  mem w1 = mem w -> mem_outside lo hi w1 o -> mem_outside lo hi w o.
Proof. intros H. apply mem_outside_after. intros x _. now rewrite H. Qed.

Lemma Write_mem (lo hi : Z) (f : nat) (fd buf count : Z) :
  forall w, mem_outside lo hi w (Write f fd buf count w).
Proof.
  induction f as [|f IH]; intros w; [exact I|].
  cbn [Write]. unfold bind, lift.
  pose proof (sys_write_mem fd buf count w) as Hm.
  destruct (sys_write fd buf count w) as [rc w1]. cbn [snd] in Hm.
  apply (mem_outside_same _ _ w w1 _ Hm).
  destruct (negb (rc =? -1)); [apply mem_outside_ret|].
  unfold get_errno. destruct (errno w1 =? EINTR); [apply IH | apply mem_outside_error].
Qed.

Lemma Select_mem (lo hi : Z) (f : nat) (n : Z) :
  forall readfds w, mem_outside lo hi w (Client.Select f n readfds w).
Proof.
  induction f as [|f IH]; intros readfds w; [exact I|].
  cbn [Client.Select]. unfold bind, lift.
  pose proof (sys_select_mem n readfds w) as Hm.
  destruct (sys_select n readfds w) as [r w1]. cbn [snd] in Hm.
  apply (mem_outside_same _ _ w w1 _ Hm).
  destruct (negb (fst r =? -1)); [apply mem_outside_ret|].
  unfold get_errno. destruct (errno w1 =? EINTR); [apply IH | apply mem_outside_error].
Qed.

Lemma client_writen_mem (lo hi : Z) (fuel : nat) (socket buf count : Z) (w : World) :
  mem_outside lo hi w (Client.writen fuel socket buf count w).
Proof.
  unfold Client.writen. apply mem_outside_bind.
  - destruct (buf =? NULL); [|apply mem_outside_ret].
    apply mem_outside_bind; [intros x _; reflexivity | intros; apply mem_outside_error].
  - intros _ w1. apply mem_outside_bind; [|intros; apply mem_outside_ret].
    revert w1 buf count. induction fuel as [|F IH]; intros w1 p n; [exact I|].
    cbn [Client.writen_loop]. destruct (n =? 0); [apply mem_outside_ret|].
    apply mem_outside_bind; [apply Write_mem | intros; apply IH].
Qed.

(** X2.  [do_work] on a descriptor that [fd_set] admits stores into its
    array [s] and nowhere else: whatever the kernel does and however long
    the loop runs, no byte outside the [MAXLINE] bytes at [s] changes. *)
Theorem do_work_stays_in_buffer :
  forall (fuel : nat) (s socket : Z) (w : World),
    0 <= socket < FD_SETSIZE ->
    mem_outside s (s + MAXLINE) w (Client.do_work fuel s socket w).
Proof.
  intros fuel s socket w _. unfold Client.do_work.
  generalize ((if STDIN_FILENO >? socket then STDIN_FILENO else socket) + 1). intros n.
  revert w. induction fuel as [|f IH]; intros w; [exact I|].
  cbn [Client.do_work_loop]. apply mem_outside_bind.
  - unfold Client.do_work_round.
    apply mem_outside_bind; [apply Select_mem|]. intros r w1. cbv zeta.
    apply mem_outside_bind.
    + destruct (FD_ISSET STDIN_FILENO (snd r)); [|apply mem_outside_ret].
      apply mem_outside_bind; [apply (Read_mem f STDIN_FILENO s MAXLINE)|]. intros rc w2.
      destruct (to_ssize_t rc =? 0); [apply mem_outside_ret|].
      apply mem_outside_bind; [apply client_writen_mem | intros; apply mem_outside_ret].
    + intros brk w2. destruct brk; [apply mem_outside_ret|].
      destruct (FD_ISSET socket (snd r)); [|apply mem_outside_ret].
      apply mem_outside_bind; [apply (Read_mem f socket s MAXLINE)|]. intros rc w3.
      destruct (to_ssize_t rc =? 0); [apply mem_outside_ret|].
      apply mem_outside_bind; [apply Write_mem | intros; apply mem_outside_ret].
  - intros brk w1. destruct brk; [apply mem_outside_ret | apply IH].
Qed.

Lemma do_work_stays_in_buffer_witness :
  mem_outside 300 (300 + MAXLINE) w_chat (Client.do_work 300 300 3 w_chat).
Proof.
  apply (do_work_stays_in_buffer 300 300 3 w_chat). unfold FD_SETSIZE. lia.
Defined.

(** ** [reads], for every stream and every script *)

Lemma reads_loop_mem (F : nat) (socket size : Z) :
  forall w p n,
    0 <= n <= size -> size < SIZE_MOD ->
    match Server.reads_loop F socket p n size w with
    | Ret r w' =>
        fst r - p = snd r - n /\ n <= snd r <= size /\
        forall x, x < p \/ p + (size - n) <= x -> mem w' x = mem w x
    | Exit _ w' => forall x, x < p \/ p + (size - n) <= x -> mem w' x = mem w x
    | OutOfFuel => True
    end.
Proof.
  induction F as [|F IH]; intros w p n Hn Hs; [exact I|].
  cbn [Server.reads_loop].
  destruct (n <? size) eqn:E.
  - apply Z.ltb_lt in E. unfold bind at 1.
    pose proof (Read_mem F socket p 1 w) as HR.
    destruct (Read F socket p 1 w) as [rc w1|msg w1|]; cbn in HR; [| |exact I].
    + destruct (rc =? 0).
      * cbn. conjs; try lia. intros x Hx. apply HR. lia.
      * unfold bind, peek. rewrite (Z.mod_small (n + 1)) by lia.
        destruct (mem w1 p =? 10).
        -- cbn. conjs; try lia. intros x Hx. apply HR. lia.
        -- specialize (IH w1 (p + 1) (n + 1) ltac:(lia) Hs).
           destruct (Server.reads_loop F socket (p + 1) (n + 1) size w1) as [r w'|msg w'|];
             [| |exact I].
           ++ destruct IH as (H1 & H2 & H3). conjs; try lia.
              intros x Hx. rewrite H3 by lia. apply HR. lia.
           ++ intros x Hx. rewrite IH by lia. apply HR. lia.
    + intros x Hx. apply HR. lia.
  - cbn. conjs; try lia; auto.
Qed.

(** X3.  [reads] keeps within its buffer for every stream, every script of the
    kernel and every fuel, also when a read fails half way: the count it
    returns is at most [size - 1], a zero byte stands at that index of the
    buffer, and no byte outside the [size] bytes at [s] has changed, at a
    return and at an exit alike. *)
Theorem reads_stays_in_buffer :
  forall (fuel : nat) (socket s size : Z) (w : World),
    0 <= size < SIZE_MOD ->
    match Server.reads fuel socket s size w with
    | Ret n w' =>
        (if size =? 0 then n = 0 else 0 <= n <= size - 1 /\ mem w' (s + n) = 0) /\
        forall x, x < s \/ s + size <= x -> mem w' x = mem w x
    | Exit _ w' => forall x, x < s \/ s + size <= x -> mem w' x = mem w x
    | OutOfFuel => True
    end.
Proof.
  intros fuel socket s size w Hs. unfold Server.reads.
  destruct (s =? NULL).
  - cbn. auto.
  - unfold bind at 1. unfold ret at 1.
    destruct (size =? 0) eqn:E0; [cbn; auto|].
    apply Z.eqb_neq in E0. rewrite size_sub_small by lia.
    pose proof (reads_loop_mem fuel socket (size - 1) w s 0 ltac:(lia) ltac:(lia)) as HL.
    unfold bind at 1.
    destruct (Server.reads_loop fuel socket s 0 (size - 1) w) as [[p' n'] w1|msg w1|];
      [| |exact I].
    + cbn [fst snd] in HL. destruct HL as (H1 & H2 & H3).
      unfold bind, poke, ret. cbn [fst snd mem set_mem]. split.
      * split; [lia|]. replace (s + n') with p' by lia. unfold store. now rewrite Z.eqb_refl.
      * intros x Hx. unfold store.
        destruct (x =? p') eqn:Ex; [apply Z.eqb_eq in Ex; lia | apply H3; lia].
    + intros x Hx. apply HL. lia.
Qed.

Lemma reads_stays_in_buffer_witness :
  match Server.reads 10 3 200 3 w_line with
  | Ret n w' =>
      (if 3 =? 0 then n = 0 else 0 <= n <= 3 - 1 /\ mem w' (200 + n) = 0) /\
      forall x, x < 200 \/ 200 + 3 <= x -> mem w' x = mem w_line x
  | Exit _ w' => forall x, x < 200 \/ 200 + 3 <= x -> mem w' x = mem w_line x
  | OutOfFuel => True
  end.
Proof. apply (reads_stays_in_buffer 10 3 200 3 w_line). unfold SIZE_MOD. lia. Defined.

Lemma line_length_bounds (limit : nat) :
  forall data, (line_length limit data <= limit)%nat /\
               (line_length limit data <= length data)%nat.
Proof.
  induction limit as [|l IH]; intros [|b rest]; cbn [line_length length]; try lia.
  destruct (b =? 10); [lia | destruct (IH rest); lia].
Qed.

(** Only the last byte of a line can be a newline. *)
Lemma line_length_inner (limit : nat) :
  forall data i, (S i < line_length limit data)%nat -> nth i data 0 <> 10.
Proof.
  induction limit as [|l IH]; intros [|b rest] i; cbn [line_length]; try lia.
  destruct (b =? 10) eqn:E; [lia|]. apply Z.eqb_neq in E.
  intros Hi. destruct i as [|i]; [exact E|]. cbn [nth]. apply IH. lia.
Qed.

(** A line shorter than the limit ends with a newline or with the stream. *)
Lemma line_length_short (limit : nat) :
  forall data, (line_length limit data < limit)%nat ->
    line_length limit data = length data \/
    exists j, line_length limit data = S j /\ nth j data 0 = 10.
Proof.
  induction limit as [|l IH]; intros data Hl; [inversion Hl|].
  destruct data as [|b rest]; [now left|].
  cbn [line_length length] in *.
  destruct (b =? 10) eqn:E.
  - right. exists 0%nat. apply Z.eqb_eq in E. auto.
  - destruct (IH rest ltac:(lia)) as [H|(j & Hj & Hn)].
    + left. now rewrite H.
    + right. exists (S j). rewrite Hj. auto.
Qed.

(** X4.  [reads] for every stream, under a quiet script: with [k] the count it
    returns, the [k] bytes of the buffer followed by what is left on the
    stream are the stream as it was (nothing is lost, nothing is read
    ahead); [k <= size - 1]; none of the bytes before the last is a
    newline; and if [k < size - 1], the line ends with a newline or the
    stream is used up. *)
Theorem reads_takes_first_line :
  forall (fuel : nat) (socket s size : Z) (w : World),
    s <> NULL -> is_open socket w = true -> quiet (script w) = true ->
    1 <= size < SIZE_MOD ->
    (length (script w) + Z.to_nat size < fuel)%nat ->
    exists (k : nat) (w' : World),
      Server.reads fuel socket s size w = Ret (Z.of_nat k) w' /\
      Z.of_nat k <= size - 1 /\
      inp w socket = load_bytes (mem w') s k ++ inp w' socket /\
      mem w' (s + Z.of_nat k) = 0 /\
      (forall i, (S i < k)%nat -> nth i (inp w socket) 0 <> 10) /\
      (Z.of_nat k < size - 1 ->
       inp w' socket = [] \/
       exists j, k = S j /\ nth j (inp w socket) 0 = 10).
Proof.
  intros fuel socket s size w Hs Ho Hq Hsz Hf.
  destruct (reads_line fuel socket s size w Hs Ho Hq Hsz ltac:(lia))
    as (w' & HR & Hld & Hz & _ & Hinp & _).
  set (k := line_length (Z.to_nat (size - 1)) (inp w socket)) in *.
  destruct (line_length_bounds (Z.to_nat (size - 1)) (inp w socket)) as [Hk1 Hk2].
  fold k in Hk1, Hk2.
  exists k, w'. conjs; auto.
  - lia.
  - rewrite Hld, Hinp. symmetry. apply firstn_skipn.
  - intros i Hi. apply (line_length_inner (Z.to_nat (size - 1))). exact Hi.
  - intros Hlt.
    destruct (line_length_short (Z.to_nat (size - 1)) (inp w socket) ltac:(fold k; lia))
      as [H|H]; fold k in H.
    + left. rewrite Hinp, H. apply skipn_all.
    + right. exact H.
Qed.

Lemma reads_takes_first_line_witness :
  exists (k : nat) (w' : World),
    Server.reads 300 3 200 256 w_line = Ret (Z.of_nat k) w' /\
    Z.of_nat k <= 256 - 1 /\
    inp w_line 3 = load_bytes (mem w') 200 k ++ inp w' 3 /\
    mem w' (200 + Z.of_nat k) = 0 /\
    (forall i, (S i < k)%nat -> nth i (inp w_line 3) 0 <> 10) /\
    (Z.of_nat k < 256 - 1 ->
     inp w' 3 = [] \/
     exists j, k = S j /\ nth j (inp w_line 3) 0 = 10).
Proof.
  apply (reads_takes_first_line 300 3 200 256 w_line).
  - discriminate.
  - reflexivity.
  - reflexivity.
  - unfold SIZE_MOD. lia.
  - cbn. lia.
Defined.

(** ** The rounds of [do_work] *)

Lemma sys_select_failed (n readfds : Z) (w : World) :
  fst (fst (sys_select n readfds w)) = -1 -> snd (fst (sys_select n readfds w)) = readfds.
Proof.
  unfold sys_select. destruct (next_event w) as [ev w1].
  destruct ev as [[e|k|m]|]; try reflexivity;
    destruct (all_open n readfds w1); try reflexivity; cbn [fst snd];
    intros H; match type of H with popcount ?z = _ => pose proof (popcount_nonneg z) end; lia.
Qed.

(** When [Select] returns, the calls it made are waits with its own
    arguments: the last one succeeded, the ones before it failed. *)
Lemma Select_shape (f : nat) (n readfds : Z) :
  forall w,
    match Client.Select f n readfds w with
    | Ret r w' =>
        fst r <> -1 /\
        exists sel, trace w' = c_select n readfds (fst r) :: sel ++ trace w /\
                    forallb (interrupted_wait n readfds) sel = true
    | _ => True
    end.
Proof.
  induction f as [|f IH]; intros w; [exact I|].
  cbn [Client.Select]. unfold bind, lift.
  pose proof (sys_select_trace n readfds w) as Ht.
  pose proof (sys_select_failed n readfds w) as Hfail.
  destruct (sys_select n readfds w) as [r w1]. cbn [fst snd] in Ht, Hfail.
  destruct (fst r =? -1) eqn:E; cbn [negb].
  - apply Z.eqb_eq in E. rewrite (Hfail E). unfold get_errno.
    destruct (errno w1 =? EINTR); [|exact I].
    specialize (IH w1). destruct (Client.Select f n readfds w1) as [r' w'|msg w'|]; auto.
    destruct IH as (Hr & sel & Hs & Hall). split; [exact Hr|].
    exists (sel ++ [c_select n readfds (fst r)]). rewrite Hs, Ht, <- app_assoc.
    split; [reflexivity|]. rewrite forallb_app, Hall. cbn.
    now rewrite !Z.eqb_refl, E.
  - apply Z.eqb_neq in E. cbn. split; [exact E|]. exists []. auto.
Qed.

Lemma reads_are_no_waits (fd : Z) (c : call) : is_read_on fd c = true -> negb (is_select c) = true.
Proof. destruct c; cbn; auto; discriminate. Qed.

Lemma writes_are_no_waits (fd : Z) (c : call) : is_write_on fd c = true -> negb (is_select c) = true.
Proof. destruct c; cbn; auto; discriminate. Qed.

(** X5.  Every round of [do_work] that completes has made exactly one
    readiness wait that succeeded: it watched descriptor 0 and the
    connection together, the waits of the round before it had the same
    arguments and failed, and every read and write of the round comes
    after it. *)
Theorem one_wait_per_round :
  forall (fuel : nat) (s socket n : Z) (w : World),
    match Client.do_work_round fuel s socket n w with
    | Ret _ w' =>
        exists later rc sel,
          trace w' = later ++ c_select n (watched socket) rc :: sel ++ trace w /\
          rc <> -1 /\
          forallb (interrupted_wait n (watched socket)) sel = true /\
          forallb (fun c => negb (is_select c)) later = true
    | _ => True
    end.
Proof.
  intros fuel s socket n w. unfold Client.do_work_round. fold (watched socket).
  unfold bind at 1.
  pose proof (Select_shape fuel n (watched socket) w) as HS.
  destruct (Client.Select fuel n (watched socket) w) as [r w1|msg w1|]; [|exact I|exact I].
  destruct HS as (Hr & sel & Hs & Hall).
  match goal with
  | |- match ?o with _ => _ end =>
      assert (G : new_calls (fun c => negb (is_select c)) w1 o)
  end.
  { apply new_calls_bind.
    - destruct (FD_ISSET STDIN_FILENO (snd r)); [|apply new_calls_ret].
      apply new_calls_bind.
      + eapply new_calls_weaken; [apply reads_are_no_waits | apply Read_calls].
      + intros rc w2. cbv zeta. destruct (to_ssize_t rc =? 0); [apply new_calls_ret|].
        apply new_calls_bind; [|intros; apply new_calls_ret].
        eapply new_calls_weaken; [apply writes_are_no_waits | apply client_writen_calls].
    - intros brk w2. destruct brk; [apply new_calls_ret|].
      destruct (FD_ISSET socket (snd r)); [|apply new_calls_ret].
      apply new_calls_bind.
      + eapply new_calls_weaken; [apply reads_are_no_waits | apply Read_calls].
      + intros rc w3. cbv zeta. destruct (to_ssize_t rc =? 0); [apply new_calls_ret|].
        apply new_calls_bind; [|intros; apply new_calls_ret].
        eapply new_calls_weaken; [apply writes_are_no_waits | apply Write_calls]. }
  match goal with
  | |- match ?o with _ => _ end => destruct o as [brk w'|msg w'|]; [|exact I|exact I]
  end.
  destruct G as (later & Hl & Hlater).
  exists later, (fst r), sel. rewrite Hl, Hs. auto.
Qed.

Lemma to_ssize_t_small (v : Z) : 0 <= v < 2 ^ 63 -> to_ssize_t v = v.
Proof.
  intros H. unfold to_ssize_t, SIZE_MOD.
  rewrite Z.mod_small by lia.
  destruct (v <? 2 ^ 63) eqn:E; [reflexivity | apply Z.ltb_ge in E; lia].
Qed.

Lemma load_store_bytes (bs : list Z) :
  forall m a, load_bytes (store_bytes m a bs) a (length bs) = bs.
Proof.
  induction bs as [|b bs IH]; intros m a; simpl; [reflexivity|].
  rewrite IH. f_equal.
  rewrite store_bytes_outside by lia.
  unfold store. now rewrite Z.eqb_refl.
Qed.

Lemma load_store_prefix (bs : list Z) :
  forall m a j, (j <= length bs)%nat ->
                load_bytes (store_bytes m a bs) a j = firstn j bs.
Proof.
  induction bs as [|b bs IH]; intros m a j Hj.
  - cbn [length] in Hj. now replace j with 0%nat by lia.
  - destruct j as [|j]; [reflexivity|].
    cbn [load_bytes store_bytes firstn]. rewrite IH by (cbn [length] in Hj; lia).
    f_equal. rewrite store_bytes_outside by lia. unfold store. now rewrite Z.eqb_refl.
Qed.

(** The first half of a round under a quiet script: [k] bytes of local
    input are drained and all of them reach the connection. *)
Lemma stdin_half (f : nat) (s socket ready : Z) (w1 : World) :
  s <> NULL -> socket <> STDIN_FILENO ->
  is_open STDIN_FILENO w1 = true -> is_open socket w1 = true ->
  quiet (script w1) = true -> (length (script w1) + 257 < f)%nat ->
  exists (k : nat) (brk : bool) (w3 : World),
    (if FD_ISSET STDIN_FILENO ready then
       rc <- Read f STDIN_FILENO s MAXLINE ;;
       let rc := to_ssize_t rc in
       if rc =? 0 then ret true
       else Client.writen f socket s (to_size_t rc) ;;; ret false
     else ret false) w1 = Ret brk w3 /\
    (k <= 256)%nat /\ (k <= length (inp w1 STDIN_FILENO))%nat /\
    (FD_ISSET STDIN_FILENO ready = true -> inp w1 STDIN_FILENO <> [] -> (1 <= k)%nat) /\
    (FD_ISSET STDIN_FILENO ready = false -> k = 0%nat) /\
    brk = FD_ISSET STDIN_FILENO ready && (k =? 0)%nat /\
    out w3 socket = out w1 socket ++ firstn k (inp w1 STDIN_FILENO) /\
    (forall fd, fd <> socket -> out w3 fd = out w1 fd) /\
    inp w3 STDIN_FILENO = skipn k (inp w1 STDIN_FILENO) /\
    (forall fd, fd <> STDIN_FILENO -> inp w3 fd = inp w1 fd) /\
    fdtab w3 = fdtab w1 /\ quiet (script w3) = true /\
    (length (script w3) <= length (script w1))%nat.
Proof.
  intros Hs Hne Ho0 Ho Hq Hf.
  destruct (FD_ISSET STDIN_FILENO ready).
  - destruct (Read_quiet f STDIN_FILENO s MAXLINE w1 Ho0 Hq ltac:(lia)
                ltac:(unfold MAXLINE, SIZE_MOD; lia))
      as (k & w2 & HR & Hk & Hk' & Hk'' & Hm2 & Hi2 & Hou2 & Hfd2 & Hq2 & Hl2).
    change (Z.to_nat MAXLINE) with 256%nat in Hk.
    rewrite (bind_eq _ _ _ _ _ HR). cbv zeta.
    rewrite to_ssize_t_small by lia.
    destruct k as [|k'].
    + exists 0%nat, true, w2. cbn [Z.of_nat Z.eqb firstn skipn] in *. unfold ret.
      rewrite app_nil_r. conjs; auto; try lia; try congruence.
      * intros _ Hne'. specialize (Hk'' ltac:(unfold MAXLINE; lia) Hne'). lia.
      * rewrite Hi2. apply upd_same.
      * intros fd Hfd. rewrite Hi2. now apply upd_other.
    + set (k := S k') in *.
      assert (Ho2 : is_open socket w2 = true) by (unfold is_open in *; now rewrite Hfd2).
      rewrite to_size_t_small by (unfold SIZE_MOD; lia).
      destruct (client_writen_loop_quiet f socket w2 s (Z.of_nat k) Ho2 Hq2
                  ltac:(unfold SIZE_MOD; lia) ltac:(lia))
        as (w3 & HL & Hout & Hoth & Hm3 & Hfd3 & Hi3 & Hq3 & Hl3).
      replace (Z.of_nat k =? 0) with false by (symmetry; apply Z.eqb_neq; lia).
      unfold Client.writen. apply Z.eqb_neq in Hs. rewrite Hs.
      unfold bind at 1 2 3. unfold ret at 1. rewrite HL. unfold ret.
      exists k, false, w3. conjs; auto; try lia; try congruence.
      * rewrite Hout, Hou2, Hm2, Nat2Z.id. f_equal.
        rewrite <- (load_store_bytes (firstn k (inp w1 STDIN_FILENO)) (mem w1) s) at 2.
        f_equal. rewrite length_firstn. lia.
      * intros fd Hfd. rewrite (Hoth fd Hfd). now rewrite Hou2.
      * rewrite Hi3, Hi2. apply upd_same.
      * intros fd Hfd. rewrite Hi3, Hi2. now apply upd_other.
  - exists 0%nat, false, w1. unfold ret. cbn [firstn skipn]. rewrite app_nil_r.
    conjs; auto; try lia; discriminate.
Qed.

(** The second half: [k] bytes of the connection are drained, and a
    prefix of [j] of them, at least one, reaches local output. *)
Lemma socket_half (f : nat) (s socket ready : Z) (w3 : World) :
  socket <> STDOUT_FILENO ->
  is_open socket w3 = true -> is_open STDOUT_FILENO w3 = true ->
  quiet (script w3) = true -> (length (script w3) + 1 < f)%nat ->
  exists (k j : nat) (brk : bool) (w5 : World),
    (if FD_ISSET socket ready then
       rc <- Read f socket s MAXLINE ;;
       let rc := to_ssize_t rc in
       if rc =? 0 then ret true
       else Write f STDOUT_FILENO s (to_size_t rc) ;;; ret false
     else ret false) w3 = Ret brk w5 /\
    (j <= k)%nat /\ (k <= 256)%nat /\ (k <= length (inp w3 socket))%nat /\
    (FD_ISSET socket ready = true -> inp w3 socket <> [] -> (1 <= j)%nat) /\
    (FD_ISSET socket ready = false -> k = 0%nat) /\
    brk = FD_ISSET socket ready && (k =? 0)%nat /\
    out w5 STDOUT_FILENO = out w3 STDOUT_FILENO ++ firstn j (inp w3 socket) /\
    (forall fd, fd <> STDOUT_FILENO -> out w5 fd = out w3 fd) /\
    inp w5 socket = skipn k (inp w3 socket) /\
    (forall fd, fd <> socket -> inp w5 fd = inp w3 fd).
Proof.
  intros Hne Ho Ho1 Hq Hf.
  destruct (FD_ISSET socket ready).
  - destruct (Read_quiet f socket s MAXLINE w3 Ho Hq ltac:(lia)
                ltac:(unfold MAXLINE, SIZE_MOD; lia))
      as (k & w4 & HR & Hk & Hk' & Hk'' & Hm4 & Hi4 & Hou4 & Hfd4 & Hq4 & Hl4).
    change (Z.to_nat MAXLINE) with 256%nat in Hk.
    rewrite (bind_eq _ _ _ _ _ HR). cbv zeta.
    rewrite to_ssize_t_small by lia.
    destruct k as [|k'].
    + exists 0%nat, 0%nat, true, w4. cbn [Z.of_nat Z.eqb firstn skipn] in *. unfold ret.
      rewrite app_nil_r. conjs; auto; try lia; try congruence.
      * intros _ Hne'. specialize (Hk'' ltac:(unfold MAXLINE; lia) Hne'). lia.
      * rewrite Hi4. apply upd_same.
      * intros fd Hfd. rewrite Hi4. now apply upd_other.
    + set (k := S k') in *.
      assert (Ho4 : is_open STDOUT_FILENO w4 = true) by (unfold is_open in *; now rewrite Hfd4).
      rewrite to_size_t_small by (unfold SIZE_MOD; lia).
      destruct (Write_quiet f STDOUT_FILENO s (Z.of_nat k) w4 Ho4 Hq4 ltac:(lia)
                  ltac:(unfold SIZE_MOD; lia))
        as (rc & w5 & HW & _ & Hrc & Hout & Hm5 & Hfd5 & Hi5 & _).
      specialize (Hrc ltac:(lia)).
      replace (Z.of_nat k =? 0) with false by (symmetry; apply Z.eqb_neq; lia).
      unfold bind at 1. rewrite HW. unfold ret.
      exists k, (Z.to_nat rc), false, w5. conjs; auto; try lia; try congruence.
      * rewrite Hout, upd_same, Hou4, Hm4. f_equal.
        rewrite load_store_prefix by (rewrite length_firstn; lia).
        rewrite firstn_firstn. f_equal. lia.
      * intros fd Hfd. rewrite Hout. rewrite upd_other by exact Hfd. now rewrite Hou4.
      * rewrite Hi5, Hi4. apply upd_same.
      * intros fd Hfd. rewrite Hi5, Hi4. now apply upd_other.
  - exists 0%nat, 0%nat, false, w3. unfold ret. cbn [firstn skipn]. rewrite app_nil_r.
    conjs; auto; try lia; discriminate.
Qed.

(** One round under a quiet script, both halves: [k1] bytes of local
    input go to the connection; unless local input was found at its end,
    [k2] bytes of the connection are drained and [j] of them go to local
    output. *)
Lemma round_quiet (fuel : nat) (s socket : Z) (w : World) :
  s <> NULL -> 1 < socket ->
  is_open STDIN_FILENO w = true -> is_open STDOUT_FILENO w = true ->
  is_open socket w = true ->
  quiet (script w) = true -> (length (script w) + 257 < fuel)%nat ->
  let r0 := FD_ISSET STDIN_FILENO (round_ready (script w) socket) in
  let r1 := FD_ISSET socket (round_ready (script w) socket) in
  exists (k1 k2 j : nat) (brk : bool) (w' : World),
    Client.do_work_round fuel s socket (socket + 1) w = Ret brk w' /\
    (k1 <= 256)%nat /\ (k1 <= length (inp w STDIN_FILENO))%nat /\
    (r0 = true -> inp w STDIN_FILENO <> [] -> (1 <= k1)%nat) /\
    (r0 = false -> k1 = 0%nat) /\
    (j <= k2)%nat /\ (k2 <= 256)%nat /\ (k2 <= length (inp w socket))%nat /\
    (r0 && (k1 =? 0)%nat = false -> r1 = true -> inp w socket <> [] -> (1 <= j)%nat) /\
    brk = r0 && (k1 =? 0)%nat || r1 && (k2 =? 0)%nat /\
    out w' socket = out w socket ++ firstn k1 (inp w STDIN_FILENO) /\
    out w' STDOUT_FILENO = out w STDOUT_FILENO ++ firstn j (inp w socket) /\
    inp w' STDIN_FILENO = skipn k1 (inp w STDIN_FILENO) /\
    inp w' socket = skipn k2 (inp w socket).
Proof.
  intros Hs Hsock Ho0 Ho1 Ho Hq Hf r0 r1.
  assert (Hn0 : socket <> STDIN_FILENO) by (unfold STDIN_FILENO; lia).
  assert (Hn1 : socket <> STDOUT_FILENO) by (unfold STDOUT_FILENO; lia).
  pose proof (watched_all_open socket w ltac:(lia) Ho0 Ho) as Hall.
  destruct (Select_quiet fuel (socket + 1) _ w Hq ltac:(lia) Hall)
    as (w1 & HS & Hsc1 & Hm1 & Hi1 & Hou1 & Hfd1 & _).
  fold (watched socket) in HS. fold (round_ready (script w) socket) in HS.
  pose proof (serving_length (script w)) as Hlen.
  assert (Hq1 : quiet (script w1) = true) by (rewrite Hsc1; now apply serving_quiet).
  assert (Ho0' : is_open STDIN_FILENO w1 = true) by (unfold is_open in *; now rewrite Hfd1).
  assert (Ho' : is_open socket w1 = true) by (unfold is_open in *; now rewrite Hfd1).
  destruct (stdin_half fuel s socket (round_ready (script w) socket) w1 Hs Hn0 Ho0' Ho' Hq1
              ltac:(rewrite Hsc1; lia))
    as (k1 & b1 & w3 & H1 & Hk1 & Hk1' & Hk1'' & Hk1n & Hb1 & Hout3 & Hoth3 & Hin3 & Hinoth3
          & Hfd3 & Hq3 & Hl3).
  fold r0 in Hk1'', Hk1n, Hb1.
  unfold Client.do_work_round. fold (watched socket).
  rewrite (bind_eq _ _ _ _ _ HS). cbn [snd].
  rewrite (bind_eq _ _ _ _ _ H1).
  rewrite Hi1 in *. rewrite Hou1 in *.
  destruct b1.
  - exists k1, 0%nat, 0%nat, true, w3. unfold ret. cbn [firstn skipn].
    rewrite app_nil_r. rewrite <- Hb1. cbn [orb].
    conjs; auto; try lia; try congruence;
      try (apply Hoth3; unfold STDOUT_FILENO; lia); try (apply Hinoth3; exact Hn0).
  - assert (Ho3 : is_open socket w3 = true) by (unfold is_open in *; now rewrite Hfd3, Hfd1).
    assert (Ho13 : is_open STDOUT_FILENO w3 = true)
      by (unfold is_open in *; now rewrite Hfd3, Hfd1).
    destruct (socket_half fuel s socket (round_ready (script w) socket) w3 Hn1 Ho3 Ho13 Hq3
                ltac:(rewrite Hsc1 in Hl3; lia))
      as (k2 & j & b2 & w5 & H2 & Hj & Hk2 & Hk2' & Hk2'' & Hk2n & Hb2 & Hout5 & Hoth5
            & Hin5 & Hinoth5).
    fold r1 in Hk2'', Hk2n, Hb2.
    cbv iota zeta. cbv zeta in H2. rewrite H2.
    rewrite (Hinoth3 socket Hn0) in *.
    exists k1, k2, j, b2, w5. rewrite <- Hb1. cbn [orb].
    conjs; auto; try lia.
    + rewrite (Hoth5 socket Hn1). exact Hout3.
    + rewrite Hout5. f_equal. apply Hoth3. unfold STDOUT_FILENO. lia.
    + rewrite (Hinoth5 STDIN_FILENO) by (unfold STDIN_FILENO; lia). exact Hin3.
Qed.

(** X6.  Local input to the connection, for a connection on a descriptor
    that [fd_set] admits.  When the readiness wait reports local
    input and local input holds data, the round drains a chunk of [k]
    bytes from it, [1 <= k <= MAXLINE], and the connection receives
    exactly these [k] bytes, however short the single writes are. *)
Theorem local_chunk_reaches_connection :
  forall (fuel : nat) (s socket : Z) (w : World),
    s <> NULL -> 1 < socket < FD_SETSIZE ->
    is_open STDIN_FILENO w = true -> is_open STDOUT_FILENO w = true ->
    is_open socket w = true ->
    quiet (script w) = true -> (length (script w) + 257 < fuel)%nat ->
    FD_ISSET STDIN_FILENO (round_ready (script w) socket) = true ->
    inp w STDIN_FILENO <> [] ->
    exists (k : nat) (brk : bool) (w' : World),
      Client.do_work_round fuel s socket (socket + 1) w = Ret brk w' /\
      (1 <= k <= 256)%nat /\
      out w' socket = out w socket ++ firstn k (inp w STDIN_FILENO) /\
      inp w' STDIN_FILENO = skipn k (inp w STDIN_FILENO).
Proof.
  intros fuel s socket w Hs [Hsock _] Ho0 Ho1 Ho Hq Hf Hr0 Hdata.
  destruct (round_quiet fuel s socket w Hs Hsock Ho0 Ho1 Ho Hq Hf)
    as (k1 & k2 & j & brk & w' & HR & Hk1 & _ & Hk1' & _ & _ & _ & _ & _ & _ & Hout & _ & Hin & _).
  exists k1, brk, w'. specialize (Hk1' Hr0 Hdata). auto.
Qed.

Lemma local_chunk_reaches_connection_witness :
  exists (k : nat) (brk : bool) (w' : World),
    Client.do_work_round 300 300 3 (3 + 1) w_local = Ret brk w' /\
    (1 <= k <= 256)%nat /\
    out w' 3 = out w_local 3 ++ firstn k (inp w_local STDIN_FILENO) /\
    inp w' STDIN_FILENO = skipn k (inp w_local STDIN_FILENO).
Proof.
  apply (local_chunk_reaches_connection 300 300 3 w_local); try reflexivity.
  - discriminate.
  - unfold FD_SETSIZE. lia.
  - cbn. lia.
  - discriminate.
Defined.

(** X7.  The connection to local output, for a connection on a descriptor
    that [fd_set] admits.  When the readiness wait reports the
    connection, the connection holds data and the round has not ended on
    local input, the round drains a chunk of [k] bytes, [k <= MAXLINE],
    and goes on; local output receives the first [j] bytes of the chunk,
    with [1 <= j <= k], and the other [k - j] are drained all the same. *)
Theorem connection_chunk_reaches_output :
  forall (fuel : nat) (s socket : Z) (w : World),
    s <> NULL -> 1 < socket < FD_SETSIZE ->
    is_open STDIN_FILENO w = true -> is_open STDOUT_FILENO w = true ->
    is_open socket w = true ->
    quiet (script w) = true -> (length (script w) + 257 < fuel)%nat ->
    FD_ISSET socket (round_ready (script w) socket) = true ->
    inp w socket <> [] ->
    FD_ISSET STDIN_FILENO (round_ready (script w) socket) = false \/
    inp w STDIN_FILENO <> [] ->
    exists (k j : nat) (w' : World),
      Client.do_work_round fuel s socket (socket + 1) w = Ret false w' /\
      (1 <= j <= k)%nat /\ (k <= 256)%nat /\
      out w' STDOUT_FILENO = out w STDOUT_FILENO ++ firstn j (inp w socket) /\
      inp w' socket = skipn k (inp w socket).
Proof.
  intros fuel s socket w Hs [Hsock _] Ho0 Ho1 Ho Hq Hf Hr1 Hdata Hin0.
  destruct (round_quiet fuel s socket w Hs Hsock Ho0 Ho1 Ho Hq Hf)
    as (k1 & k2 & j & brk & w' & HR & _ & _ & Hk1 & Hk1n & Hj & Hk2 & _ & Hj1 & Hbrk & _
          & Hout & _ & Hin).
  assert (Hb1 : FD_ISSET STDIN_FILENO (round_ready (script w) socket) && (k1 =? 0)%nat = false).
  { destruct (FD_ISSET STDIN_FILENO (round_ready (script w) socket)) eqn:E; [|reflexivity].
    destruct Hin0 as [Hin0|Hin0]; [discriminate|].
    specialize (Hk1 eq_refl Hin0). cbn [andb]. apply Nat.eqb_neq. lia. }
  specialize (Hj1 Hb1 Hr1 Hdata).
  rewrite Hb1, Hr1 in Hbrk. cbn [orb andb] in Hbrk.
  replace (k2 =? 0)%nat with false in Hbrk by (symmetry; apply Nat.eqb_neq; lia).
  subst brk. exists k2, j, w'. auto.
Qed.

Lemma connection_chunk_reaches_output_witness :
  exists (k j : nat) (w' : World),
    Client.do_work_round 300 300 3 (3 + 1) w_remote = Ret false w' /\
    (1 <= j <= k)%nat /\ (k <= 256)%nat /\
    out w' STDOUT_FILENO = out w_remote STDOUT_FILENO ++ firstn j (inp w_remote 3) /\
    inp w' 3 = skipn k (inp w_remote 3).
Proof.
  apply (connection_chunk_reaches_output 300 300 3 w_remote); try reflexivity.
  - discriminate.
  - unfold FD_SETSIZE. lia.
  - cbn. lia.
  - discriminate.
  - left. reflexivity.
Defined.

(** X8.  End of stream on the connection, for a connection on a
    descriptor that [fd_set] admits.  When the readiness wait reports the
    connection and the connection is at its end, the round breaks the
    loop and [do_work] returns from this very round: nothing goes to
    local output, and the [k] bytes, [k <= MAXLINE], that the round
    drained from local input before have reached the connection. *)
Theorem connection_eof_ends_loop :
  forall (f : nat) (s socket : Z) (w : World),
    s <> NULL -> 1 < socket < FD_SETSIZE ->
    is_open STDIN_FILENO w = true -> is_open STDOUT_FILENO w = true ->
    is_open socket w = true ->
    quiet (script w) = true -> (length (script w) + 257 < f)%nat ->
    FD_ISSET socket (round_ready (script w) socket) = true ->
    inp w socket = [] ->
    exists (k : nat) (w' : World),
      Client.do_work_round f s socket (socket + 1) w = Ret true w' /\
      Client.do_work (S f) s socket w = Ret tt w' /\
      (k <= 256)%nat /\
      out w' STDOUT_FILENO = out w STDOUT_FILENO /\
      out w' socket = out w socket ++ firstn k (inp w STDIN_FILENO) /\
      inp w' STDIN_FILENO = skipn k (inp w STDIN_FILENO) /\
      inp w' socket = [].
Proof.
  intros f s socket w Hs [Hsock _] Ho0 Ho1 Ho Hq Hf Hr1 Heof.
  destruct (round_quiet f s socket w Hs Hsock Ho0 Ho1 Ho Hq Hf)
    as (k1 & k2 & j & brk & w' & HR & Hk1 & _ & _ & _ & Hj & _ & Hk2 & _ & Hbrk & Hout
          & Hout1 & Hin & Hin1).
  rewrite Heof in Hk2, Hout1, Hin1. cbn [length] in Hk2.
  assert (k2 = 0%nat) by lia. subst k2. assert (j = 0%nat) by lia. subst j.
  rewrite Hr1 in Hbrk. cbn [andb Nat.eqb] in Hbrk. rewrite orb_true_r in Hbrk. subst brk.
  exists k1, w'. unfold Client.do_work. rewrite max_fd by lia.
  cbn [Client.do_work_loop]. rewrite (bind_eq _ _ _ _ _ HR).
  cbn [firstn] in Hout1. rewrite app_nil_r in Hout1. cbn [skipn] in Hin1. auto 10.
Qed.

Lemma connection_eof_ends_loop_witness :
  exists (k : nat) (w' : World),
    Client.do_work_round 299 300 3 (3 + 1) (set_script [] w_local) = Ret true w' /\
    Client.do_work 300 300 3 (set_script [] w_local) = Ret tt w' /\
    (k <= 256)%nat /\
    out w' STDOUT_FILENO = out (set_script [] w_local) STDOUT_FILENO /\
    out w' 3 = out (set_script [] w_local) 3 ++
               firstn k (inp (set_script [] w_local) STDIN_FILENO) /\
    inp w' STDIN_FILENO = skipn k (inp (set_script [] w_local) STDIN_FILENO) /\
    inp w' 3 = [].
Proof.
  apply (connection_eof_ends_loop 299 300 3 (set_script [] w_local)); try reflexivity.
  - discriminate.
  - unfold FD_SETSIZE. lia.
  - cbn. lia.
Defined.

(** ** [writen] of server3.c when no write is short *)

Lemma unshort_quiet (count : Z) (sc : list os_event) :
  unshort count sc = true -> quiet sc = true.
Proof.
  induction sc as [|[e|k|m] sc IH]; cbn; auto; intros H;
    apply andb_true_iff in H as [H1 H2]; rewrite ?H1; auto.
Qed.

Lemma Write_unshort (f : nat) (fd p n : Z) :
  forall w,
    is_open fd w = true -> unshort n (script w) = true ->
    (length (script w) < f)%nat -> 0 <= n < SIZE_MOD ->
    exists w',
      Write f fd p n w = Ret n w' /\
      out w' fd = out w fd ++ load_bytes (mem w) p (Z.to_nat n) /\
      (forall fd', fd' <> fd -> out w' fd' = out w fd') /\
      mem w' = mem w /\ inp w' = inp w /\ fdtab w' = fdtab w.
Proof.
  induction f as [|f IH]; intros w Ho Hu Hf Hn; [inversion Hf|].
  assert (Served : forall ev w1,
             next_event w = (ev, w1) -> chunk ev n = n ->
             (forall e, ev <> Some (Fail e)) ->
             out w1 = out w -> mem w1 = mem w -> inp w1 = inp w -> fdtab w1 = fdtab w ->
             exists w',
               Write (S f) fd p n w = Ret n w' /\
               out w' fd = out w fd ++ load_bytes (mem w) p (Z.to_nat n) /\
               (forall fd', fd' <> fd -> out w' fd' = out w fd') /\
               mem w' = mem w /\ inp w' = inp w /\ fdtab w' = fdtab w).
  { intros ev w1 Hev Hch Hnf Hou Hm Hi Hfd. cbn [Write]. unfold bind, lift, sys_write.
    rewrite Hev.
    replace (is_open fd w1) with true by (symmetry; unfold is_open in *; now rewrite Hfd).
    rewrite Hch.
    assert (E : (n =? -1) = false) by (apply Z.eqb_neq; lia).
    destruct ev as [[e|k|m]|]; [exfalso; eapply Hnf; reflexivity | | |];
      rewrite E; cbn [negb]; unfold ret; rewrite to_size_t_small by lia;
      (eexists; split; [reflexivity|]); cbn; rewrite Hou, Hm, upd_same;
      (conjs; auto; intros; now apply upd_other). }
  unfold next_event in Served.
  destruct (script w) as [|ev sc] eqn:Hsc.
  - apply (Served None w); auto; try (intros; discriminate). unfold chunk. lia.
  - cbn [unshort forallb] in Hu. apply andb_true_iff in Hu as [He Hu].
    destruct ev as [e|k|m]; cbn [unshort_event] in He.
    + rewrite (failed_write w e sc Hsc), He.
      destruct (IH (log (c_write fd p n (-1)) (set_errno (Zpos e) (set_script sc w))))
        as (w' & HW & H1 & H2 & H3 & H4 & H5); try assumption; try (cbn in *; lia).
      exists w'. cbn in H1, H2, H3, H4, H5. conjs; auto.
    + apply (Served (Some (Short k)) (set_script sc w)); auto; try (intros; discriminate).
      apply Z.leb_le in He. unfold chunk. lia.
    + apply (Served (Some (Ready m)) (set_script sc w)); auto; try (intros; discriminate).
      unfold chunk. lia.
Qed.

(** X9.  [writen] of server3.c does deliver the whole buffer when no write is
    short (interruptions may come): it returns [count] after one write
    that took everything, and the stream has received exactly the [count]
    bytes at [buf]. *)
Theorem server_writen_delivers_unshort :
  forall (fuel : nat) (socket buf count : Z) (w : World),
    buf <> NULL -> is_open socket w = true -> unshort count (script w) = true ->
    0 <= count < SIZE_MOD ->
    (length (script w) + 1 < fuel)%nat ->
    exists w',
      Server.writen fuel socket buf count w = Ret count w' /\
      out w' socket = out w socket ++ load_bytes (mem w) buf (Z.to_nat count) /\
      (forall fd', fd' <> socket -> out w' fd' = out w fd') /\
      mem w' = mem w.
Proof.
  intros fuel socket buf count w Hb Ho Hu Hc Hf.
  unfold Server.writen. apply Z.eqb_neq in Hb. rewrite Hb.
  unfold bind at 1 2. unfold ret at 1.
  destruct fuel as [|[|f]]; [lia | lia |].
  destruct (count =? 0) eqn:E0.
  - apply Z.eqb_eq in E0. subst count. cbn [Server.writen_loop Z.eqb]. unfold ret.
    exists w. cbn [Z.to_nat load_bytes]. rewrite app_nil_r. auto.
  - apply Z.eqb_neq in E0. rewrite server_writen_loop_step by exact E0.
    destruct (Write_unshort (S f) socket buf count w Ho Hu ltac:(lia) Hc)
      as (w' & HW & Hout & Hoth & Hmem & _).
    rewrite HW. cbn [Server.writen_loop].
    replace (size_sub count count =? 0) with true
      by (symmetry; apply Z.eqb_eq; unfold size_sub; rewrite Z.sub_diag; reflexivity).
    unfold ret. exists w'. conjs; auto.
Qed.

Lemma server_writen_delivers_unshort_witness :
  exists w',
    Server.writen 5 3 100 2 (set_script [Fail 4; Short 2] w_short) = Ret 2 w' /\
    out w' 3 = out (set_script [Fail 4; Short 2] w_short) 3 ++
               load_bytes (mem (set_script [Fail 4; Short 2] w_short)) 100 (Z.to_nat 2) /\
    (forall fd', fd' <> 3 -> out w' fd' = out (set_script [Fail 4; Short 2] w_short) fd') /\
    mem w' = mem (set_script [Fail 4; Short 2] w_short).
Proof.
  apply (server_writen_delivers_unshort 5 3 100 2 (set_script [Fail 4; Short 2] w_short)).
  - discriminate.
  - reflexivity.
  - reflexivity.
  - unfold SIZE_MOD. lia.
  - cbn. lia.
Defined.

(** ** The listener hands a connection to a thread *)

Lemma existsb_In (x : Z) (tab : list Z) : existsb (Z.eqb x) tab = true <-> In x tab.
Proof.
  rewrite existsb_exists. split.
  - intros (y & Hy & E). apply Z.eqb_eq in E. now subst.
  - intros H. exists x. split; [exact H | apply Z.eqb_refl].
Qed.

Lemma lowest_free_cases (tab : list Z) (fuel : nat) :
  forall fd,
    existsb (Z.eqb (lowest_free fuel fd tab)) tab = false \/
    (lowest_free fuel fd tab = fd + Z.of_nat fuel /\
     forall x, fd <= x < fd + Z.of_nat fuel -> In x tab).
Proof.
  induction fuel as [|f IH]; intros fd.
  - right. cbn [lowest_free]. split; [lia | intros x Hx; lia].
  - cbn [lowest_free]. destruct (existsb (Z.eqb fd) tab) eqn:E; [|now left].
    destruct (IH (fd + 1)) as [H|[H1 H2]]; [now left|].
    right. split; [lia|]. intros x Hx.
    destruct (Z.eq_dec x fd) as [->|Hne]; [now apply existsb_In | apply H2; lia].
Qed.

(** The descriptor that [accept] and [socket] hand out is not open. *)
Lemma fresh_fd_not_open (tab : list Z) : existsb (Z.eqb (fresh_fd tab)) tab = false.
Proof.
  unfold fresh_fd. destruct (lowest_free_cases tab (length tab) 0) as [H|[H1 H2]]; [exact H|].
  rewrite H1. cbn [Z.add].
  destruct (existsb (Z.eqb (Z.of_nat (length tab))) tab) eqn:E; [|reflexivity].
  apply existsb_In in E. exfalso.
  set (l := map Z.of_nat (seq 0 (length tab))).
  assert (Hnd : NoDup l).
  { unfold l. apply NoDup_map_NoDup_ForallPairs; [intros a b _ _; apply Nat2Z.inj | apply seq_NoDup]. }
  assert (Hincl : incl l tab).
  { intros x Hx. unfold l in Hx. apply in_map_iff in Hx as (i & <- & Hi).
    apply in_seq in Hi. apply H2. lia. }
  assert (Hlen : (length tab <= length l)%nat) by (unfold l; now rewrite length_map, length_seq).
  pose proof (NoDup_length_incl Hnd Hlen Hincl) as Hback.
  specialize (Hback _ E). unfold l in Hback.
  apply in_map_iff in Hback as (i & Hi & Hin). apply in_seq in Hin. lia.
Qed.

Lemma lowest_free_le (tab : list Z) (fuel : nat) :
  forall fd, lowest_free fuel fd tab <= fd + Z.of_nat fuel.
Proof.
  induction fuel as [|f IH]; intros fd; cbn [lowest_free]; [lia|].
  destruct (existsb (Z.eqb fd) tab); [specialize (IH (fd + 1)); lia | lia].
Qed.

Lemma fresh_fd_le (tab : list Z) : fresh_fd tab <= Z.of_nat (length tab).
Proof. unfold fresh_fd. pose proof (lowest_free_le tab (length tab) 0). lia. Qed.

(** An [int] stored is the [int] loaded. *)
Lemma load_int_store_int (m : memory) (a v : Z) :
  - 2 ^ 31 <= v < 2 ^ 31 -> load_int (store_int m a v) a = v.
Proof.
  intros Hv. unfold load_int, store_int. cbn [store_bytes]. unfold store.
  repeat match goal with
         | |- context [?x =? ?y] =>
             first [ replace (x =? y) with true by (symmetry; apply Z.eqb_eq; lia)
                   | replace (x =? y) with false by (symmetry; apply Z.eqb_neq; lia) ]
         end.
  match goal with |- (if ?u <? _ then _ else _) = _ => assert (Hu : u = v mod 2 ^ 32) end.
  { Z.div_mod_to_equations. lia. }
  rewrite Hu.
  destruct (v mod 2 ^ 32 <? 2 ^ 31) eqn:E;
    [apply Z.ltb_lt in E | apply Z.ltb_ge in E]; Z.div_mod_to_equations; lia.
Qed.

(** [Accept] under failures that it retries: the connection is accepted
    all the same, on the lowest free descriptor. *)
Lemma Accept_after_retries (socket addr addrlen : Z) (f : nat) :
  forall w,
    forallb accept_retries (script w) = true -> is_open socket w = true ->
    (length (script w) < f)%nat ->
    exists w1,
      Server.Accept f socket addr addrlen w = Ret (fresh_fd (fdtab w)) w1 /\
      script w1 = [] /\ fdtab w1 = fresh_fd (fdtab w) :: fdtab w /\
      inp w1 = upd (inp w) (fresh_fd (fdtab w)) (hd [] (peers w)) /\
      out w1 = upd (out w) (fresh_fd (fdtab w)) [] /\
      peers w1 = tl (peers w) /\ mem w1 = mem w /\ heap w1 = heap w /\
      heap_end w1 = heap_end w /\ pool w1 = pool w.
Proof.
  induction f as [|f IH]; intros w Hsc Ho Hf; [inversion Hf|].
  cbn [Server.Accept]. unfold bind at 1. unfold lift at 1, sys_accept, next_event.
  destruct (script w) as [|ev sc] eqn:Es.
  - rewrite Ho.
    pose proof (fresh_fd_nonneg (fdtab w)) as Hn.
    replace (fresh_fd (fdtab w) =? -1) with false by (symmetry; apply Z.eqb_neq; lia).
    cbn [negb]. unfold ret. eexists. split; [reflexivity|].
    cbn. conjs; auto.
  - cbn [forallb] in Hsc. apply andb_true_iff in Hsc as [Hev Hsc].
    destruct ev as [e|k|m]; try discriminate.
    change (-1 =? -1) with true. cbn [negb]. unfold bind at 1. unfold get_errno at 1.
    cbn [errno log set_trace set_errno]. cbn [accept_retries] in Hev. rewrite Hev.
    set (w1 := log _ _).
    destruct (IH w1) as (w2 & HA & H); [exact Hsc | exact Ho | cbn [length] in Hf; cbn; lia |].
    exists w2. split; [exact HA | exact H].
Qed.

Lemma accept_dispatch_serves (fuel : nat) (lsocket : Z) (w : World) :
  forallb accept_retries (script w) = true -> is_open lsocket w = true ->
  0 < heap w -> heap w + 4 <= heap_end w ->
  Z.of_nat (length (fdtab w)) < 2 ^ 31 ->
  (length (script w) < fuel)%nat ->
  exists w',
    Server.accept_dispatch fuel lsocket w = Ret tt w' /\
    script w' = [] /\ fdtab w' = fresh_fd (fdtab w) :: fdtab w /\
    inp w' = upd (inp w) (fresh_fd (fdtab w)) (hd [] (peers w)) /\
    out w' = upd (out w) (fresh_fd (fdtab w)) [] /\
    peers w' = tl (peers w) /\
    pool w' = pool w ++ [heap w] /\
    mem w' = store_int (mem w) (heap w) (fresh_fd (fdtab w)) /\
    heap w' = heap w + 4 /\ heap_end w' = heap_end w.
Proof.
  intros Hsc Ho Hh Hend Htab Hf.
  destruct (Accept_after_retries lsocket NULL 0 fuel w Hsc Ho Hf)
    as (w1 & HA & Hs1 & Hfd1 & Hin1 & Hout1 & Hp1 & Hm1 & Hh1 & He1 & Hpool1).
  set (c := fresh_fd (fdtab w)) in *.
  exists (log (c_pthread_create (heap w) 0)
            (set_pool (pool w1 ++ [heap w])
               (set_mem (store_int (mem w1) (heap w) c) (set_heap (heap w + 4) w1)))).
  split.
  - unfold Server.accept_dispatch. rewrite (bind_eq _ _ _ _ _ HA).
    unfold Server.Malloc. unfold bind at 1 2. unfold lift at 1, sys_malloc.
    rewrite Hh1, He1.
    replace (heap w + 4 <=? heap_end w) with true by (symmetry; apply Z.leb_le; lia).
    replace (heap w =? NULL) with false by (symmetry; apply Z.eqb_neq; unfold NULL; lia).
    unfold ret at 1. unfold bind at 1. unfold poke_int at 1.
    unfold Server.Pthread_create, bind, lift, sys_pthread_create, next_event.
    cbn [script set_mem set_heap mem pool]. rewrite Hs1. reflexivity.
  - cbn [script fdtab inp out peers pool mem heap heap_end
           log set_trace set_pool set_mem set_heap].
    rewrite Hm1, Hpool1. conjs; auto.
Qed.

(** X10.  One round of the listener.  When the kernel fails [accept] only with
    errors that [Accept] retries, and the heap has room for the [int], the
    round returns and:
    - the connection of the next waiting peer is open on a descriptor [c]
      that was not open before, with nothing sent to it yet, and every
      other descriptor is as it was;
    - one new thread waits to run, and the [int] its argument points to
      is [c]; no byte of memory outside this [int] has changed. *)
Theorem dispatch_hands_over :
  forall (fuel : nat) (lsocket : Z) (w : World),
    forallb accept_retries (script w) = true -> is_open lsocket w = true ->
    0 < heap w -> heap w + 4 <= heap_end w ->
    Z.of_nat (length (fdtab w)) < 2 ^ 31 ->
    (length (script w) < fuel)%nat ->
    exists w' c,
      Server.accept_dispatch fuel lsocket w = Ret tt w' /\
      is_open c w = false /\ fdtab w' = c :: fdtab w /\
      inp w' c = hd [] (peers w) /\ out w' c = [] /\ peers w' = tl (peers w) /\
      (forall fd, fd <> c -> inp w' fd = inp w fd /\ out w' fd = out w fd) /\
      pool w' = pool w ++ [heap w] /\
      load_int (mem w') (heap w) = c /\
      (forall x, x < heap w \/ heap w + 4 <= x -> mem w' x = mem w x).
Proof.
  intros fuel lsocket w Hsc Ho Hh Hend Htab Hf.
  destruct (accept_dispatch_serves fuel lsocket w Hsc Ho Hh Hend Htab Hf)
    as (w' & HD & _ & Hfd & Hin & Hout & Hp & Hpool & Hm & _).
  exists w', (fresh_fd (fdtab w)).
  pose proof (fresh_fd_nonneg (fdtab w)) as Hc0.
  pose proof (fresh_fd_le (fdtab w)) as Hc1.
  split; [exact HD|].
  split; [apply fresh_fd_not_open|].
  split; [exact Hfd|].
  split; [rewrite Hin; apply upd_same|].
  split; [rewrite Hout; apply upd_same|].
  split; [exact Hp|].
  split; [intros fd Hfd'; rewrite Hin, Hout; split; now apply upd_other|].
  split; [exact Hpool|].
  split; [rewrite Hm; apply load_int_store_int; lia|].
  intros x Hx. rewrite Hm. unfold store_int. apply store_bytes_outside. cbn [length]. lia.
Qed.

Lemma dispatch_hands_over_witness :
  exists w' c,
    Server.accept_dispatch 5 3 w_knock = Ret tt w' /\
    is_open c w_knock = false /\ fdtab w' = c :: fdtab w_knock /\
    inp w' c = hd [] (peers w_knock) /\ out w' c = [] /\
    peers w' = tl (peers w_knock) /\
    (forall fd, fd <> c -> inp w' fd = inp w_knock fd /\ out w' fd = out w_knock fd) /\
    pool w' = pool w_knock ++ [heap w_knock] /\
    load_int (mem w') (heap w_knock) = c /\
    (forall x, x < heap w_knock \/ heap w_knock + 4 <= x -> mem w' x = mem w_knock x).
Proof.
  apply (dispatch_hands_over 5 3 w_knock); try reflexivity.
  - discriminate.
  - cbn. lia.
Defined.

(** ** The message of the handler *)

Lemma sys_rand_mem (w : World) : mem (snd (sys_rand w)) = mem w.
Proof. unfold sys_rand. now destruct (rands w). Qed.

(** The [for] loop stores below index 10 only. *)
Lemma fill_message_footprint (F : nat) (msg : Z) :
  forall i w,
    0 <= i -> (Z.to_nat (11 - i) < F)%nat ->
    exists w',
      Server.fill_message F msg i w = Ret tt w' /\ private_step w w' /\
      heap w' = heap w /\
      (forall x, x < msg \/ msg + 10 <= x -> mem w' x = mem w x).
Proof.
  induction F as [|F IH]; intros i w Hi HF; [inversion HF|].
  cbn [Server.fill_message]. unfold bind at 1. unfold lift at 1.
  destruct (sys_rand_private w) as (Hp1 & Hh1 & Hr).
  pose proof (sys_rand_mem w) as Hm1.
  destruct (sys_rand w) as [r w1]. cbn [fst snd] in Hp1, Hh1, Hr, Hm1.
  assert (0 <= r mod 11 < 11) by (apply Z.mod_pos_bound; lia).
  destruct (i <? r mod 11) eqn:E.
  - apply Z.ltb_lt in E. unfold bind at 1. unfold lift at 1.
    destruct (sys_rand_private w1) as (Hp2 & Hh2 & _).
    pose proof (sys_rand_mem w1) as Hm2.
    destruct (sys_rand w1) as [r' w2]. cbn [fst snd] in Hp2, Hh2, Hm2.
    unfold bind at 1. unfold poke at 1.
    destruct (IH (i + 1) (set_mem (store (mem w2) (msg + i) (97 + r' mod (122 - 97 + 1))) w2))
      as (w' & HF' & Hp3 & Hh3 & Hm3); try lia.
    exists w'. split; [exact HF'|]. split; [|split].
    + eapply private_step_trans; [exact Hp1|]. eapply private_step_trans; [exact Hp2|].
      eapply private_step_trans; [|exact Hp3]. unfold private_step. conjs; reflexivity.
    + rewrite Hh3. cbn [heap set_mem]. congruence.
    + intros x Hx. rewrite Hm3 by exact Hx. cbn [mem set_mem]. unfold store.
      replace (x =? msg + i) with false by (symmetry; apply Z.eqb_neq; lia).
      now rewrite Hm2, Hm1.
  - exists w1. split; [reflexivity|]. split; [exact Hp1|]. split; [exact Hh1|].
    intros x _. now rewrite Hm1.
Qed.

(** Up to the call of [writen]: the block is the [B] bytes at the old top
    of the heap, [1 <= B <= 11]; the stores went to the ten bytes from
    there on, whatever [B] is, and one of these ten is zero. *)
Lemma serve_client_prepares (fuel : nat) (arg : Z) (w : World) :
  (12 <= fuel)%nat -> 0 < heap w -> heap w + 11 <= heap_end w ->
  exists w5 j,
    private_step w w5 /\
    heap w < heap w5 <= heap w + 11 /\
    (forall x, x < heap w \/ heap w + 10 <= x -> mem w5 x = mem w x) /\
    0 <= j < 10 /\ mem w5 (heap w + j) = 0 /\
    Server.serve_client fuel arg w =
    (Server.writen fuel (load_int (mem w) arg) (heap w) 64 ;;;
     Close fuel (load_int (mem w) arg) ;;; ret NULL) w5.
Proof.
  intros Hf Hh Hend.
  unfold Server.serve_client. unfold bind at 1. unfold peek_int.
  unfold bind at 1. unfold lift at 1, sys_free.
  unfold bind at 1. unfold lift at 1.
  destruct (sys_rand_private w) as (Hp1 & Hh1 & Hr).
  pose proof (sys_rand_mem w) as Hm1.
  destruct (sys_rand w) as [r w1]. cbn [fst snd] in Hp1, Hh1, Hr, Hm1.
  assert (0 <= r mod 11 < 11) by (apply Z.mod_pos_bound; lia).
  unfold bind at 1. unfold lift at 1, sys_malloc.
  assert (Hend1 : heap_end w1 = heap_end w) by apply Hp1.
  replace (heap w1 + 1 * (r mod 11 + 1) <=? heap_end w1) with true
    by (symmetry; apply Z.leb_le; lia).
  set (w2 := set_heap (heap w1 + 1 * (r mod 11 + 1)) w1).
  destruct (fill_message_footprint fuel (heap w1) 0 w2 ltac:(lia) ltac:(cbn; lia))
    as (w3 & HF & Hp3 & Hh3 & Hm3).
  rewrite (bind_eq _ _ _ _ _ HF).
  unfold bind at 1. unfold lift at 1.
  destruct (sys_rand_private w3) as (Hp4 & Hh4 & _).
  pose proof (sys_rand_mem w3) as Hm4.
  destruct (sys_rand w3) as [r' w4]. cbn [fst snd] in Hp4, Hh4, Hm4.
  unfold bind at 1. unfold poke at 1.
  assert (0 <= r' mod 10 < 10) by (apply Z.mod_pos_bound; lia).
  exists (set_mem (store (mem w4) (heap w1 + r' mod 10) 0) w4), (r' mod 10).
  rewrite Hh1 in *.
  split; [|split; [|split; [|split; [|split]]]].
  - eapply private_step_trans; [exact Hp1|].
    eapply private_step_trans; [|eapply private_step_trans; [exact Hp3|]].
    + unfold private_step, w2. conjs; reflexivity.
    + eapply private_step_trans; [exact Hp4|]. unfold private_step. conjs; reflexivity.
  - cbn [heap set_mem]. rewrite Hh4, Hh3. unfold w2. cbn [heap set_heap]. lia.
  - intros x Hx. cbn [mem set_mem]. unfold store.
    replace (x =? heap w + r' mod 10) with false by (symmetry; apply Z.eqb_neq; lia).
    rewrite Hm4, Hm3 by exact Hx. unfold w2. cbn [mem set_heap]. now rewrite Hm1.
  - lia.
  - cbn [mem set_mem]. unfold store. now rewrite Z.eqb_refl.
  - reflexivity.
Qed.

Lemma filter_absent (c : Z) (tab : list Z) :
  existsb (Z.eqb c) tab = false -> filter (fun x => negb (x =? c)) tab = tab.
Proof.
  induction tab as [|x tab IH]; [reflexivity|]. cbn [existsb filter].
  intros H. apply orb_false_iff in H as [H1 H2].
  rewrite Z.eqb_sym, H1. cbn [negb]. now rewrite IH.
Qed.


(** The handler with the kernel at peace, in full. *)
Lemma serve_client_at_peace (fuel : nat) (arg : Z) (w : World) :
  script w = [] -> is_open (load_int (mem w) arg) w = true ->
  0 < heap w -> heap w + 11 <= heap_end w -> (12 <= fuel)%nat ->
  exists w' w5 j,
    Server.serve_client fuel arg w = Ret NULL w' /\
    out w' = upd (out w) (load_int (mem w) arg)
               (out w (load_int (mem w) arg) ++ load_bytes (mem w5) (heap w) 64) /\
    (forall x, x < heap w \/ heap w + 10 <= x -> mem w5 x = mem w x) /\
    0 <= j < 10 /\ mem w5 (heap w + j) = 0 /\
    mem w' = mem w5 /\
    heap w < heap w' <= heap w + 11 /\
    fdtab w' = filter (fun x => negb (x =? load_int (mem w) arg)) (fdtab w) /\
    script w' = [] /\ inp w' = inp w /\ peers w' = peers w /\ pool w' = pool w /\
    heap_end w' = heap_end w.
Proof.
  intros Hsc Ho Hh Hend Hf.
  destruct (serve_client_prepares fuel arg w Hf Hh Hend)
    as (w5 & j & Hp & Hh5 & Hm5 & Hj & Hz & Heq).
  rewrite Heq.
  destruct Hp as (Hs5 & Hfd5 & Hin5 & Hout5 & Hpe5 & Hpo5 & _ & He5).
  set (socket := load_int (mem w) arg) in *.
  assert (Ho5 : is_open socket w5 = true) by (unfold is_open in *; now rewrite Hfd5).
  rewrite Hsc in Hs5.
  destruct fuel as [|[|f]]; [lia | lia |].
  unfold Server.writen.
  replace (heap w =? NULL) with false by (symmetry; apply Z.eqb_neq; unfold NULL; lia).
  unfold bind at 1 2 3. unfold ret at 1.
  rewrite server_writen_loop_step by discriminate.
  rewrite (Write_full f socket (heap w) 64 w5 Hs5 Ho5) by (unfold SIZE_MOD; lia).
  cbn [Server.writen_loop]. change (size_sub 64 64 =? 0) with true. cbv iota.
  unfold ret at 1 2.
  cbn [Close]. unfold bind at 1 2. unfold lift, sys_close, next_event.
  cbn [script log set_out set_trace]. rewrite Hs5.
  replace (is_open socket _) with true by (symmetry; exact Ho5).
  cbn [Z.eqb]. unfold ret.
  eexists _, w5, j. split; [reflexivity|].
  cbn [script mem heap heap_end fdtab inp out peers pool log set_fdtab set_out set_trace
         set_script].
  rewrite Hout5, Hfd5. conjs; auto; lia.
Qed.






(** ** A connection from [accept] to [close] *)

Lemma remove_nth_last {A} (l : list A) (a : A) : remove_nth (length l) (l ++ [a]) = l.
Proof.
  unfold remove_nth. rewrite firstn_length_app.
  rewrite skipn_all2 by (rewrite length_app; cbn; lia). apply app_nil_r.
Qed.

Lemma nth_error_last {A} (l : list A) (a : A) : nth_error (l ++ [a]) (length l) = Some a.
Proof. rewrite nth_error_app2 by lia. now rewrite Nat.sub_diag. Qed.

(** X13.  One round of the listener, then the thread it created.  When the
    kernel fails [accept] only with errors that [Accept] retries and the
    heap has room, the process runs on, and afterwards
    - the peer that waited first has been accepted, on a descriptor [c]
      that was not open before, and has received 64 bytes;
    - the descriptor table is what it was, so [c] is closed again, and no
      thread waits that did not wait before;
    - no other stream has received or lost anything. *)
Theorem connection_served_and_released :
  forall (fuel : nat) (lsocket : Z) (w : World),
    forallb accept_retries (script w) = true -> is_open lsocket w = true ->
    0 < heap w -> heap w + 15 <= heap_end w ->
    Z.of_nat (length (fdtab w)) < 2 ^ 31 ->
    (length (script w) < fuel)%nat -> (12 <= fuel)%nat ->
    exists w' c,
      proc_run fuel lsocket (Running w) [Listener; Handler (length (pool w))] = Running w' /\
      is_open c w = false /\
      length (out w' c) = 64%nat /\
      peers w' = tl (peers w) /\
      fdtab w' = fdtab w /\ pool w' = pool w /\
      (forall fd, fd <> c -> out w' fd = out w fd /\ inp w' fd = inp w fd).
Proof.
  intros fuel lsocket w Hsc Ho Hh Hend Htab Hf Hf'.
  destruct (accept_dispatch_serves fuel lsocket w Hsc Ho Hh ltac:(lia) Htab Hf)
    as (w1 & HD & Hs1 & Hfd1 & Hin1 & Hout1 & Hp1 & Hpool1 & Hm1 & Hh1 & He1).
  set (c := fresh_fd (fdtab w)) in *.
  pose proof (fresh_fd_nonneg (fdtab w)) as Hc0.
  pose proof (fresh_fd_le (fdtab w)) as Hc1. fold c in Hc0, Hc1.
  set (w2 := set_pool (remove_nth (length (pool w)) (pool w1)) w1).
  assert (Harg : load_int (mem w2) (heap w) = c).
  { unfold w2. cbn [mem set_pool]. rewrite Hm1. apply load_int_store_int. lia. }
  destruct (serve_client_at_peace fuel (heap w) w2) as
    (w' & w5 & j & HR & Hout & _ & _ & _ & _ & _ & Hfd & _ & Hin & Hpe & Hpool & _).
  { exact Hs1. }
  { rewrite Harg. unfold is_open, w2. cbn [fdtab set_pool]. rewrite Hfd1.
    cbn [existsb]. now rewrite Z.eqb_refl. }
  { unfold w2. cbn [heap set_pool]. lia. }
  { unfold w2. cbn [heap heap_end set_pool]. lia. }
  { exact Hf'. }
  rewrite Harg in Hout, Hfd.
  exists w', c. split.
  - unfold proc_run. cbn [fold_left proc_step]. rewrite HD. cbn [finish proc_step].
    rewrite Hpool1 at 1. rewrite nth_error_last. fold w2. rewrite HR. reflexivity.
  - unfold w2 in Hout, Hfd, Hin, Hpe, Hpool. cbn [out fdtab inp peers pool set_pool] in *.
    split; [apply fresh_fd_not_open|].
    split.
    { rewrite Hout, upd_same, Hout1, upd_same. cbn [app]. apply load_bytes_length. }
    split; [congruence|].
    split.
    { rewrite Hfd, Hfd1. cbn [filter]. rewrite Z.eqb_refl. cbn [negb].
      apply filter_absent. apply fresh_fd_not_open. }
    split; [rewrite Hpool, Hpool1; apply remove_nth_last|].
    intros fd Hne. rewrite Hout, Hin, Hout1, Hin1.
    split; [rewrite upd_other by exact Hne|]; apply upd_other; exact Hne.
Qed.

Lemma connection_served_and_released_witness :
  exists w' c,
    proc_run 70 3 (Running w_knock) [Listener; Handler (length (pool w_knock))] = Running w' /\
    is_open c w_knock = false /\
    length (out w' c) = 64%nat /\
    peers w' = tl (peers w_knock) /\
    fdtab w' = fdtab w_knock /\ pool w' = pool w_knock /\
    (forall fd, fd <> c -> out w' fd = out w_knock fd /\ inp w' fd = inp w_knock fd).
Proof.
  apply (connection_served_and_released 70 3 w_knock); try reflexivity.
  - discriminate.
  - cbn. lia.
  - lia.
Defined.

(** ** The relay of client.c when no write is short *)

Lemma script_suffix_ret {A} (a : A) (w : World) : script_suffix w (ret a w).
Proof. now exists []. Qed.

Lemma script_suffix_error {A} (msg : string) (w : World) : script_suffix w (@error A msg w).
Proof. now exists []. Qed.

Lemma script_suffix_after {A} (w w1 : World) (o : outcome A) :
  (exists used, script w = used ++ script w1) ->
  script_suffix w1 o -> script_suffix w o.
Proof.
  intros (u1 & H1). destruct o; cbn; auto; intros (u2 & H2);
    exists (u1 ++ u2); rewrite H1, H2; now rewrite app_assoc.
Qed.

Lemma script_suffix_bind {A B} (m : M A) (k : A -> M B) (w : World) :
  script_suffix w (m w) ->
  (forall a w1, script_suffix w1 (k a w1)) ->
  script_suffix w (bind m k w).
Proof.
  intros Hm Hk. unfold bind. destruct (m w) as [a w1|msg w1|]; cbn in *; auto.
  apply (script_suffix_after w w1); auto.
Qed.

Lemma sys_read_suffix (fd buf count : Z) (w : World) :
  exists used, script w = used ++ script (snd (sys_read fd buf count w)).
Proof.
  unfold sys_read, next_event. destruct (script w) as [|ev sc] eqn:E.
  - exists []. destruct (is_open fd w); cbn; now rewrite E.
  - exists [ev]. destruct ev; try destruct (is_open fd (set_script sc w)); reflexivity.
Qed.

Lemma sys_write_suffix (fd buf count : Z) (w : World) :
  exists used, script w = used ++ script (snd (sys_write fd buf count w)).
Proof.
  unfold sys_write, next_event. destruct (script w) as [|ev sc] eqn:E.
  - exists []. destruct (is_open fd w); cbn; now rewrite E.
  - exists [ev]. destruct ev; try destruct (is_open fd (set_script sc w)); reflexivity.
Qed.

Lemma sys_select_suffix (n readfds : Z) (w : World) :
  exists used, script w = used ++ script (snd (sys_select n readfds w)).
Proof.
  unfold sys_select, next_event. destruct (script w) as [|ev sc] eqn:E.
  - exists []. destruct (all_open n readfds w); cbn; now rewrite E.
  - exists [ev]. destruct ev; try destruct (all_open n readfds (set_script sc w)); reflexivity.
Qed.

Lemma Read_suffix (f : nat) (fd buf count : Z) :
  forall w, script_suffix w (Read f fd buf count w).
Proof.
  induction f as [|f IH]; intros w; [exact I|].
  cbn [Read]. unfold bind, lift.
  pose proof (sys_read_suffix fd buf count w) as Hs.
  destruct (sys_read fd buf count w) as [rc w1]. cbn [snd] in Hs.
  apply (script_suffix_after w w1 _ Hs).
  destruct (negb (rc =? -1)); [apply script_suffix_ret|].
  unfold get_errno. destruct (errno w1 =? EINTR); [apply IH | apply script_suffix_error].
Qed.

Lemma Write_suffix (f : nat) (fd buf count : Z) :
  forall w, script_suffix w (Write f fd buf count w).
Proof.
  induction f as [|f IH]; intros w; [exact I|].
  cbn [Write]. unfold bind, lift.
  pose proof (sys_write_suffix fd buf count w) as Hs.
  destruct (sys_write fd buf count w) as [rc w1]. cbn [snd] in Hs.
  apply (script_suffix_after w w1 _ Hs).
  destruct (negb (rc =? -1)); [apply script_suffix_ret|].
  unfold get_errno. destruct (errno w1 =? EINTR); [apply IH | apply script_suffix_error].
Qed.

Lemma client_writen_loop_suffix (F : nat) (socket : Z) :
  forall p n w, script_suffix w (Client.writen_loop F socket p n w).
Proof.
  induction F as [|F IH]; intros p n w; [exact I|].
  cbn [Client.writen_loop]. destruct (n =? 0); [apply script_suffix_ret|].
  apply script_suffix_bind; [apply Write_suffix|]. intros rc w1. apply IH.
Qed.

Lemma unshort_suffix (n : Z) (used sc : list os_event) :
  unshort n (used ++ sc) = true -> unshort n sc = true.
Proof. unfold unshort. rewrite forallb_app. intros H. now apply andb_true_iff in H. Qed.

Lemma unshort_mono (n m : Z) (sc : list os_event) :
  n <= m -> unshort m sc = true -> unshort n sc = true.
Proof.
  intros Hnm. induction sc as [|ev sc IH]; [reflexivity|]. cbn [unshort forallb].
  intros H. apply andb_true_iff in H as [H1 H2]. apply andb_true_iff. split; [|now apply IH].
  destruct ev as [e|k|r]; cbn [unshort_event] in *; auto.
  apply Z.leb_le in H1. apply Z.leb_le. lia.
Qed.

Lemma unshort_serving (n : Z) (sc : list os_event) :
  unshort n sc = true -> unshort n (snd (serving sc)) = true.
Proof.
  induction sc as [|[e|k|m] sc IH]; cbn [serving unshort forallb snd]; auto;
    intros H; apply andb_true_iff in H as [_ H]; auto.
Qed.

Lemma serving_shorter (sc : list os_event) :
  sc <> [] -> (length (snd (serving sc)) < length sc)%nat.
Proof.
  intros H. destruct sc as [|ev sc]; [congruence|].
  pose proof (serving_length sc).
  destruct ev; cbn [serving snd length]; lia.
Qed.

Lemma suffix_length {A} (used l l' : list A) : l = used ++ l' -> (length l' <= length l)%nat.
Proof. intros ->. rewrite length_app. lia. Qed.

Lemma Select_suffix (f : nat) (n : Z) :
  forall readfds w, script_suffix w (Client.Select f n readfds w).
Proof.
  induction f as [|f IH]; intros readfds w; [exact I|].
  cbn [Client.Select]. unfold bind, lift.
  pose proof (sys_select_suffix n readfds w) as Hs.
  destruct (sys_select n readfds w) as [r w1]. cbn [snd] in Hs.
  apply (script_suffix_after w w1 _ Hs).
  destruct (negb (fst r =? -1)); [apply script_suffix_ret|].
  unfold get_errno. destruct (errno w1 =? EINTR); [apply IH | apply script_suffix_error].
Qed.

Lemma client_writen_suffix (fuel : nat) (socket buf count : Z) (w : World) :
  script_suffix w (Client.writen fuel socket buf count w).
Proof.
  unfold Client.writen. apply script_suffix_bind.
  - destruct (buf =? NULL); [|apply script_suffix_ret].
    apply script_suffix_bind; [now exists [] | intros; apply script_suffix_error].
  - intros _ w1. apply script_suffix_bind; [apply client_writen_loop_suffix|].
    intros; apply script_suffix_ret.
Qed.

Lemma stdin_half_suffix (f : nat) (s socket ready : Z) (w : World) :
  script_suffix w
    ((if FD_ISSET STDIN_FILENO ready then
        rc <- Read f STDIN_FILENO s MAXLINE ;;
        let rc := to_ssize_t rc in
        if rc =? 0 then ret true
        else Client.writen f socket s (to_size_t rc) ;;; ret false
      else ret false) w).
Proof.
  destruct (FD_ISSET STDIN_FILENO ready); [|apply script_suffix_ret].
  apply script_suffix_bind; [apply Read_suffix|]. intros rc w2. cbv zeta.
  destruct (to_ssize_t rc =? 0); [apply script_suffix_ret|].
  apply script_suffix_bind; [apply client_writen_suffix | intros; apply script_suffix_ret].
Qed.

Lemma socket_half_suffix (f : nat) (s socket ready : Z) (w : World) :
  script_suffix w
    ((if FD_ISSET socket ready then
        rc <- Read f socket s MAXLINE ;;
        let rc := to_ssize_t rc in
        if rc =? 0 then ret true
        else Write f STDOUT_FILENO s (to_size_t rc) ;;; ret false
      else ret false) w).
Proof.
  destruct (FD_ISSET socket ready); [|apply script_suffix_ret].
  apply script_suffix_bind; [apply Read_suffix|]. intros rc w2. cbv zeta.
  destruct (to_ssize_t rc =? 0); [apply script_suffix_ret|].
  apply script_suffix_bind; [apply Write_suffix | intros; apply script_suffix_ret].
Qed.

(** The second half of a round when no write is short: the [k] bytes
    drained from the connection all reach local output. *)
Lemma socket_half_unshort (f : nat) (s socket ready : Z) (w3 : World) :
  socket <> STDOUT_FILENO ->
  is_open socket w3 = true -> is_open STDOUT_FILENO w3 = true ->
  unshort MAXLINE (script w3) = true -> (length (script w3) + 1 < f)%nat ->
  exists (k : nat) (brk : bool) (w5 : World),
    (if FD_ISSET socket ready then
       rc <- Read f socket s MAXLINE ;;
       let rc := to_ssize_t rc in
       if rc =? 0 then ret true
       else Write f STDOUT_FILENO s (to_size_t rc) ;;; ret false
     else ret false) w3 = Ret brk w5 /\
    (k <= length (inp w3 socket))%nat /\
    (FD_ISSET socket ready = true -> inp w3 socket <> [] -> (1 <= k)%nat) /\
    brk = FD_ISSET socket ready && (k =? 0)%nat /\
    out w5 STDOUT_FILENO = out w3 STDOUT_FILENO ++ firstn k (inp w3 socket) /\
    (forall fd, fd <> STDOUT_FILENO -> out w5 fd = out w3 fd) /\
    inp w5 socket = skipn k (inp w3 socket) /\
    (forall fd, fd <> socket -> inp w5 fd = inp w3 fd) /\
    fdtab w5 = fdtab w3.
Proof.
  intros Hne Ho Ho1 Hu Hf.
  pose proof (unshort_quiet _ _ Hu) as Hq.
  destruct (FD_ISSET socket ready).
  - destruct (Read_quiet f socket s MAXLINE w3 Ho Hq ltac:(lia)
                ltac:(unfold MAXLINE, SIZE_MOD; lia))
      as (k & w4 & HR & Hk & Hk' & Hk'' & Hm4 & Hi4 & Hou4 & Hfd4 & Hq4 & Hl4).
    change (Z.to_nat MAXLINE) with 256%nat in Hk.
    pose proof (Read_suffix f socket s MAXLINE w3) as Hsuf. rewrite HR in Hsuf.
    destruct Hsuf as (used & Hused).
    rewrite (bind_eq _ _ _ _ _ HR). cbv zeta.
    rewrite to_ssize_t_small by lia.
    destruct k as [|k'].
    + exists 0%nat, true, w4. cbn [Z.of_nat Z.eqb firstn skipn] in *. unfold ret.
      rewrite app_nil_r. conjs; auto; try lia; try congruence.
      * intros _ Hne'. specialize (Hk'' ltac:(unfold MAXLINE; lia) Hne'). lia.
      * rewrite Hi4. apply upd_same.
      * intros fd Hfd. rewrite Hi4. now apply upd_other.
    + set (k := S k') in *.
      assert (Ho4 : is_open STDOUT_FILENO w4 = true) by (unfold is_open in *; now rewrite Hfd4).
      assert (Hu4 : unshort (Z.of_nat k) (script w4) = true).
      { apply (unshort_mono _ MAXLINE); [unfold MAXLINE; lia|].
        apply (unshort_suffix _ used). now rewrite <- Hused. }
      rewrite to_size_t_small by (unfold SIZE_MOD; lia).
      destruct (Write_unshort f STDOUT_FILENO s (Z.of_nat k) w4 Ho4 Hu4 ltac:(lia)
                  ltac:(unfold SIZE_MOD; lia))
        as (w5 & HW & Hout & Hoth & Hm5 & Hi5 & Hfd5).
      replace (Z.of_nat k =? 0) with false by (symmetry; apply Z.eqb_neq; lia).
      unfold bind at 1. rewrite HW. unfold ret.
      exists k, false, w5. conjs; auto; try lia; try congruence.
      * rewrite Hout, Hou4, Hm4, Nat2Z.id. f_equal.
        rewrite <- (load_store_bytes (firstn k (inp w3 socket)) (mem w3) s) at 2.
        f_equal. rewrite length_firstn. lia.
      * intros fd Hfd. rewrite (Hoth fd Hfd). now rewrite Hou4.
      * rewrite Hi5, Hi4. apply upd_same.
      * intros fd Hfd. rewrite Hi5, Hi4. now apply upd_other.
  - exists 0%nat, false, w3. unfold ret. cbn [firstn skipn]. rewrite app_nil_r.
    conjs; auto; try lia; discriminate.
Qed.

Lemma round_ready_nil (socket : Z) :
  0 <= socket -> FD_ISSET STDIN_FILENO (round_ready [] socket) = true.
Proof.
  intros H. unfold round_ready, FD_ISSET, watched. cbn [serving fst reported].
  rewrite Z.land_spec, testbit_watched by (unfold STDIN_FILENO; lia).
  rewrite Z.ones_spec_low by (unfold STDIN_FILENO; lia). reflexivity.
Qed.

(** One round when no write is short: what is drained from either side
    reaches the other whole, and a round that does not end the loop has
    used up an event of the script or a byte of local input. *)
Lemma round_unshort (fuel : nat) (s socket : Z) (w : World) :
  s <> NULL -> 1 < socket ->
  is_open STDIN_FILENO w = true -> is_open STDOUT_FILENO w = true ->
  is_open socket w = true ->
  unshort MAXLINE (script w) = true -> (length (script w) + 257 < fuel)%nat ->
  exists (k1 k2 : nat) (brk : bool) (w' : World),
    Client.do_work_round fuel s socket (socket + 1) w = Ret brk w' /\
    out w' socket = out w socket ++ firstn k1 (inp w STDIN_FILENO) /\
    inp w' STDIN_FILENO = skipn k1 (inp w STDIN_FILENO) /\
    out w' STDOUT_FILENO = out w STDOUT_FILENO ++ firstn k2 (inp w socket) /\
    inp w' socket = skipn k2 (inp w socket) /\
    (forall fd, fd <> socket -> fd <> STDOUT_FILENO -> out w' fd = out w fd) /\
    (forall fd, fd <> STDIN_FILENO -> fd <> socket -> inp w' fd = inp w fd) /\
    fdtab w' = fdtab w /\
    unshort MAXLINE (script w') = true /\
    (length (script w') <= length (script w))%nat /\
    (brk = true -> inp w' STDIN_FILENO = [] \/ inp w' socket = []) /\
    (brk = false ->
     (length (script w') + length (inp w' STDIN_FILENO) <
      length (script w) + length (inp w STDIN_FILENO))%nat).
Proof.
  intros Hs Hsock Ho0 Ho1 Ho Hu Hf.
  pose proof (unshort_quiet _ _ Hu) as Hq.
  assert (Hn0 : socket <> STDIN_FILENO) by (unfold STDIN_FILENO; lia).
  assert (Hn1 : socket <> STDOUT_FILENO) by (unfold STDOUT_FILENO; lia).
  pose proof (watched_all_open socket w ltac:(lia) Ho0 Ho) as Hall.
  destruct (Select_quiet fuel (socket + 1) _ w Hq ltac:(lia) Hall)
    as (w1 & HS & Hsc1 & Hm1 & Hi1 & Hou1 & Hfd1 & _).
  fold (watched socket) in HS. fold (round_ready (script w) socket) in HS.
  pose proof (serving_length (script w)) as Hlen.
  assert (Hu1 : unshort MAXLINE (script w1) = true) by (rewrite Hsc1; now apply unshort_serving).
  pose proof (unshort_quiet _ _ Hu1) as Hq1.
  assert (Ho0' : is_open STDIN_FILENO w1 = true) by (unfold is_open in *; now rewrite Hfd1).
  assert (Ho' : is_open socket w1 = true) by (unfold is_open in *; now rewrite Hfd1).
  set (ready := round_ready (script w) socket) in *.
  destruct (stdin_half fuel s socket ready w1 Hs Hn0 Ho0' Ho' Hq1 ltac:(rewrite Hsc1; lia))
    as (k1 & b1 & w3 & H1 & Hk1 & Hk1' & Hk1'' & Hk1n & Hb1 & Hout3 & Hoth3 & Hin3 & Hinoth3
          & Hfd3 & Hq3 & Hl3).
  pose proof (stdin_half_suffix fuel s socket ready w1) as Hsuf3. rewrite H1 in Hsuf3.
  destruct Hsuf3 as (used3 & Hused3).
  assert (Hu3 : unshort MAXLINE (script w3) = true)
    by (apply (unshort_suffix _ used3); now rewrite <- Hused3).
  assert (Hr0 : FD_ISSET STDIN_FILENO ready = false -> script w <> []).
  { intros Hr Hnil. unfold ready in Hr. rewrite Hnil, round_ready_nil in Hr by lia.
    discriminate. }
  unfold Client.do_work_round. fold (watched socket).
  rewrite (bind_eq _ _ _ _ _ HS). cbn [snd].
  rewrite (bind_eq _ _ _ _ _ H1).
  rewrite Hi1 in *. rewrite Hou1 in *.
  destruct b1.
  - exists k1, 0%nat, true, w3. unfold ret. cbn [firstn skipn]. rewrite app_nil_r.
    symmetry in Hb1. apply andb_true_iff in Hb1 as [Hb1 Hb1'].
    apply Nat.eqb_eq in Hb1'. subst k1. cbn [skipn] in Hin3.
    split; [reflexivity|]. split; [exact Hout3|]. split; [exact Hin3|].
    split; [apply Hoth3; unfold STDOUT_FILENO; lia|].
    split; [apply Hinoth3; exact Hn0|].
    split; [intros fd Hfd _; now apply Hoth3|].
    split; [intros fd Hfd _; now apply Hinoth3|].
    split; [congruence|]. split; [exact Hu3|].
    split; [rewrite Hsc1 in Hl3; lia|].
    split; [|discriminate].
    intros _. left. rewrite Hin3.
    destruct (inp w STDIN_FILENO) eqn:E; [reflexivity|].
    specialize (Hk1'' Hb1 ltac:(discriminate)). lia.
  - assert (Ho3 : is_open socket w3 = true) by (unfold is_open in *; now rewrite Hfd3, Hfd1).
    assert (Ho13 : is_open STDOUT_FILENO w3 = true)
      by (unfold is_open in *; now rewrite Hfd3, Hfd1).
    destruct (socket_half_unshort fuel s socket ready w3 Hn1 Ho3 Ho13 Hu3
                ltac:(rewrite Hsc1 in Hl3; lia))
      as (k2 & b2 & w5 & H2 & Hk2' & Hk2'' & Hb2 & Hout5 & Hoth5 & Hin5 & Hinoth5 & Hfd5).
    pose proof (socket_half_suffix fuel s socket ready w3) as Hsuf5. rewrite H2 in Hsuf5.
    destruct Hsuf5 as (used5 & Hused5).
    pose proof (suffix_length _ _ _ Hused5) as Hl5.
    cbv iota zeta. cbv zeta in H2. rewrite H2.
    rewrite (Hinoth3 socket Hn0) in *.
    exists k1, k2, b2, w5.
    split; [reflexivity|].
    split; [rewrite (Hoth5 socket Hn1); exact Hout3|].
    split; [rewrite (Hinoth5 STDIN_FILENO) by (unfold STDIN_FILENO; lia); exact Hin3|].
    split; [rewrite Hout5; f_equal; apply Hoth3; unfold STDOUT_FILENO; lia|].
    split; [exact Hin5|].
    split; [intros fd Hfd Hfd'; rewrite Hoth5 by exact Hfd'; now apply Hoth3|].
    split; [intros fd Hfd Hfd'; rewrite Hinoth5 by exact Hfd'; now apply Hinoth3|].
    split; [congruence|].
    split; [apply (unshort_suffix _ used5); now rewrite <- Hused5|].
    split; [rewrite Hsc1 in Hl3; lia|].
    split.
    + intros ->. right. symmetry in Hb2. apply andb_true_iff in Hb2 as [Hb2 Hb2'].
      apply Nat.eqb_eq in Hb2'. subst k2. rewrite Hin5. cbn [skipn].
      destruct (inp w socket) eqn:E; [reflexivity|].
      specialize (Hk2'' Hb2 ltac:(discriminate)). lia.
    + intros _.
      rewrite (Hinoth5 STDIN_FILENO) by (unfold STDIN_FILENO; lia).
      rewrite Hin3, length_skipn. rewrite Hsc1 in Hl3.
      destruct (FD_ISSET STDIN_FILENO ready) eqn:Er.
      * cbn [andb] in Hb1. symmetry in Hb1. apply Nat.eqb_neq in Hb1. lia.
      * pose proof (serving_shorter _ (Hr0 eq_refl)). lia.
Qed.

Lemma firstn_add_skipn {A} (k k' : nat) :
  forall l : list A, firstn k l ++ firstn k' (skipn k l) = firstn (k + k') l.
Proof.
  induction k as [|k IH]; intros l; [reflexivity|].
  destruct l as [|a l]; [cbn; now rewrite firstn_nil|].
  cbn [firstn skipn Nat.add app]. now rewrite IH.
Qed.

Lemma do_work_loop_unshort (s socket : Z) (F : nat) :
  forall w,
    s <> NULL -> 1 < socket ->
    is_open STDIN_FILENO w = true -> is_open STDOUT_FILENO w = true ->
    is_open socket w = true ->
    unshort MAXLINE (script w) = true ->
    (length (script w) + length (inp w STDIN_FILENO) + 258 < F)%nat ->
    exists (ka kb : nat) (w' : World),
      Client.do_work_loop F s socket (socket + 1) w = Ret tt w' /\
      out w' socket = out w socket ++ firstn ka (inp w STDIN_FILENO) /\
      inp w' STDIN_FILENO = skipn ka (inp w STDIN_FILENO) /\
      out w' STDOUT_FILENO = out w STDOUT_FILENO ++ firstn kb (inp w socket) /\
      inp w' socket = skipn kb (inp w socket) /\
      (forall fd, fd <> socket -> fd <> STDOUT_FILENO -> out w' fd = out w fd) /\
      (forall fd, fd <> STDIN_FILENO -> fd <> socket -> inp w' fd = inp w fd) /\
      fdtab w' = fdtab w /\
      (length (script w') <= length (script w))%nat /\
      (inp w' STDIN_FILENO = [] \/ inp w' socket = []).
Proof.
  induction F as [|f IH]; intros w Hs Hsock Ho0 Ho1 Ho Hu HF; [inversion HF|].
  destruct (round_unshort f s socket w Hs Hsock Ho0 Ho1 Ho Hu ltac:(lia))
    as (k1 & k2 & brk & w1 & HR & Hout & Hin & Hout1 & Hin1 & Hoth & Hinoth & Hfd & Hu1
          & Hl1 & Hbrk & Hmeasure).
  cbn [Client.do_work_loop]. rewrite (bind_eq _ _ _ _ _ HR).
  destruct brk.
  - exists k1, k2, w1. unfold ret. conjs; auto.
  - specialize (Hmeasure eq_refl).
    destruct (IH w1) as (ka & kb & w' & HL & Hout' & Hin' & Hout1' & Hin1' & Hoth' & Hinoth'
                           & Hfd' & Hl' & Hend); auto;
      try (unfold is_open in *; now rewrite Hfd); try lia.
    exists (k1 + ka)%nat, (k2 + kb)%nat, w'.
    split; [exact HL|].
    split; [rewrite Hout', Hout, Hin, <- app_assoc; f_equal; apply firstn_add_skipn|].
    split; [rewrite Hin', Hin, skipn_skipn; f_equal; lia|].
    split; [rewrite Hout1', Hout1, Hin1, <- app_assoc; f_equal; apply firstn_add_skipn|].
    split; [rewrite Hin1', Hin1, skipn_skipn; f_equal; lia|].
    split; [intros fd H1 H2; rewrite Hoth' by assumption; now apply Hoth|].
    split; [intros fd H1 H2; rewrite Hinoth' by assumption; now apply Hinoth|].
    split; [congruence|]. split; [lia | exact Hend].
Qed.

Lemma do_work_unshort (fuel : nat) (s socket : Z) (w : World) :
  s <> NULL -> 1 < socket ->
  is_open STDIN_FILENO w = true -> is_open STDOUT_FILENO w = true ->
  is_open socket w = true ->
  unshort MAXLINE (script w) = true ->
  (length (script w) + length (inp w STDIN_FILENO) + 258 < fuel)%nat ->
  exists (ka kb : nat) (w' : World),
    Client.do_work fuel s socket w = Ret tt w' /\
    out w' socket = out w socket ++ firstn ka (inp w STDIN_FILENO) /\
    inp w' STDIN_FILENO = skipn ka (inp w STDIN_FILENO) /\
    out w' STDOUT_FILENO = out w STDOUT_FILENO ++ firstn kb (inp w socket) /\
    inp w' socket = skipn kb (inp w socket) /\
    (forall fd, fd <> socket -> fd <> STDOUT_FILENO -> out w' fd = out w fd) /\
    (forall fd, fd <> STDIN_FILENO -> fd <> socket -> inp w' fd = inp w fd) /\
    fdtab w' = fdtab w /\
    (length (script w') <= length (script w))%nat /\
    (inp w' STDIN_FILENO = [] \/ inp w' socket = []).
Proof.
  intros Hs Hsock Ho0 Ho1 Ho Hu Hf.
  unfold Client.do_work. rewrite max_fd by lia.
  now apply do_work_loop_unshort.
Qed.

(** ** What the relay leaves alone *)

Section Kept.

Context {X : Type} (f : World -> X).
Hypothesis f_script : forall v w, f (set_script v w) = f w.
Hypothesis f_errno : forall v w, f (set_errno v w) = f w.
Hypothesis f_mem : forall v w, f (set_mem v w) = f w.
Hypothesis f_inp : forall v w, f (set_inp v w) = f w.
Hypothesis f_out : forall v w, f (set_out v w) = f w.
Hypothesis f_trace : forall v w, f (set_trace v w) = f w.

Lemma keeps_ret {A} (a : A) (w : World) : keeps f w (ret a w).
Proof. reflexivity. Qed.

Lemma keeps_error {A} (msg : string) (w : World) : keeps f w (@error A msg w).
Proof. reflexivity. Qed.

Lemma keeps_after {A} (w w1 : World) (o : outcome A) :
  f w1 = f w -> keeps f w1 o -> keeps f w o.
Proof. intros H. destruct o; cbn; auto; intros H1; congruence. Qed.

Lemma keeps_bind {A B} (m : M A) (k : A -> M B) (w : World) :
  keeps f w (m w) -> (forall a w1, keeps f w1 (k a w1)) -> keeps f w (bind m k w).
Proof.
  intros Hm Hk. unfold bind. destruct (m w) as [a w1|msg w1|]; cbn in *; auto.
  apply (keeps_after w w1); auto.
Qed.

Lemma next_event_keeps (w : World) : f (snd (next_event w)) = f w.
Proof. unfold next_event. destruct (script w); cbn [snd]; auto. Qed.

Lemma sys_read_keeps (fd buf count : Z) (w : World) : f (snd (sys_read fd buf count w)) = f w.
Proof.
  unfold sys_read. pose proof (next_event_keeps w) as H.
  destruct (next_event w) as [ev w1]. cbn [snd] in H.
  destruct ev as [[e|k|m]|]; try destruct (is_open fd w1); cbn [snd]; unfold log;
    now rewrite ?f_trace, ?f_inp, ?f_mem, ?f_errno.
Qed.

Lemma sys_write_keeps (fd buf count : Z) (w : World) : f (snd (sys_write fd buf count w)) = f w.
Proof.
  unfold sys_write. pose proof (next_event_keeps w) as H.
  destruct (next_event w) as [ev w1]. cbn [snd] in H.
  destruct ev as [[e|k|m]|]; try destruct (is_open fd w1); cbn [snd]; unfold log;
    now rewrite ?f_trace, ?f_out, ?f_errno.
Qed.

Lemma sys_select_keeps (n readfds : Z) (w : World) : f (snd (sys_select n readfds w)) = f w.
Proof.
  unfold sys_select. pose proof (next_event_keeps w) as H.
  destruct (next_event w) as [ev w1]. cbn [snd] in H.
  destruct ev as [[e|k|m]|]; try destruct (all_open n readfds w1); cbn [snd]; unfold log;
    now rewrite ?f_trace, ?f_errno.
Qed.

Lemma Read_keeps (fuel : nat) (fd buf count : Z) :
  forall w, keeps f w (Read fuel fd buf count w).
Proof.
  induction fuel as [|fu IH]; intros w; [exact I|].
  cbn [Read]. unfold bind, lift.
  pose proof (sys_read_keeps fd buf count w) as Hs.
  destruct (sys_read fd buf count w) as [rc w1]. cbn [snd] in Hs.
  apply (keeps_after w w1 _ Hs).
  destruct (negb (rc =? -1)); [apply keeps_ret|].
  unfold get_errno. destruct (errno w1 =? EINTR); [apply IH | apply keeps_error].
Qed.

Lemma Write_keeps (fuel : nat) (fd buf count : Z) :
  forall w, keeps f w (Write fuel fd buf count w).
Proof.
  induction fuel as [|fu IH]; intros w; [exact I|].
  cbn [Write]. unfold bind, lift.
  pose proof (sys_write_keeps fd buf count w) as Hs.
  destruct (sys_write fd buf count w) as [rc w1]. cbn [snd] in Hs.
  apply (keeps_after w w1 _ Hs).
  destruct (negb (rc =? -1)); [apply keeps_ret|].
  unfold get_errno. destruct (errno w1 =? EINTR); [apply IH | apply keeps_error].
Qed.

Lemma Select_keeps (fuel : nat) (n : Z) :
  forall readfds w, keeps f w (Client.Select fuel n readfds w).
Proof.
  induction fuel as [|fu IH]; intros readfds w; [exact I|].
  cbn [Client.Select]. unfold bind, lift.
  pose proof (sys_select_keeps n readfds w) as Hs.
  destruct (sys_select n readfds w) as [r w1]. cbn [snd] in Hs.
  apply (keeps_after w w1 _ Hs).
  destruct (negb (fst r =? -1)); [apply keeps_ret|].
  unfold get_errno. destruct (errno w1 =? EINTR); [apply IH | apply keeps_error].
Qed.

Lemma client_writen_loop_keeps (fuel : nat) (socket : Z) :
  forall p n w, keeps f w (Client.writen_loop fuel socket p n w).
Proof.
  induction fuel as [|fu IH]; intros p n w; [exact I|].
  cbn [Client.writen_loop]. destruct (n =? 0); [apply keeps_ret|].
  apply keeps_bind; [apply Write_keeps|]. intros rc w1. apply IH.
Qed.

Lemma client_writen_keeps (fuel : nat) (socket buf count : Z) (w : World) :
  keeps f w (Client.writen fuel socket buf count w).
Proof.
  unfold Client.writen. apply keeps_bind.
  - destruct (buf =? NULL); [|apply keeps_ret].
    apply keeps_bind; [apply f_errno | intros; apply keeps_error].
  - intros _ w1. apply keeps_bind; [apply client_writen_loop_keeps|].
    intros; apply keeps_ret.
Qed.

Lemma do_work_round_keeps (fuel : nat) (s socket n : Z) (w : World) :
  keeps f w (Client.do_work_round fuel s socket n w).
Proof.
  unfold Client.do_work_round.
  apply keeps_bind; [apply Select_keeps|]. intros r w1. cbv zeta.
  apply keeps_bind.
  - destruct (FD_ISSET STDIN_FILENO (snd r)); [|apply keeps_ret].
    apply keeps_bind; [apply Read_keeps|]. intros rc w2.
    destruct (to_ssize_t rc =? 0); [apply keeps_ret|].
    apply keeps_bind; [apply client_writen_keeps | intros; apply keeps_ret].
  - intros brk w2. destruct brk; [apply keeps_ret|].
    destruct (FD_ISSET socket (snd r)); [|apply keeps_ret].
    apply keeps_bind; [apply Read_keeps|]. intros rc w3.
    destruct (to_ssize_t rc =? 0); [apply keeps_ret|].
    apply keeps_bind; [apply Write_keeps | intros; apply keeps_ret].
Qed.

Lemma do_work_loop_keeps (s socket n : Z) (fuel : nat) :
  forall w, keeps f w (Client.do_work_loop fuel s socket n w).
Proof.
  induction fuel as [|fu IH]; intros w; [exact I|].
  cbn [Client.do_work_loop].
  apply keeps_bind; [apply do_work_round_keeps|]. intros brk w1.
  destruct brk; [apply keeps_ret | apply IH].
Qed.

Lemma do_work_keeps (fuel : nat) (s socket : Z) (w : World) :
  keeps f w (Client.do_work fuel s socket w).
Proof. apply do_work_loop_keeps. Qed.

End Kept.

(** ** [main] of client.c *)

Lemma Socket_at_peace (domain type protocol : Z) (w : World) :
  script w = [] ->
  Socket domain type protocol w =
  Ret (fresh_fd (fdtab w))
    (set_out (upd (out w) (fresh_fd (fdtab w)) []) (set_fdtab (fresh_fd (fdtab w) :: fdtab w) w)).
Proof.
  intros H. unfold Socket, bind, lift, sys_socket, next_event. rewrite H.
  pose proof (fresh_fd_nonneg (fdtab w)).
  replace (fresh_fd (fdtab w) =? -1) with false by (symmetry; apply Z.eqb_neq; lia).
  reflexivity.
Qed.

Lemma Connect_at_peace (printf : string -> World -> World) (socket addr addrlen : Z)
  (w : World) :
  script w = [] -> is_open socket w = true ->
  Client.Connect printf socket addr addrlen w =
  Ret tt (printf Client.connection_line
            (set_peers (tl (peers w)) (set_inp (upd (inp w) socket (hd [] (peers w))) w))).
Proof.
  intros H Ho. unfold Client.Connect, bind, lift, sys_connect, next_event. rewrite H, Ho.
  reflexivity.
Qed.

Lemma printf_buffered_stdio : stdio_call printf_buffered.
Proof. intros str w. unfold printf_buffered. conjs; auto. Qed.

Lemma printf_line_stdio : stdio_call printf_line.
Proof.
  intros str w. unfold printf_line.
  destruct (is_open STDOUT_FILENO w); cbn [script fdtab inp out peers trace set_out set_errno].
  - split; [reflexivity|]. split; [reflexivity|]. split; [reflexivity|].
    split; [reflexivity|]. split; [reflexivity|].
    split; [intros fd Hfd; now apply upd_other | right; apply upd_same].
  - conjs; auto.
Qed.

Lemma printf_buffered_errno : stdio_keeps_errno printf_buffered.
Proof. intros str w _. reflexivity. Qed.

Lemma printf_line_errno : stdio_keeps_errno printf_line.
Proof. intros str w H. unfold printf_line. now rewrite H. Qed.

Lemma Close_at_peace (f : nat) (fd : Z) (w : World) :
  script w = [] -> is_open fd w = true ->
  Close (S f) fd w =
  Ret tt (log (c_close fd 0) (set_fdtab (filter (fun x => negb (x =? fd)) (fdtab w)) w)).
Proof.
  intros H Ho. cbn [Close]. unfold bind, lift, sys_close, next_event. rewrite H, Ho.
  reflexivity.
Qed.

Lemma fresh_fd_above (tab : list Z) :
  existsb (Z.eqb 0) tab = true -> existsb (Z.eqb 1) tab = true -> 1 < fresh_fd tab.
Proof.
  intros H0 H1. pose proof (fresh_fd_nonneg tab). pose proof (fresh_fd_not_open tab) as Hn.
  destruct (Z.eq_dec (fresh_fd tab) 0) as [E|E]; [rewrite E in Hn; congruence|].
  destruct (Z.eq_dec (fresh_fd tab) 1) as [E'|E']; [rewrite E' in Hn; congruence|].
  lia.
Qed.

(** X15.  A whole session of the client, with the kernel at peace.  Let
    [printf] touch nothing but descriptor 1 and [errno].  Started with
    one argument that [inet_aton] accepts, with descriptors 0 and 1 open
    and fewer than [FD_SETSIZE] descriptors in all, [main] returns 0, and
    - it has connected to the peer that waited first, on a descriptor [c]
      that was not open before;
    - the peer has received a prefix of local input;
    - local output has received the line of [Connect], or nothing of it
      yet when [stdout] keeps it in its buffer, and then a prefix of
      what the peer sent;
    - local input or the connection is at its end;
    - the descriptor table is what it was: [c] is closed again. *)
Theorem client_session_at_peace :
  forall (printf : string -> World -> World) (inet_aton : string -> option (list Z))
         (fuel : nat) (servaddr s : Z) (argv1 : string) (bytes : list Z) (w : World),
    stdio_call printf ->
    inet_aton argv1 = Some bytes -> s <> NULL -> script w = [] ->
    is_open STDIN_FILENO w = true -> is_open STDOUT_FILENO w = true ->
    Z.of_nat (length (fdtab w)) < FD_SETSIZE ->
    (length (inp w STDIN_FILENO) + 258 < fuel)%nat ->
    exists (c : Z) (ka kb : nat) (printed : list Z) (w' : World),
      Client.main printf inet_aton fuel servaddr s 2 argv1 w = Ret 0 w' /\
      is_open c w = false /\
      (printed = [] \/ printed = bytes_of Client.connection_line) /\
      out w' c = firstn ka (inp w STDIN_FILENO) /\
      inp w' STDIN_FILENO = skipn ka (inp w STDIN_FILENO) /\
      out w' STDOUT_FILENO =
        out w STDOUT_FILENO ++ printed ++ firstn kb (hd [] (peers w)) /\
      inp w' c = skipn kb (hd [] (peers w)) /\
      (inp w' STDIN_FILENO = [] \/ inp w' c = []) /\
      peers w' = tl (peers w) /\
      fdtab w' = fdtab w.
Proof.
  intros printf inet_aton fuel servaddr s argv1 bytes w Hstdio Hinet Hs Hsc Ho0 Ho1 Hsize Hf.
  set (c := fresh_fd (fdtab w)).
  assert (Hc : 1 < c) by (apply fresh_fd_above; assumption).
  assert (Hc0 : c <> STDIN_FILENO) by (unfold STDIN_FILENO; lia).
  assert (Hc1 : c <> STDOUT_FILENO) by (unfold STDOUT_FILENO; lia).
  unfold Client.main. change (negb (2 =? 2)) with false. cbv iota.
  unfold bind at 1. unfold ret at 1.
  rewrite (bind_eq _ _ _ _ _ (Socket_at_peace PF_INET SOCK_STREAM 0 w Hsc)). fold c.
  unfold bind at 1. unfold memset at 1.
  unfold bind at 1. unfold poke16 at 1.
  unfold bind at 1. unfold poke16 at 1.
  unfold bind at 1. unfold Client.Inet_aton at 1. rewrite Hinet.
  match goal with |- context [Client.Connect printf c servaddr 16 ;;; _] =>
    match goal with |- exists _ _ _ _ _, bind _ _ ?w0 = _ /\ _ => set (w2 := w0) end end.
  assert (Hsc2 : script w2 = []) by exact Hsc.
  assert (Hfd2 : fdtab w2 = c :: fdtab w) by reflexivity.
  assert (Ho2 : is_open c w2 = true).
  { unfold is_open. rewrite Hfd2. cbn [existsb]. now rewrite Z.eqb_refl. }
  rewrite (bind_eq _ _ _ _ _ (Connect_at_peace printf c servaddr 16 w2 Hsc2 Ho2)).
  set (wc := set_peers _ _).
  destruct (Hstdio Client.connection_line wc) as (Hps & Hpf & Hpi & Hpp & _ & Hpo & Hp1).
  set (w3 := printf Client.connection_line wc) in *.
  change (script wc) with (script w) in Hps. rewrite Hsc in Hps.
  change (fdtab wc) with (c :: fdtab w) in Hpf.
  change (inp wc) with (upd (inp w) c (hd [] (peers w))) in Hpi.
  change (peers wc) with (tl (peers w)) in Hpp.
  assert (Hout3c : out w3 c = []).
  { rewrite (Hpo c Hc1). change (out wc c) with (upd (out w) c [] c). apply upd_same. }
  assert (Hprinted : exists printed,
             (printed = [] \/ printed = bytes_of Client.connection_line) /\
             out w3 STDOUT_FILENO = out w STDOUT_FILENO ++ printed).
  { change (out wc STDOUT_FILENO) with (upd (out w) c [] STDOUT_FILENO) in Hp1.
    rewrite upd_other in Hp1 by (intros E; now apply Hc1).
    destruct Hp1 as [Hp1|Hp1].
    - exists []. rewrite app_nil_r. auto.
    - exists (bytes_of Client.connection_line). auto. }
  destruct Hprinted as (printed & Hprinted & Hout31).
  assert (Hopen : forall fd, is_open fd w = true -> is_open fd w3 = true).
  { intros fd H. unfold is_open in *. rewrite Hpf. cbn [existsb]. rewrite H. apply orb_true_r. }
  assert (Ho3 : is_open c w3 = true).
  { unfold is_open. rewrite Hpf. cbn [existsb]. now rewrite Z.eqb_refl. }
  destruct (do_work_unshort fuel s c w3 Hs Hc (Hopen _ Ho0) (Hopen _ Ho1) Ho3)
    as (ka & kb & w4 & HD & Hout & Hin & Hout1 & Hin1 & _ & _ & Hfd4 & Hl4 & Hend).
  { now rewrite Hps. }
  { rewrite Hps, Hpi. rewrite upd_other by (intros E; now apply Hc0). cbn [length]. lia. }
  rewrite (bind_eq _ _ _ _ _ HD).
  rewrite Hps in Hl4. cbn [length] in Hl4.
  assert (Hsc4 : script w4 = []) by (destruct (script w4); [reflexivity | cbn in Hl4; lia]).
  assert (Ho4 : is_open c w4 = true).
  { unfold is_open. rewrite Hfd4, Hpf. cbn [existsb]. now rewrite Z.eqb_refl. }
  destruct fuel as [|f]; [lia|].
  rewrite (bind_eq _ _ _ _ _ (Close_at_peace f c w4 Hsc4 Ho4)).
  unfold ret.
  rewrite Hpi in Hout, Hin, Hout1, Hin1.
  rewrite upd_same in Hout1, Hin1.
  rewrite upd_other in Hout, Hin by (intros E; now apply Hc0).
  rewrite Hout3c in Hout. cbn [app] in Hout. rewrite Hout31 in Hout1.
  exists c, ka, kb, printed. eexists. split; [reflexivity|].
  cbn [out inp peers fdtab log set_trace set_fdtab].
  split; [apply fresh_fd_not_open|].
  split; [exact Hprinted|].
  split; [exact Hout|]. split; [exact Hin|].
  split; [rewrite Hout1; now rewrite app_assoc|].
  split; [exact Hin1|].
  split; [exact Hend|].
  split.
  - pose proof (do_work_keeps peers (fun _ _ => eq_refl) (fun _ _ => eq_refl)
                  (fun _ _ => eq_refl) (fun _ _ => eq_refl) (fun _ _ => eq_refl)
                  (fun _ _ => eq_refl) (S f) s c w3) as Hk.
    rewrite HD in Hk. cbn [keeps] in Hk. now rewrite Hk.
  - rewrite Hfd4, Hpf. cbn [filter].
    rewrite Z.eqb_refl. cbn [negb]. apply filter_absent. apply fresh_fd_not_open.
Qed.

Lemma client_session_at_peace_witness :
  exists (c : Z) (ka kb : nat) (printed : list Z) (w' : World),
    Client.main printf_line resolve_local 300 500 600 2 "127.0.0.1" w_dial = Ret 0 w' /\
    is_open c w_dial = false /\
    (printed = [] \/ printed = bytes_of Client.connection_line) /\
    out w' c = firstn ka (inp w_dial STDIN_FILENO) /\
    inp w' STDIN_FILENO = skipn ka (inp w_dial STDIN_FILENO) /\
    out w' STDOUT_FILENO =
      out w_dial STDOUT_FILENO ++ printed ++ firstn kb (hd [] (peers w_dial)) /\
    inp w' c = skipn kb (hd [] (peers w_dial)) /\
    (inp w' STDIN_FILENO = [] \/ inp w' c = []) /\
    peers w' = tl (peers w_dial) /\
    fdtab w' = fdtab w_dial.
Proof.
  apply (client_session_at_peace printf_line resolve_local 300 500 600 "127.0.0.1"
           [127; 0; 0; 1] w_dial);
    try reflexivity.
  - exact printf_line_stdio.
  - discriminate.
  - cbn. lia.
Defined.

Lemma Socket_failed (domain type protocol : Z) (w : World) (e : positive) (sc : list os_event) :
  script w = Fail e :: sc ->
  Socket domain type protocol w = Exit "socket()" (set_errno (Zpos e) (set_script sc w)).
Proof. intros H. unfold Socket, bind, lift, sys_socket, next_event. now rewrite H. Qed.

Lemma Socket_served (domain type protocol : Z) (w : World) (ev : os_event)
  (sc : list os_event) :
  script w = ev :: sc -> serves ev = true ->
  Socket domain type protocol w =
  Ret (fresh_fd (fdtab w))
    (set_out (upd (out w) (fresh_fd (fdtab w)) [])
       (set_fdtab (fresh_fd (fdtab w) :: fdtab w) (set_script sc w))).
Proof.
  intros H Hev. unfold Socket, bind, lift, sys_socket, next_event. rewrite H.
  pose proof (fresh_fd_nonneg (fdtab w)).
  destruct ev; try discriminate; cbn [fdtab out set_script];
    replace (fresh_fd (fdtab w) =? -1) with false by (symmetry; apply Z.eqb_neq; lia);
    reflexivity.
Qed.

(** X16.  A command line that is no address never reaches the network.  With
    an argument count other than 2, [main] ends in [show_usage] and has
    done nothing else.  With one argument that [inet_aton] rejects, it
    ends in [error], in [socket()] or else in [inet_aton()] with [errno]
    set to [EINVAL].  In both cases no peer has been connected to. *)
Theorem client_bad_arguments :
  forall (printf : string -> World -> World) (inet_aton : string -> option (list Z))
         (fuel : nat) (servaddr s argc : Z) (argv1 : string) (w : World),
    argc <> 2 \/ inet_aton argv1 = None ->
    exited (Client.main printf inet_aton fuel servaddr s argc argv1 w)
      (fun msg w' =>
         peers w' = peers w /\ inp w' = inp w /\ trace w' = trace w /\
         (argc <> 2 -> msg = "Usage: client ip_address"%string /\ w' = w) /\
         (argc = 2 ->
          (msg = "socket()"%string /\ fdtab w' = fdtab w) \/
          (msg = "inet_aton()"%string /\ errno w' = EINVAL))).
Proof.
  intros printf inet_aton fuel servaddr s argc argv1 w H.
  unfold Client.main. destruct (argc =? 2) eqn:E.
  - apply Z.eqb_eq in E. destruct H as [H|H]; [contradiction|].
    cbn [negb]. unfold bind at 1. unfold ret at 1.
    unfold Socket, sys_socket, next_event, lift. unfold bind at 1 2.
    destruct (script w) as [|[e|k|m] sc] eqn:Es.
    + pose proof (fresh_fd_nonneg (fdtab w)).
      replace (fresh_fd (fdtab w) =? -1) with false by (symmetry; apply Z.eqb_neq; lia).
      unfold ret at 1. unfold bind at 1, memset at 1. unfold bind at 1, poke16 at 1.
      unfold bind at 1, poke16 at 1. unfold bind at 1, Client.Inet_aton at 1. rewrite H.
      unfold bind, put_errno, error. cbn. conjs; auto. intros; contradiction.
    + cbn. conjs; auto. intros; contradiction.
    + pose proof (fresh_fd_nonneg (fdtab w)). cbn [fdtab set_script].
      replace (fresh_fd (fdtab w) =? -1) with false by (symmetry; apply Z.eqb_neq; lia).
      unfold ret at 1. unfold bind at 1, memset at 1. unfold bind at 1, poke16 at 1.
      unfold bind at 1, poke16 at 1. unfold bind at 1, Client.Inet_aton at 1. rewrite H.
      unfold bind, put_errno, error. cbn. conjs; auto. intros; contradiction.
    + pose proof (fresh_fd_nonneg (fdtab w)). cbn [fdtab set_script].
      replace (fresh_fd (fdtab w) =? -1) with false by (symmetry; apply Z.eqb_neq; lia).
      unfold ret at 1. unfold bind at 1, memset at 1. unfold bind at 1, poke16 at 1.
      unfold bind at 1, poke16 at 1. unfold bind at 1, Client.Inet_aton at 1. rewrite H.
      unfold bind, put_errno, error. cbn. conjs; auto. intros; contradiction.
  - apply Z.eqb_neq in E. cbn [negb]. unfold bind at 1. unfold Client.show_usage, error.
    cbn. conjs; auto. intros; contradiction.
Qed.

Lemma client_bad_arguments_witness :
  exited (Client.main printf_buffered resolve_local 300 500 600 2 "localhost" w_dial)
    (fun msg w' =>
       peers w' = peers w_dial /\ inp w' = inp w_dial /\ trace w' = trace w_dial /\
       (2 <> 2 -> msg = "Usage: client ip_address"%string /\ w' = w_dial) /\
       (2 = 2 ->
        (msg = "socket()"%string /\ fdtab w' = fdtab w_dial) \/
        (msg = "inet_aton()"%string /\ errno w' = EINVAL))).
Proof.
  apply (client_bad_arguments printf_buffered resolve_local 300 500 600 2 "localhost" w_dial).
  right. reflexivity.
Defined.

(** ** The startup of both programs *)

Lemma bind_exit {A B} (m : M A) (k : A -> M B) (w w1 : World) (msg : string) :
  m w = Exit msg w1 -> bind m k w = Exit msg w1.
Proof. intros H. unfold bind. now rewrite H. Qed.

Lemma is_open_head (c : Z) (tab : list Z) : existsb (Z.eqb c) (c :: tab) = true.
Proof. cbn [existsb]. now rewrite Z.eqb_refl. Qed.

Ltac startup_mem :=
  unfold bind at 1; unfold memset at 1;
  unfold bind at 1; unfold poke16 at 1;
  unfold bind at 1; unfold poke16 at 1.

Ltac world_fields :=
  cbn [script errno mem fdtab inp out peers heap heap_end rands pool trace
       set_script set_errno set_mem set_fdtab set_inp set_out set_peers].

(** X17.  The startup of the server is not retried.  When [socket], [bind] or
    [listen] fails, with whatever error, an interruption included, [main]
    ends in [error] with the name of that call and the [errno] of the
    failure; no connection has been accepted and no thread created. *)
Theorem server_startup_failure_is_fatal :
  forall (fuel : nat) (servaddr : Z) (w : World) (served : list os_event) (e : positive)
         (rest : list os_event),
    script w = served ++ Fail e :: rest ->
    forallb serves served = true -> (length served < 3)%nat ->
    exited (Server.main fuel servaddr w)
      (fun msg w' =>
         msg = nth (length served) ["socket()"; "bind()"; "listen()"]%string EmptyString /\
         errno w' = Zpos e /\ script w' = rest /\
         peers w' = peers w /\ pool w' = pool w /\ trace w' = trace w).
Proof.
  intros fuel servaddr w served e rest Hsc Hserved Hlen.
  unfold Server.main.
  destruct served as [|ev1 served].
  { cbn [app] in Hsc. rewrite (bind_exit _ _ _ _ _ (Socket_failed _ _ _ w e rest Hsc)).
    cbn. conjs; reflexivity. }
  cbn [app forallb] in Hsc, Hserved. apply andb_true_iff in Hserved as [Hev1 Hserved].
  rewrite (bind_eq _ _ _ _ _ (Socket_served _ _ _ w ev1 _ Hsc Hev1)).
  startup_mem. unfold bind at 1. unfold poke_int at 1.
  unfold Server.Bind. unfold bind at 1 2. unfold lift at 1, sys_bind, next_event.
  world_fields.
  destruct served as [|ev2 served].
  { cbn. conjs; reflexivity. }
  cbn [app forallb] in Hserved |- *. apply andb_true_iff in Hserved as [Hev2 Hserved].
  destruct served as [|ev3 served]; [|cbn [length] in Hlen; lia].
  cbn [app].
  unfold Server.Listen, bind, lift, sys_listen, next_event.
  destruct ev2; try discriminate; world_fields; unfold is_open; world_fields;
    rewrite is_open_head; cbn; conjs; reflexivity.
Qed.

Lemma server_startup_failure_is_fatal_witness :
  exited (Server.main 30 500 (set_script [Ready 0; Fail 4] w_idle))
    (fun msg w' =>
       msg = nth (length [Ready 0]) ["socket()"; "bind()"; "listen()"]%string EmptyString /\
       errno w' = Zpos 4 /\ script w' = [] /\
       peers w' = peers (set_script [Ready 0; Fail 4] w_idle) /\
       pool w' = pool (set_script [Ready 0; Fail 4] w_idle) /\
       trace w' = trace (set_script [Ready 0; Fail 4] w_idle)).
Proof.
  apply (server_startup_failure_is_fatal 30 500 (set_script [Ready 0; Fail 4] w_idle)
           [Ready 0] 4 []); try reflexivity.
  cbn. lia.
Defined.

(** X18.  The startup of the client is not retried either.  Let
    [printf] touch nothing but descriptor 1 and [errno], and leave
    [errno] alone when descriptor 1 is open, as it is here.  With a good
    command line, when [socket] or [connect] fails, with whatever error,
    [main] ends in [error] with the name of that call and the [errno] of
    the failure; no peer has been taken from the queue and nothing has
    been read or written by the relay. *)
Theorem client_startup_failure_is_fatal :
  forall (printf : string -> World -> World) (inet_aton : string -> option (list Z))
         (fuel : nat) (servaddr s : Z) (argv1 : string) (bytes : list Z) (w : World)
         (served : list os_event) (e : positive) (rest : list os_event),
    stdio_call printf -> stdio_keeps_errno printf ->
    is_open STDOUT_FILENO w = true ->
    inet_aton argv1 = Some bytes ->
    script w = served ++ Fail e :: rest ->
    forallb serves served = true -> (length served < 2)%nat ->
    exited (Client.main printf inet_aton fuel servaddr s 2 argv1 w)
      (fun msg w' =>
         msg = nth (length served) ["socket()"; "connect()"]%string EmptyString /\
         errno w' = Zpos e /\ script w' = rest /\
         peers w' = peers w /\ inp w' = inp w /\ trace w' = trace w).
Proof.
  intros printf inet_aton fuel servaddr s argv1 bytes w served e rest
         Hstdio Herrno Ho1 Hinet Hsc Hserved Hlen.
  unfold Client.main. change (negb (2 =? 2)) with false. cbv iota.
  unfold bind at 1. unfold ret at 1.
  destruct served as [|ev1 served].
  { cbn [app] in Hsc. rewrite (bind_exit _ _ _ _ _ (Socket_failed _ _ _ w e rest Hsc)).
    cbn. conjs; reflexivity. }
  cbn [app forallb] in Hsc, Hserved. apply andb_true_iff in Hserved as [Hev1 Hserved].
  rewrite (bind_eq _ _ _ _ _ (Socket_served _ _ _ w ev1 _ Hsc Hev1)).
  startup_mem. unfold bind at 1. unfold Client.Inet_aton at 1. rewrite Hinet.
  destruct served as [|ev2 served]; [|cbn [length] in Hlen; lia].
  cbn [app].
  unfold Client.Connect. unfold bind at 1 2. unfold lift at 1, sys_connect, next_event.
  world_fields. change (-1 =? -1) with true. cbv iota.
  unfold bind at 1. unfold error.
  match goal with |- exited (Exit _ (printf _ ?w0)) _ => set (wc := w0) end.
  destruct (Hstdio Client.connection_line wc) as (Hps & _ & Hpi & Hpp & Hpt & _).
  assert (Hoc : is_open STDOUT_FILENO wc = true).
  { unfold is_open in *. change (fdtab wc) with (fresh_fd (fdtab w) :: fdtab w).
    cbn [existsb]. rewrite Ho1. apply orb_true_r. }
  cbn [exited length nth].
  split; [reflexivity|].
  split; [rewrite (Herrno _ _ Hoc); reflexivity|].
  split; [rewrite Hps; reflexivity|].
  split; [rewrite Hpp; reflexivity|].
  split; [rewrite Hpi; reflexivity | rewrite Hpt; reflexivity].
Qed.

Lemma client_startup_failure_is_fatal_witness :
  exited (Client.main printf_line resolve_local 300 500 600 2 "127.0.0.1"
            (set_script [Ready 0; Fail 4] w_dial))
    (fun msg w' =>
       msg = nth (length [Ready 0]) ["socket()"; "connect()"]%string EmptyString /\
       errno w' = Zpos 4 /\ script w' = [] /\
       peers w' = peers (set_script [Ready 0; Fail 4] w_dial) /\
       inp w' = inp (set_script [Ready 0; Fail 4] w_dial) /\
       trace w' = trace (set_script [Ready 0; Fail 4] w_dial)).
Proof.
  apply (client_startup_failure_is_fatal printf_line resolve_local 300 500 600 "127.0.0.1"
           [127; 0; 0; 1] (set_script [Ready 0; Fail 4] w_dial) [Ready 0] 4 []);
    try reflexivity.
  - exact printf_line_stdio.
  - exact printf_line_errno.
  - cbn. lia.
Defined.

(** ** The server stops in [error] only *)

Lemma exits_in_bind {A B} (msgs : list string) (m : M A) (k : A -> M B) (w : World) :
  exits_in msgs (m w) -> (forall a w1, exits_in msgs (k a w1)) ->
  exits_in msgs (bind m k w).
Proof. intros Hm Hk. unfold bind. destruct (m w); cbn in *; auto. Qed.

Lemma stops_in_bind {A B} (msgs : list string) (m : M A) (k : A -> M B) (w : World) :
  exits_in msgs (m w) -> (forall a w1, stops_in msgs (k a w1)) ->
  stops_in msgs (bind m k w).
Proof. intros Hm Hk. unfold bind. destruct (m w); cbn in *; auto. Qed.

Lemma Accept_exits_in (msgs : list string) (f : nat) (socket addr addrlen : Z) :
  In "accept()"%string msgs ->
  forall w, exits_in msgs (Server.Accept f socket addr addrlen w).
Proof.
  intros Hin. induction f as [|f IH]; intros w; [exact I|].
  cbn [Server.Accept]. unfold bind, lift.
  destruct (sys_accept socket addr addrlen w) as [rc w1].
  destruct (negb (rc =? -1)); [exact I|].
  unfold get_errno.
  destruct ((errno w1 =? EINTR) || (errno w1 =? ECONNABORTED)); [apply IH | exact Hin].
Qed.

Lemma accept_dispatch_exits_in (msgs : list string) (f : nat) (lsocket : Z) (w : World) :
  In "accept()"%string msgs -> In "malloc()"%string msgs ->
  In "pthread_create()"%string msgs ->
  exits_in msgs (Server.accept_dispatch f lsocket w).
Proof.
  intros H1 H2 H3. unfold Server.accept_dispatch.
  apply exits_in_bind; [now apply Accept_exits_in|]. intros csocket w1.
  apply exits_in_bind.
  { unfold Server.Malloc, bind, lift. destruct (sys_malloc 4 w1) as [rc w2].
    destruct (rc =? NULL); [exact H2 | exact I]. }
  intros arg w2. apply exits_in_bind; [exact I|]. intros _ w3.
  unfold Server.Pthread_create, bind, lift.
  destruct (sys_pthread_create arg w3) as [rc w4].
  destruct (negb (rc =? 0)); [exact H3 | exact I].
Qed.

Lemma main_loop_stops_in (msgs : list string) (lsocket : Z) (fuel : nat) :
  In "accept()"%string msgs -> In "malloc()"%string msgs ->
  In "pthread_create()"%string msgs ->
  forall w, stops_in msgs (Server.main_loop fuel lsocket w).
Proof.
  intros H1 H2 H3. induction fuel as [|f IH]; intros w; [exact I|].
  cbn [Server.main_loop]. apply stops_in_bind; [now apply accept_dispatch_exits_in|].
  intros _ w1. apply IH.
Qed.

(** X19.  [main] of the server does not return: the statement behind its loop
    is never reached.  It runs on, or it ends in [error], and then in one
    of six calls: [socket], [bind] and [listen] of the startup, or
    [accept], [malloc] and [pthread_create] of the loop. *)
Theorem server_stops_in_error_only :
  forall (fuel : nat) (servaddr : Z) (w : World),
    stops_in ["socket()"; "bind()"; "listen()"; "accept()"; "malloc()"; "pthread_create()"]%string
      (Server.main fuel servaddr w).
Proof.
  intros fuel servaddr w. unfold Server.main.
  apply stops_in_bind.
  { unfold Socket, bind, lift. destruct (sys_socket PF_INET SOCK_STREAM 0 w) as [rc w1].
    destruct (rc =? -1); [cbn; auto | exact I]. }
  intros lsocket w1.
  apply stops_in_bind; [exact I|]. intros _ w2.
  apply stops_in_bind; [exact I|]. intros _ w3.
  apply stops_in_bind; [exact I|]. intros _ w4.
  apply stops_in_bind; [exact I|]. intros _ w5.
  apply stops_in_bind.
  { unfold Server.Bind, bind, lift. destruct (sys_bind lsocket servaddr 16 w5) as [rc w6].
    destruct (rc =? -1); [cbn; auto | exact I]. }
  intros _ w6.
  apply stops_in_bind.
  { unfold Server.Listen, bind, lift. destruct (sys_listen lsocket BACKLOG w6) as [rc w7].
    destruct (rc =? -1); [cbn; auto | exact I]. }
  intros _ w7.
  apply main_loop_stops_in; cbn; auto 10.
Qed.

(** ** A round of the listener that fails after [accept] *)

(** X20.  When [accept] is served and then the [int] cannot be allocated or the
    thread cannot be created, the round ends in [error]: in [malloc()]
    with [ENOMEM], or in [pthread_create()] with the error number that
    [pthread_create] returned as [errno].  At that exit the connection
    is accepted and open, and no thread has been created for it. *)
Theorem dispatch_failure_orphans_connection :
  forall (fuel : nat) (lsocket : Z) (w : World) (ev : os_event) (e : positive)
         (rest : list os_event),
    is_open lsocket w = true -> script w = ev :: Fail e :: rest -> serves ev = true ->
    0 < heap w -> (0 < fuel)%nat ->
    exited (Server.accept_dispatch fuel lsocket w)
      (fun msg w' =>
         fdtab w' = fresh_fd (fdtab w) :: fdtab w /\
         peers w' = tl (peers w) /\ pool w' = pool w /\
         if heap w + 4 <=? heap_end w
         then msg = "pthread_create()"%string /\ errno w' = Zpos e
         else msg = "malloc()"%string /\ errno w' = ENOMEM).
Proof.
  intros fuel lsocket w ev e rest Ho Hsc Hev Hh Hf.
  destruct fuel as [|f]; [lia|].
  pose proof (fresh_fd_nonneg (fdtab w)) as Hc.
  assert (HA : Server.Accept (S f) lsocket NULL 0 w =
               Ret (fresh_fd (fdtab w))
                 (log (c_accept lsocket (fresh_fd (fdtab w)))
                    (set_peers (tl (peers w))
                       (set_out (upd (out w) (fresh_fd (fdtab w)) [])
                          (set_inp (upd (inp w) (fresh_fd (fdtab w)) (hd [] (peers w)))
                             (set_fdtab (fresh_fd (fdtab w) :: fdtab w)
                                (set_script (Fail e :: rest) w))))))).
  { cbn [Server.Accept]. unfold bind, lift, sys_accept, next_event. rewrite Hsc.
    destruct ev; try discriminate;
      (replace (is_open lsocket (set_script (Fail e :: rest) w)) with true
         by (symmetry; exact Ho));
      cbn [fdtab peers inp out set_script];
      (replace (fresh_fd (fdtab w) =? -1) with false by (symmetry; apply Z.eqb_neq; lia));
      reflexivity. }
  unfold Server.accept_dispatch. rewrite (bind_eq _ _ _ _ _ HA).
  unfold Server.Malloc. unfold bind at 1 2. unfold lift at 1, sys_malloc.
  cbn [heap heap_end log set_trace set_peers set_out set_inp set_fdtab set_script].
  destruct (heap w + 4 <=? heap_end w) eqn:E.
  - replace (heap w =? NULL) with false by (symmetry; apply Z.eqb_neq; unfold NULL; lia).
    unfold ret at 1. unfold bind at 1. unfold poke_int at 1.
    unfold Server.Pthread_create, bind, lift, sys_pthread_create, next_event.
    cbn. conjs; reflexivity.
  - cbn. conjs; reflexivity.
Qed.

Lemma dispatch_failure_orphans_connection_witness :
  exited (Server.accept_dispatch 5 3 (set_script [Ready 0; Fail 11] w_two))
    (fun msg w' =>
       fdtab w' = fresh_fd (fdtab (set_script [Ready 0; Fail 11] w_two)) ::
                  fdtab (set_script [Ready 0; Fail 11] w_two) /\
       peers w' = tl (peers (set_script [Ready 0; Fail 11] w_two)) /\
       pool w' = pool (set_script [Ready 0; Fail 11] w_two) /\
       if heap (set_script [Ready 0; Fail 11] w_two) + 4 <=?
          heap_end (set_script [Ready 0; Fail 11] w_two)
       then msg = "pthread_create()"%string /\ errno w' = Zpos 11
       else msg = "malloc()"%string /\ errno w' = ENOMEM).
Proof.
  apply (dispatch_failure_orphans_connection 5 3 (set_script [Ready 0; Fail 11] w_two)
           (Ready 0) 11 []); try reflexivity.
  lia.
Defined.

(** * The claims on ownership and on the order of service, and the relay *)

(** ** The log of [Read] and [Write], call by call *)

Lemma failed_on_read (fd : Z) (l : list call) :
  forallb (failed_on fd) l = true -> forallb (fun c => is_read_on fd c || is_write_on fd c) l = true.
Proof.
  intros H. rewrite forallb_forall in *. intros c Hc. specialize (H c Hc).
  destruct c; cbn in *; try discriminate; apply andb_true_iff in H as [H _]; rewrite H;
    auto using orb_true_r.
Qed.

Lemma failed_on_whole (fd fd' : Z) (l : list call) :
  forallb (failed_on fd) l = true -> whole_writes fd' l = true.
Proof.
  intros H. unfold whole_writes. rewrite forallb_forall in *. intros c Hc. specialize (H c Hc).
  destruct c; cbn in *; try reflexivity; try discriminate.
  apply andb_true_iff in H as [_ H]. rewrite H. apply orb_true_r.
Qed.

Lemma Read_log (f : nat) (fd buf count : Z) :
  0 <= count < SIZE_MOD ->
  forall w,
    match Read f fd buf count w with
    | Ret a w' =>
        exists fails, trace w' = c_read fd count a :: fails ++ trace w /\
                      forallb (failed_on fd) fails = true
    | _ => True
    end.
Proof.
  intros Hc. induction f as [|f IH]; intros w; [exact I|].
  cbn [Read]. unfold bind, lift.
  pose proof (sys_read_trace fd buf count w) as Ht.
  pose proof (sys_read_rc fd buf count w) as Hrc.
  destruct (sys_read fd buf count w) as [rc w1]. cbn [fst snd] in Ht, Hrc.
  destruct (rc =? -1) eqn:E; cbn [negb].
  - apply Z.eqb_eq in E. subst rc. unfold get_errno.
    destruct (errno w1 =? EINTR); [|exact I].
    specialize (IH w1). destruct (Read f fd buf count w1) as [a w'| |]; auto.
    destruct IH as (fails & Hf & Hall).
    exists (fails ++ [c_read fd count (-1)]). rewrite Hf, Ht, <- app_assoc.
    split; [reflexivity|]. rewrite forallb_app, Hall. cbn. now rewrite Z.eqb_refl.
  - apply Z.eqb_neq in E. unfold ret.
    rewrite to_size_t_small by lia. exists []. split; [exact Ht | reflexivity].
Qed.

Lemma Write_log (f : nat) (fd buf count : Z) :
  0 <= count < SIZE_MOD ->
  forall w,
    match Write f fd buf count w with
    | Ret a w' =>
        exists fails, trace w' = c_write fd buf count a :: fails ++ trace w /\
                      forallb (failed_on fd) fails = true
    | _ => True
    end.
Proof.
  intros Hc. induction f as [|f IH]; intros w; [exact I|].
  cbn [Write]. unfold bind, lift.
  pose proof (sys_write_trace fd buf count w) as Ht.
  pose proof (sys_write_rc fd buf count w) as Hrc.
  destruct (sys_write fd buf count w) as [rc w1]. cbn [fst snd] in Ht, Hrc.
  destruct (rc =? -1) eqn:E; cbn [negb].
  - apply Z.eqb_eq in E. subst rc. unfold get_errno.
    destruct (errno w1 =? EINTR); [|exact I].
    specialize (IH w1). destruct (Write f fd buf count w1) as [a w'| |]; auto.
    destruct IH as (fails & Hf & Hall).
    exists (fails ++ [c_write fd buf count (-1)]). rewrite Hf, Ht, <- app_assoc.
    split; [reflexivity|]. rewrite forallb_app, Hall. cbn. now rewrite Z.eqb_refl.
  - apply Z.eqb_neq in E. unfold ret.
    rewrite to_size_t_small by lia. exists []. split; [exact Ht | reflexivity].
Qed.

(** [writen] of client.c with something to write makes a call. *)
Lemma client_writen_loop_log (F : nat) (socket p n : Z) (w : World) :
  n <> 0 -> 0 <= n < SIZE_MOD ->
  match Client.writen_loop F socket p n w with
  | Ret _ w' =>
      exists new, trace w' = new ++ trace w /\ new <> [] /\
                  forallb (is_write_on socket) new = true
  | _ => True
  end.
Proof.
  intros Hn Hr. destruct F as [|F]; [exact I|].
  cbn [Client.writen_loop]. apply Z.eqb_neq in Hn. rewrite Hn. unfold bind.
  pose proof (Write_log F socket p n Hr w) as HW.
  pose proof (Write_calls F socket p n w) as HC.
  destruct (Write F socket p n w) as [rc w1| |]; auto.
  destruct HW as (fails & Ht & _). destruct HC as (new1 & Hn1 & Hall1).
  pose proof (client_writen_loop_calls F socket (p + rc) (size_sub n rc) w1) as HL.
  destruct (Client.writen_loop F socket (p + rc) (size_sub n rc) w1) as [u w2| |]; auto.
  destruct HL as (new2 & Hn2 & Hall2).
  exists (new2 ++ new1). rewrite Hn2, Hn1, app_assoc. split; [reflexivity|]. split.
  - intros E. apply app_eq_nil in E as [_ E]. subst new1. cbn in Hn1.
    rewrite Hn1 in Ht. apply (f_equal (@length call)) in Ht.
    cbn [length] in Ht. rewrite length_app in Ht. lia.
  - now rewrite forallb_app, Hall1, Hall2.
Qed.

(** ** One round of [do_work] under a quiet script, with its log *)

(** The first half of a round: local input. *)
Lemma stdin_half_full (f : nat) (s socket ready : Z) (w1 : World) :
  s <> NULL -> socket <> STDIN_FILENO -> socket <> STDOUT_FILENO ->
  is_open STDIN_FILENO w1 = true -> is_open socket w1 = true ->
  quiet (script w1) = true -> (length (script w1) + 257 < f)%nat ->
  exists (k : nat) (brk : bool) (w3 : World) (l_in : list call),
    (if FD_ISSET STDIN_FILENO ready then
       rc <- Read f STDIN_FILENO s MAXLINE ;;
       let rc := to_ssize_t rc in
       if rc =? 0 then ret true
       else Client.writen f socket s (to_size_t rc) ;;; ret false
     else ret false) w1 = Ret brk w3 /\
    (k <= 256)%nat /\ (k <= length (inp w1 STDIN_FILENO))%nat /\
    (FD_ISSET STDIN_FILENO ready = true -> inp w1 STDIN_FILENO <> [] -> (1 <= k)%nat) /\
    (FD_ISSET STDIN_FILENO ready = false -> k = 0%nat) /\
    brk = FD_ISSET STDIN_FILENO ready && (k =? 0)%nat /\
    out w3 socket = out w1 socket ++ firstn k (inp w1 STDIN_FILENO) /\
    (forall fd, fd <> socket -> out w3 fd = out w1 fd) /\
    inp w3 STDIN_FILENO = skipn k (inp w1 STDIN_FILENO) /\
    (forall fd, fd <> STDIN_FILENO -> inp w3 fd = inp w1 fd) /\
    fdtab w3 = fdtab w1 /\ quiet (script w3) = true /\
    (length (script w3) <= length (script w1))%nat /\
    trace w3 = l_in ++ trace w1 /\
    whole_writes STDOUT_FILENO l_in = true /\
    (FD_ISSET STDIN_FILENO ready = false -> l_in = []) /\
    (FD_ISSET STDIN_FILENO ready = true ->
     exists f1 w_sock,
       l_in = w_sock ++ c_read STDIN_FILENO MAXLINE (Z.of_nat k) :: f1 /\
       forallb (failed_on STDIN_FILENO) f1 = true /\
       forallb (is_write_on socket) w_sock = true /\
       (k <> 0%nat -> w_sock <> [])).
Proof.
  intros Hs Hne Hne1 Ho0 Ho Hq Hf.
  destruct (FD_ISSET STDIN_FILENO ready).
  - destruct (Read_quiet f STDIN_FILENO s MAXLINE w1 Ho0 Hq ltac:(lia)
                ltac:(unfold MAXLINE, SIZE_MOD; lia))
      as (k & w2 & HR & Hk & Hk' & Hk'' & Hm2 & Hi2 & Hou2 & Hfd2 & Hq2 & Hl2).
    pose proof (Read_log f STDIN_FILENO s MAXLINE ltac:(unfold MAXLINE, SIZE_MOD; lia) w1)
      as HRL.
    rewrite HR in HRL. destruct HRL as (f1 & Ht2 & Hf1).
    change (Z.to_nat MAXLINE) with 256%nat in Hk.
    rewrite (bind_eq _ _ _ _ _ HR). cbv zeta.
    rewrite to_ssize_t_small by lia.
    destruct k as [|k'].
    + exists 0%nat, true, w2, (c_read STDIN_FILENO MAXLINE 0 :: f1).
      cbn [Z.of_nat Z.eqb firstn skipn] in *. unfold ret.
      rewrite app_nil_r.
      split; [reflexivity|]. split; [lia|]. split; [lia|].
      split; [intros _ Hne'; specialize (Hk'' ltac:(unfold MAXLINE; lia) Hne'); lia|].
      split; [discriminate|]. split; [reflexivity|].
      split; [now rewrite Hou2|]. split; [intros; now rewrite Hou2|].
      split; [rewrite Hi2; apply upd_same|].
      split; [intros fd Hfd; rewrite Hi2; now apply upd_other|].
      split; [exact Hfd2|]. split; [exact Hq2|]. split; [exact Hl2|].
      split; [exact Ht2|].
      split; [cbn; now apply (failed_on_whole STDIN_FILENO)|].
      split; [discriminate|].
      intros _. exists f1, []. cbn. conjs; auto.
    + set (k := S k') in *.
      assert (Ho2 : is_open socket w2 = true) by (unfold is_open in *; now rewrite Hfd2).
      rewrite to_size_t_small by (unfold SIZE_MOD; lia).
      destruct (client_writen_loop_quiet f socket w2 s (Z.of_nat k) Ho2 Hq2
                  ltac:(unfold SIZE_MOD; lia) ltac:(lia))
        as (w3 & HL & Hout & Hoth & Hm3 & Hfd3 & Hi3 & Hq3 & Hl3).
      pose proof (client_writen_loop_log f socket s (Z.of_nat k) w2 ltac:(lia)
                    ltac:(unfold SIZE_MOD; lia)) as HLL.
      rewrite HL in HLL. destruct HLL as (w_sock & Ht3 & Hne3 & Hws).
      replace (Z.of_nat k =? 0) with false by (symmetry; apply Z.eqb_neq; lia).
      unfold Client.writen. apply Z.eqb_neq in Hs. rewrite Hs.
      unfold bind at 1 2 3. unfold ret at 1. rewrite HL. unfold ret.
      exists k, false, w3, (w_sock ++ c_read STDIN_FILENO MAXLINE (Z.of_nat k) :: f1).
      split; [reflexivity|]. split; [lia|]. split; [lia|].
      split; [intros; lia|]. split; [discriminate|]. split; [reflexivity|].
      split.
      { rewrite Hout, Hou2, Hm2, Nat2Z.id. f_equal.
        rewrite <- (load_store_bytes (firstn k (inp w1 STDIN_FILENO)) (mem w1) s) at 2.
        f_equal. rewrite length_firstn. lia. }
      split; [intros fd Hfd; rewrite (Hoth fd Hfd); now rewrite Hou2|].
      split; [rewrite Hi3, Hi2; apply upd_same|].
      split; [intros fd Hfd; rewrite Hi3, Hi2; now apply upd_other|].
      split; [congruence|]. split; [exact Hq3|]. split; [lia|].
      split; [rewrite Ht3, Ht2, <- app_assoc; reflexivity|].
      split.
      { unfold whole_writes. rewrite forallb_app. apply andb_true_iff. split.
        - rewrite forallb_forall in *. intros c Hc. specialize (Hws c Hc).
          destruct c; try discriminate. cbn in Hws |- *. apply Z.eqb_eq in Hws. subst fd.
          apply Z.eqb_neq in Hne1. now rewrite Hne1.
        - cbn. now apply (failed_on_whole STDIN_FILENO). }
      split; [discriminate|].
      intros _. exists f1, w_sock. auto.
  - exists 0%nat, false, w1, []. unfold ret. cbn [firstn skipn]. rewrite app_nil_r.
    conjs; auto; try lia; discriminate.
Qed.

Lemma quiet_suffix (used sc : list os_event) : quiet (used ++ sc) = true -> quiet sc = true.
Proof. unfold quiet. rewrite forallb_app. intros H. now apply andb_true_iff in H. Qed.

(** The second half of a round: the connection. *)
Lemma socket_half_full (f : nat) (s socket ready : Z) (w3 : World) :
  socket <> STDOUT_FILENO ->
  is_open socket w3 = true -> is_open STDOUT_FILENO w3 = true ->
  quiet (script w3) = true -> (length (script w3) + 1 < f)%nat ->
  exists (k j : nat) (brk : bool) (w5 : World) (l_out : list call),
    (if FD_ISSET socket ready then
       rc <- Read f socket s MAXLINE ;;
       let rc := to_ssize_t rc in
       if rc =? 0 then ret true
       else Write f STDOUT_FILENO s (to_size_t rc) ;;; ret false
     else ret false) w3 = Ret brk w5 /\
    (j <= k)%nat /\ (k <= 256)%nat /\ (k <= length (inp w3 socket))%nat /\
    (FD_ISSET socket ready = true -> inp w3 socket <> [] -> (1 <= j)%nat) /\
    (FD_ISSET socket ready = false -> k = 0%nat) /\
    brk = FD_ISSET socket ready && (k =? 0)%nat /\
    out w5 STDOUT_FILENO = out w3 STDOUT_FILENO ++ firstn j (inp w3 socket) /\
    (forall fd, fd <> STDOUT_FILENO -> out w5 fd = out w3 fd) /\
    inp w5 socket = skipn k (inp w3 socket) /\
    (forall fd, fd <> socket -> inp w5 fd = inp w3 fd) /\
    fdtab w5 = fdtab w3 /\ quiet (script w5) = true /\
    (length (script w5) <= length (script w3))%nat /\
    trace w5 = l_out ++ trace w3 /\
    (whole_writes STDOUT_FILENO l_out = true -> j = k) /\
    (FD_ISSET socket ready = false -> l_out = []) /\
    (FD_ISSET socket ready = true ->
     exists f2 w_out,
       l_out = w_out ++ c_read socket MAXLINE (Z.of_nat k) :: f2 /\
       forallb (failed_on socket) f2 = true /\
       forallb (is_write_on STDOUT_FILENO) w_out = true /\
       (k <> 0%nat -> w_out <> [])).
Proof.
  intros Hne Ho Ho1 Hq Hf.
  destruct (FD_ISSET socket ready).
  - destruct (Read_quiet f socket s MAXLINE w3 Ho Hq ltac:(lia)
                ltac:(unfold MAXLINE, SIZE_MOD; lia))
      as (k & w4 & HR & Hk & Hk' & Hk'' & Hm4 & Hi4 & Hou4 & Hfd4 & Hq4 & Hl4).
    pose proof (Read_log f socket s MAXLINE ltac:(unfold MAXLINE, SIZE_MOD; lia) w3) as HRL.
    rewrite HR in HRL. destruct HRL as (f2 & Ht4 & Hf2).
    change (Z.to_nat MAXLINE) with 256%nat in Hk.
    rewrite (bind_eq _ _ _ _ _ HR). cbv zeta.
    rewrite to_ssize_t_small by lia.
    destruct k as [|k'].
    + exists 0%nat, 0%nat, true, w4, (c_read socket MAXLINE 0 :: f2).
      cbn [Z.of_nat Z.eqb firstn skipn] in *. unfold ret.
      rewrite app_nil_r.
      split; [reflexivity|]. split; [lia|]. split; [lia|]. split; [lia|].
      split; [intros _ Hne'; specialize (Hk'' ltac:(unfold MAXLINE; lia) Hne'); lia|].
      split; [discriminate|]. split; [reflexivity|].
      split; [now rewrite Hou4|]. split; [intros; now rewrite Hou4|].
      split; [rewrite Hi4; apply upd_same|].
      split; [intros fd Hfd; rewrite Hi4; now apply upd_other|].
      split; [exact Hfd4|]. split; [exact Hq4|]. split; [exact Hl4|].
      split; [exact Ht4|]. split; [reflexivity|]. split; [discriminate|].
      intros _. exists f2, []. cbn. conjs; auto.
    + set (k := S k') in *.
      assert (Ho4 : is_open STDOUT_FILENO w4 = true) by (unfold is_open in *; now rewrite Hfd4).
      rewrite to_size_t_small by (unfold SIZE_MOD; lia).
      destruct (Write_quiet f STDOUT_FILENO s (Z.of_nat k) w4 Ho4 Hq4 ltac:(lia)
                  ltac:(unfold SIZE_MOD; lia))
        as (rc & w5 & HW & _ & Hrc & Hout & Hm5 & Hfd5 & Hi5 & Hq5 & Hl5 & _).
      pose proof (Write_log f STDOUT_FILENO s (Z.of_nat k) ltac:(unfold SIZE_MOD; lia) w4)
        as HWL.
      rewrite HW in HWL. destruct HWL as (f3 & Ht5 & Hf3).
      specialize (Hrc ltac:(lia)).
      replace (Z.of_nat k =? 0) with false by (symmetry; apply Z.eqb_neq; lia).
      unfold bind at 1. rewrite HW. unfold ret.
      exists k, (Z.to_nat rc), false, w5,
        ((c_write STDOUT_FILENO s (Z.of_nat k) rc :: f3) ++
         c_read socket MAXLINE (Z.of_nat k) :: f2).
      split; [reflexivity|]. split; [lia|]. split; [lia|]. split; [lia|].
      split; [intros; lia|]. split; [discriminate|]. split; [reflexivity|].
      split.
      { rewrite Hout, upd_same, Hou4, Hm4. f_equal.
        rewrite load_store_prefix by (rewrite length_firstn; lia).
        rewrite firstn_firstn. f_equal. lia. }
      split; [intros fd Hfd; rewrite Hout; rewrite upd_other by exact Hfd; now rewrite Hou4|].
      split; [rewrite Hi5, Hi4; apply upd_same|].
      split; [intros fd Hfd; rewrite Hi5, Hi4; now apply upd_other|].
      split; [congruence|]. split; [exact Hq5|]. split; [lia|].
      split; [rewrite Ht5, Ht4, <- app_assoc; reflexivity|].
      split.
      { unfold whole_writes. cbn [app forallb whole_write].
        rewrite Z.eqb_refl. cbn [negb orb]. intros H.
        apply andb_true_iff in H as [H _]. apply orb_true_iff in H as [H|H];
          apply Z.eqb_eq in H; lia. }
      split; [discriminate|].
      intros _. exists f2, (c_write STDOUT_FILENO s (Z.of_nat k) rc :: f3).
      split; [reflexivity|]. split; [exact Hf2|]. split.
      { pose proof (Write_calls f STDOUT_FILENO s (Z.of_nat k) w4) as HC.
        rewrite HW in HC. destruct HC as (new & Hn & Hall).
        rewrite Ht5 in Hn. rewrite app_comm_cons in Hn. apply app_inv_tail in Hn.
        now rewrite Hn. }
      intros _. discriminate.
  - exists 0%nat, 0%nat, false, w3, []. unfold ret. cbn [firstn skipn]. rewrite app_nil_r.
    conjs; auto; try lia; discriminate.
Qed.

(** One round under a quiet script: what it moves, what it leaves, and
    the calls it makes, in order ([sel], then [l_in], then [l_out]). *)
Lemma round_full (fuel : nat) (s socket : Z) (w : World) :
  s <> NULL -> 1 < socket ->
  is_open STDIN_FILENO w = true -> is_open STDOUT_FILENO w = true ->
  is_open socket w = true ->
  quiet (script w) = true -> (length (script w) + 257 < fuel)%nat ->
  let r0 := FD_ISSET STDIN_FILENO (round_ready (script w) socket) in
  let r1 := FD_ISSET socket (round_ready (script w) socket) in
  exists (k1 k2 j : nat) (brk : bool) (w' : World) (sel l_in l_out : list call),
    Client.do_work_round fuel s socket (socket + 1) w = Ret brk w' /\
    ((k1 <= 256)%nat /\ (k1 <= length (inp w STDIN_FILENO))%nat /\
     (r0 = true -> inp w STDIN_FILENO <> [] -> (1 <= k1)%nat) /\
     (r0 = false -> k1 = 0%nat) /\
     (j <= k2)%nat /\ (k2 <= 256)%nat /\ (k2 <= length (inp w socket))%nat /\
     (r0 && (k1 =? 0)%nat = false -> r1 = true -> inp w socket <> [] -> (1 <= j)%nat) /\
     brk = r0 && (k1 =? 0)%nat || r1 && (k2 =? 0)%nat) /\
    (out w' socket = out w socket ++ firstn k1 (inp w STDIN_FILENO) /\
     out w' STDOUT_FILENO = out w STDOUT_FILENO ++ firstn j (inp w socket) /\
     inp w' STDIN_FILENO = skipn k1 (inp w STDIN_FILENO) /\
     inp w' socket = skipn k2 (inp w socket) /\
     (forall fd, fd <> socket -> fd <> STDOUT_FILENO -> out w' fd = out w fd) /\
     (forall fd, fd <> STDIN_FILENO -> fd <> socket -> inp w' fd = inp w fd) /\
     fdtab w' = fdtab w) /\
    (quiet (script w') = true /\
     (length (script w') <= length (script w))%nat /\
     (brk = true -> inp w' STDIN_FILENO = [] \/ inp w' socket = []) /\
     (brk = false ->
      (length (script w') + length (inp w' STDIN_FILENO) <
       length (script w) + length (inp w STDIN_FILENO))%nat)) /\
    trace w' = l_out ++ l_in ++ sel ++ trace w /\
    forallb is_select sel = true /\
    (whole_writes STDOUT_FILENO (l_out ++ l_in ++ sel) = true -> j = k2) /\
    (r0 = true ->
     exists f1 w_sock,
       l_in = w_sock ++ c_read STDIN_FILENO MAXLINE (Z.of_nat k1) :: f1 /\
       forallb (failed_on STDIN_FILENO) f1 = true /\
       forallb (is_write_on socket) w_sock = true /\
       (k1 <> 0%nat -> w_sock <> [])) /\
    (r0 && (k1 =? 0)%nat = false -> r1 = true ->
     exists f2 w_out,
       l_out = w_out ++ c_read socket MAXLINE (Z.of_nat k2) :: f2 /\
       forallb (failed_on socket) f2 = true /\
       forallb (is_write_on STDOUT_FILENO) w_out = true /\
       (k2 <> 0%nat -> w_out <> [])) /\
    (r0 && (k1 =? 0)%nat = true -> l_out = []).
Proof.
  intros Hs Hsock Ho0 Ho1 Ho Hq Hf r0 r1.
  assert (Hn0 : socket <> STDIN_FILENO) by (unfold STDIN_FILENO; lia).
  assert (Hn1 : socket <> STDOUT_FILENO) by (unfold STDOUT_FILENO; lia).
  pose proof (watched_all_open socket w ltac:(lia) Ho0 Ho) as Hall.
  destruct (Select_quiet fuel (socket + 1) _ w Hq ltac:(lia) Hall)
    as (w1 & HS & Hsc1 & Hm1 & Hi1 & Hou1 & Hfd1 & sel & Hsel & Hsel').
  fold (watched socket) in HS. fold (round_ready (script w) socket) in HS.
  pose proof (serving_length (script w)) as Hlen.
  assert (Hq1 : quiet (script w1) = true) by (rewrite Hsc1; now apply serving_quiet).
  assert (Ho0' : is_open STDIN_FILENO w1 = true) by (unfold is_open in *; now rewrite Hfd1).
  assert (Ho' : is_open socket w1 = true) by (unfold is_open in *; now rewrite Hfd1).
  destruct (stdin_half_full fuel s socket (round_ready (script w) socket) w1 Hs Hn0 Hn1
              Ho0' Ho' Hq1 ltac:(rewrite Hsc1; lia))
    as (k1 & b1 & w3 & l_in & H1 & Hk1 & Hk1' & Hk1'' & Hk1n & Hb1 & Hout3 & Hoth3 & Hin3
          & Hinoth3 & Hfd3 & Hq3 & Hl3 & Ht3 & Hwh3 & Hl_in0 & Hl_in).
  fold r0 in Hk1'', Hk1n, Hb1, Hl_in0, Hl_in.
  assert (Hr0 : r0 = false -> script w <> []).
  { intros Hr Hnil. unfold r0 in Hr. rewrite Hnil, round_ready_nil in Hr by lia.
    discriminate. }
  unfold Client.do_work_round. fold (watched socket).
  rewrite (bind_eq _ _ _ _ _ HS). cbn [snd].
  rewrite (bind_eq _ _ _ _ _ H1).
  rewrite Hi1 in *. rewrite Hou1 in *. rewrite Hsc1 in Hl3.
  destruct b1.
  - exists k1, 0%nat, 0%nat, true, w3, sel, l_in, []. unfold ret. cbn [firstn skipn app].
    rewrite app_nil_r. rewrite <- Hb1. cbn [orb].
    symmetry in Hb1. apply andb_true_iff in Hb1 as [Hb1 Hb1'].
    apply Nat.eqb_eq in Hb1'.
    split; [reflexivity|].
    split; [conjs; auto; try lia; discriminate|].
    split.
    { split; [exact Hout3|]. split; [apply Hoth3; unfold STDOUT_FILENO; lia|].
      split; [exact Hin3|]. split; [apply Hinoth3; exact Hn0|].
      split; [intros fd Hfd _; now apply Hoth3|].
      split; [intros fd Hfd _; now apply Hinoth3|]. congruence. }
    split.
    { split; [exact Hq3|]. split; [lia|]. split; [|discriminate].
      intros _. left. rewrite Hin3. subst k1. cbn [skipn].
      destruct (inp w STDIN_FILENO) eqn:E; [reflexivity|].
      specialize (Hk1'' Hb1 ltac:(discriminate)). lia. }
    split; [rewrite Ht3, Hsel; reflexivity|].
    split; [exact Hsel'|]. split; [reflexivity|].
    split; [exact Hl_in|]. split; [discriminate | reflexivity].
  - assert (Ho3 : is_open socket w3 = true) by (unfold is_open in *; now rewrite Hfd3, Hfd1).
    assert (Ho13 : is_open STDOUT_FILENO w3 = true)
      by (unfold is_open in *; now rewrite Hfd3, Hfd1).
    destruct (socket_half_full fuel s socket (round_ready (script w) socket) w3 Hn1 Ho3 Ho13
                Hq3 ltac:(lia))
      as (k2 & j & b2 & w5 & l_out & H2 & Hj & Hk2 & Hk2' & Hk2'' & Hk2n & Hb2 & Hout5
            & Hoth5 & Hin5 & Hinoth5 & Hfd5 & Hq5 & Hl5 & Ht5 & Hwh5 & Hl_out0 & Hl_out).
    fold r1 in Hk2'', Hk2n, Hb2, Hl_out0, Hl_out.
    cbv iota zeta. cbv zeta in H2. rewrite H2.
    rewrite (Hinoth3 socket Hn0) in *.
    exists k1, k2, j, b2, w5, sel, l_in, l_out. rewrite <- Hb1. cbn [orb].
    split; [reflexivity|].
    split; [conjs; auto; lia|].
    split.
    { split; [rewrite (Hoth5 socket Hn1); exact Hout3|].
      split; [rewrite Hout5; f_equal; apply Hoth3; unfold STDOUT_FILENO; lia|].
      split; [rewrite (Hinoth5 STDIN_FILENO) by (unfold STDIN_FILENO; lia); exact Hin3|].
      split; [exact Hin5|].
      split; [intros fd Hfd Hfd'; rewrite Hoth5 by exact Hfd'; now apply Hoth3|].
      split; [intros fd Hfd Hfd'; rewrite Hinoth5 by exact Hfd'; now apply Hinoth3|].
      congruence. }
    split.
    { split; [exact Hq5|]. split; [lia|]. split.
      - intros ->. right. symmetry in Hb2. apply andb_true_iff in Hb2 as [Hb2 Hb2'].
        apply Nat.eqb_eq in Hb2'. subst k2. rewrite Hin5. cbn [skipn].
        destruct (inp w socket) eqn:E; [reflexivity|].
        specialize (Hk2'' Hb2 ltac:(discriminate)). lia.
      - intros _.
        rewrite (Hinoth5 STDIN_FILENO) by (unfold STDIN_FILENO; lia).
        rewrite Hin3, length_skipn.
        destruct r0 eqn:Er.
        + cbn [andb] in Hb1. symmetry in Hb1. apply Nat.eqb_neq in Hb1. lia.
        + pose proof (serving_shorter _ (Hr0 eq_refl)). lia. }
    split; [rewrite Ht5, Ht3, Hsel; reflexivity|].
    split; [exact Hsel'|].
    split.
    { intros H. apply Hwh5. unfold whole_writes in *. rewrite forallb_app in H.
      now apply andb_true_iff in H as [H _]. }
    split; [exact Hl_in|].
    split; [intros _ Hr1; exact (Hl_out Hr1) | discriminate].
Qed.

(** ** The order of service in a round *)

(** C10.  Let the connection be on a descriptor that [fd_set] admits, let
    both descriptors be open, the script quiet, and let the next
    readiness wait report both local input and the connection.
    - In that round the first call after the wait is a read of local
      input (descriptor 0): only [select] calls lie between the start of
      the round and it.
    - If local input holds data, the round services local input whole
      before it touches the connection: it drains [k1 >= 1] bytes of
      local input and the connection receives exactly these bytes; only
      then it reads the connection, drains [k2] bytes of it, and writes
      them to local output, which receives the first [j] of them.  The
      log of the round is, from the oldest call to the newest: the
      waits, the reads of descriptor 0 (the last one returned [k1]), the
      writes to the connection (at least one), the reads of the
      connection (the last one returned [k2]), the writes to local output
      (at least one if [k2 >= 1]).  The round goes on to the next one when
      the connection held data, and ends the loop when it was at its end.
    - If local input is at its end, [do_work] returns in that round: the
      bytes pending on the connection are all still to be read, nothing
      has been delivered to any descriptor, memory is as before, and the
      only calls made are [select] and the read of descriptor 0. *)
Theorem local_input_first :
  forall (fuel : nat) (s socket : Z) (w : World),
    0 < socket < FD_SETSIZE ->
    is_open STDIN_FILENO w = true -> is_open socket w = true ->
    quiet (script w) = true -> both_ready (script w) socket = true ->
    (length (script w) + 2 < fuel)%nat ->
    match Client.do_work_round fuel s socket (socket + 1) w with
    | Ret _ w' | Exit _ w' =>
        exists later rc sel,
          trace w' = later ++ c_read STDIN_FILENO MAXLINE rc :: sel ++ trace w /\
          forallb is_select sel = true
    | OutOfFuel => True
    end /\
    (s <> NULL -> 1 < socket -> is_open STDOUT_FILENO w = true ->
     inp w STDIN_FILENO <> [] -> (length (script w) + 257 < fuel)%nat ->
     exists (k1 k2 j : nat) (brk : bool) (w' : World) (sel f1 w_sock f2 w_out : list call),
       Client.do_work_round fuel s socket (socket + 1) w = Ret brk w' /\
       (1 <= k1 <= 256)%nat /\
       out w' socket = out w socket ++ firstn k1 (inp w STDIN_FILENO) /\
       inp w' STDIN_FILENO = skipn k1 (inp w STDIN_FILENO) /\
       (j <= k2 <= 256)%nat /\
       inp w' socket = skipn k2 (inp w socket) /\
       out w' STDOUT_FILENO = out w STDOUT_FILENO ++ firstn j (inp w socket) /\
       (inp w socket <> [] -> (1 <= j)%nat /\ brk = false) /\
       (inp w socket = [] -> brk = true) /\
       trace w' =
         w_out ++ c_read socket MAXLINE (Z.of_nat k2) :: f2 ++
         w_sock ++ c_read STDIN_FILENO MAXLINE (Z.of_nat k1) :: f1 ++
         sel ++ trace w /\
       forallb is_select sel = true /\
       forallb (failed_on STDIN_FILENO) f1 = true /\
       forallb (is_write_on socket) w_sock = true /\ w_sock <> [] /\
       forallb (failed_on socket) f2 = true /\
       forallb (is_write_on STDOUT_FILENO) w_out = true /\
       (k2 <> 0%nat -> w_out <> [])) /\
    (inp w STDIN_FILENO = [] ->
     exists w',
       Client.do_work fuel s socket w = Ret tt w' /\
       inp w' socket = inp w socket /\
       out w' = out w /\ mem w' = mem w /\
       exists new,
         trace w' = new ++ trace w /\
         forallb (fun c => is_select c || is_read_on STDIN_FILENO c) new = true).
Proof.
  intros fuel s socket w [Hs Hsize] Ho0 Ho Hq Hb Hf.
  pose proof (watched_all_open socket w ltac:(lia) Ho0 Ho) as Hall.
  destruct (both_ready_bits (script w) socket ltac:(lia) Hb) as [Hr0 Hr1].
  split; [|split].
  - destruct fuel as [|f]; [inversion Hf|].
    destruct (Select_quiet (S f) (socket + 1) _ w Hq ltac:(lia) Hall)
      as (w1 & HS & _ & _ & _ & _ & _ & sel & Hsel & Hsel').
    unfold Client.do_work_round. rewrite (bind_eq _ _ _ _ _ HS). cbn [snd].
    pose proof (round_after_select f s socket _ w1 Hr0) as G.
    match type of G with
    | match ?o with _ => _ end =>
        match goal with |- match ?o' with _ => _ end => change o' with o end;
        destruct o
    end; auto;
      destruct G as (later & rc & Hl); exists later, rc, sel; rewrite Hl, Hsel; auto.
  - intros Hnull Hsock Ho1 Hdata Hf'.
    destruct (round_full fuel s socket w Hnull Hsock Ho0 Ho1 Ho Hq Hf')
      as (k1 & k2 & j & brk & w' & sel & l_in & l_out & HR
            & (Hk1 & _ & Hk1' & _ & Hj & Hk2 & Hk2' & Hj' & Hbrk)
            & (Hout & Hout1 & Hin & Hin1 & _)
            & _ & Ht & Hsel & _ & Hl_in & Hl_out & _).
    fold (watched socket) in Hr0, Hr1. fold (round_ready (script w) socket) in Hr0, Hr1.
    rewrite Hr0, Hr1 in *. cbn [andb] in *.
    specialize (Hk1' eq_refl Hdata).
    assert (Hk1z : (k1 =? 0)%nat = false) by (apply Nat.eqb_neq; lia).
    rewrite Hk1z in *. cbn [orb] in Hbrk.
    destruct (Hl_in eq_refl) as (f1 & w_sock & El_in & Hf1 & Hws & Hne).
    destruct (Hl_out eq_refl eq_refl) as (f2 & w_out & El_out & Hf2 & Hwo & Hne').
    exists k1, k2, j, brk, w', sel, f1, w_sock, f2, w_out.
    split; [exact HR|]. split; [lia|]. split; [exact Hout|]. split; [exact Hin|].
    split; [lia|]. split; [exact Hin1|]. split; [exact Hout1|].
    split.
    { intros Hd. specialize (Hj' eq_refl eq_refl Hd). split; [exact Hj'|].
      rewrite Hbrk. apply Nat.eqb_neq. lia. }
    split.
    { intros Hd. rewrite Hd in Hk2'. cbn [length] in Hk2'. rewrite Hbrk.
      apply Nat.eqb_eq. lia. }
    split.
    { rewrite Ht, El_out, El_in. rewrite <- !app_assoc. cbn [app]. reflexivity. }
    split; [exact Hsel|]. split; [exact Hf1|]. split; [exact Hws|].
    split; [apply Hne; lia|]. split; [exact Hf2|]. split; [exact Hwo | exact Hne'].
  - intros Heof.
    destruct fuel as [|f]; [inversion Hf|].
    destruct (Select_quiet f (socket + 1) _ w Hq ltac:(lia) Hall)
      as (w1 & HS & Hsc1 & Hm1 & Hi1 & Hou1 & Hfd1 & sel & Hsel & Hsel').
    assert (Ho1 : is_open STDIN_FILENO w1 = true) by (unfold is_open in *; now rewrite Hfd1).
    assert (Hq1 : quiet (script w1) = true) by (rewrite Hsc1; now apply serving_quiet).
    pose proof (serving_length (script w)) as Hlen.
    destruct (Read_quiet f STDIN_FILENO s MAXLINE w1 Ho1 Hq1 ltac:(rewrite Hsc1; lia)
                ltac:(unfold MAXLINE, SIZE_MOD; lia))
      as (k & w2 & HR & _ & Hk & _ & Hm2 & Hi2 & Hou2 & _).
    rewrite Hi1, Heof in Hk, Hm2, Hi2. cbn [length] in Hk.
    assert (k = 0%nat) by lia. subst k. cbn [firstn store_bytes skipn Z.of_nat] in *.
    assert (Round : Client.do_work_round f s socket (socket + 1) w = Ret true w2).
    { unfold Client.do_work_round. rewrite (bind_eq _ _ _ _ _ HS). cbn [snd].
      rewrite Hr0. rewrite bind_assoc, (bind_eq _ _ _ _ _ HR). reflexivity. }
    exists w2. unfold Client.do_work. rewrite max_fd by lia.
    cbn [Client.do_work_loop]. rewrite (bind_eq _ _ _ _ _ Round).
    conjs; try congruence.
    + reflexivity.
    + rewrite Hi2. now rewrite upd_other by (unfold STDIN_FILENO; lia).
    + pose proof (Read_calls f STDIN_FILENO s MAXLINE w1) as Hc. rewrite HR in Hc.
      destruct Hc as (new & Hn & Hp).
      exists (new ++ sel). rewrite Hn, Hsel, app_assoc. split; [reflexivity|].
      rewrite forallb_app. apply andb_true_iff. split.
      * rewrite forallb_forall in *. intros c Hc. rewrite (Hp c Hc). apply orb_true_r.
      * rewrite forallb_forall in *. intros c Hc. now rewrite (Hsel' c Hc).
Qed.

Lemma local_input_first_witness :
  (exists (k1 k2 j : nat) (brk : bool) (w' : World) (sel f1 w_sock f2 w_out : list call),
     Client.do_work_round 300 300 3 (3 + 1) w_pair = Ret brk w' /\
     (1 <= k1 <= 256)%nat /\
     out w' 3 = out w_pair 3 ++ firstn k1 (inp w_pair STDIN_FILENO) /\
     inp w' STDIN_FILENO = skipn k1 (inp w_pair STDIN_FILENO) /\
     (j <= k2 <= 256)%nat /\
     inp w' 3 = skipn k2 (inp w_pair 3) /\
     out w' STDOUT_FILENO = out w_pair STDOUT_FILENO ++ firstn j (inp w_pair 3) /\
     (inp w_pair 3 <> [] -> (1 <= j)%nat /\ brk = false) /\
     (inp w_pair 3 = [] -> brk = true) /\
     trace w' =
       w_out ++ c_read 3 MAXLINE (Z.of_nat k2) :: f2 ++
       w_sock ++ c_read STDIN_FILENO MAXLINE (Z.of_nat k1) :: f1 ++
       sel ++ trace w_pair /\
     forallb is_select sel = true /\
     forallb (failed_on STDIN_FILENO) f1 = true /\
     forallb (is_write_on 3) w_sock = true /\ w_sock <> [] /\
     forallb (failed_on 3) f2 = true /\
     forallb (is_write_on STDOUT_FILENO) w_out = true /\
     (k2 <> 0%nat -> w_out <> [])) /\
  match Client.do_work_round 5 300 3 (3 + 1) w_both with
  | Ret _ w' | Exit _ w' =>
      exists later rc sel,
        trace w' = later ++ c_read STDIN_FILENO MAXLINE rc :: sel ++ trace w_both /\
        forallb is_select sel = true
  | OutOfFuel => True
  end /\
  exists w',
    Client.do_work 5 300 3 w_both = Ret tt w' /\
    inp w' 3 = inp w_both 3 /\
    out w' = out w_both /\ mem w' = mem w_both /\
    exists new,
      trace w' = new ++ trace w_both /\
      forallb (fun c => is_select c || is_read_on STDIN_FILENO c) new = true.
Proof.
  split.
  - destruct (local_input_first 300 300 3 w_pair) as (_ & H & _).
    + unfold FD_SETSIZE. lia.
    + reflexivity.
    + reflexivity.
    + reflexivity.
    + reflexivity.
    + cbn. lia.
    + apply H.
      * discriminate.
      * lia.
      * reflexivity.
      * discriminate.
      * cbn. lia.
  - destruct (local_input_first 5 300 3 w_both) as (H1 & _ & H2).
    + unfold FD_SETSIZE. lia.
    + reflexivity.
    + reflexivity.
    + reflexivity.
    + reflexivity.
    + cbn. lia.
    + split; [exact H1 | apply H2; reflexivity].
Defined.

(** ** The relay, with short writes *)

Lemma do_work_loop_quiet (s socket : Z) (F : nat) :
  forall w,
    s <> NULL -> 1 < socket ->
    is_open STDIN_FILENO w = true -> is_open STDOUT_FILENO w = true ->
    is_open socket w = true ->
    quiet (script w) = true ->
    (length (script w) + length (inp w STDIN_FILENO) + 258 < F)%nat ->
    exists (ka kb : nat) (got : list Z) (new : list call) (w' : World),
      Client.do_work_loop F s socket (socket + 1) w = Ret tt w' /\
      out w' socket = out w socket ++ firstn ka (inp w STDIN_FILENO) /\
      inp w' STDIN_FILENO = skipn ka (inp w STDIN_FILENO) /\
      inp w' socket = skipn kb (inp w socket) /\
      out w' STDOUT_FILENO = out w STDOUT_FILENO ++ got /\
      trace w' = new ++ trace w /\
      (whole_writes STDOUT_FILENO new = true -> got = firstn kb (inp w socket)) /\
      (forall fd, fd <> socket -> fd <> STDOUT_FILENO -> out w' fd = out w fd) /\
      (forall fd, fd <> STDIN_FILENO -> fd <> socket -> inp w' fd = inp w fd) /\
      fdtab w' = fdtab w /\
      (inp w' STDIN_FILENO = [] \/ inp w' socket = []).
Proof.
  induction F as [|f IH]; intros w Hs Hsock Ho0 Ho1 Ho Hq HF; [inversion HF|].
  destruct (round_full f s socket w Hs Hsock Ho0 Ho1 Ho Hq ltac:(lia))
    as (k1 & k2 & j & brk & w1 & sel & l_in & l_out & HR & _
          & (Hout & Hout1 & Hin & Hin1 & Hoth & Hinoth & Hfd)
          & (Hq1 & Hl1 & Hbrk & Hmeasure) & Ht & _ & Hwhole & _).
  cbn [Client.do_work_loop]. rewrite (bind_eq _ _ _ _ _ HR).
  destruct brk.
  - exists k1, k2, (firstn j (inp w socket)), (l_out ++ l_in ++ sel), w1. unfold ret.
    split; [reflexivity|]. split; [exact Hout|]. split; [exact Hin|]. split; [exact Hin1|].
    split; [exact Hout1|]. split; [rewrite Ht; now rewrite <- !app_assoc|].
    split; [intros H; now rewrite (Hwhole H)|].
    split; [exact Hoth|]. split; [exact Hinoth|]. split; [exact Hfd | now apply Hbrk].
  - specialize (Hmeasure eq_refl).
    destruct (IH w1) as (ka & kb & got & new & w' & HL & Hout' & Hin' & Hin1' & Hout1' & Ht'
                           & Hwhole' & Hoth' & Hinoth' & Hfd' & Hend); auto;
      try (unfold is_open in *; now rewrite Hfd); try lia.
    exists (k1 + ka)%nat, (k2 + kb)%nat, (firstn j (inp w socket) ++ got),
      (new ++ l_out ++ l_in ++ sel), w'.
    split; [exact HL|].
    split; [rewrite Hout', Hout, Hin, <- app_assoc; f_equal; apply firstn_add_skipn|].
    split; [rewrite Hin', Hin, skipn_skipn; f_equal; lia|].
    split; [rewrite Hin1', Hin1, skipn_skipn; f_equal; lia|].
    split; [rewrite Hout1', Hout1, <- app_assoc; reflexivity|].
    split; [rewrite Ht', Ht; now rewrite <- !app_assoc|].
    split.
    { intros H. unfold whole_writes in H. rewrite forallb_app in H.
      apply andb_true_iff in H as [H1 H2].
      rewrite (Hwhole H2), (Hwhole' H1), Hin1. apply firstn_add_skipn. }
    split; [intros fd H1 H2; rewrite Hoth' by assumption; now apply Hoth|].
    split; [intros fd H1 H2; rewrite Hinoth' by assumption; now apply Hinoth|].
    split; [congruence | exact Hend].
Qed.

(** X14.  The relay, for a connection on a descriptor that [fd_set]
    admits.  Let the script hold no failure but interruptions: reads and
    writes may be short, and the readiness waits may report what they
    will.  Then [do_work] returns, and
    - the connection has received the [ka] bytes that were drained from
      local input, whole and in order, however short the writes were;
    - [kb] bytes have been drained from the connection; local output has
      received [got], and if no write to local output was short, that
      is if every write to descriptor 1 in the log of the run took all
      it was asked for, [got] is these [kb] bytes, whole and in order;
    - local input or the connection is at its end;
    - no other stream has gained or lost a byte, and the descriptor table
      is as it was: [do_work] closes nothing. *)
Theorem do_work_relays_in_order :
  forall (fuel : nat) (s socket : Z) (w : World),
    s <> NULL -> 1 < socket < FD_SETSIZE ->
    is_open STDIN_FILENO w = true -> is_open STDOUT_FILENO w = true ->
    is_open socket w = true ->
    quiet (script w) = true ->
    (length (script w) + length (inp w STDIN_FILENO) + 258 < fuel)%nat ->
    exists (ka kb : nat) (got : list Z) (new : list call) (w' : World),
      Client.do_work fuel s socket w = Ret tt w' /\
      out w' socket = out w socket ++ firstn ka (inp w STDIN_FILENO) /\
      inp w' STDIN_FILENO = skipn ka (inp w STDIN_FILENO) /\
      inp w' socket = skipn kb (inp w socket) /\
      out w' STDOUT_FILENO = out w STDOUT_FILENO ++ got /\
      trace w' = new ++ trace w /\
      (whole_writes STDOUT_FILENO new = true -> got = firstn kb (inp w socket)) /\
      (inp w' STDIN_FILENO = [] \/ inp w' socket = []) /\
      (forall fd, fd <> socket -> fd <> STDOUT_FILENO -> out w' fd = out w fd) /\
      (forall fd, fd <> STDIN_FILENO -> fd <> socket -> inp w' fd = inp w fd) /\
      fdtab w' = fdtab w.
Proof.
  intros fuel s socket w Hs [Hsock _] Ho0 Ho1 Ho Hq Hf.
  destruct (do_work_loop_quiet s socket fuel w Hs Hsock Ho0 Ho1 Ho Hq Hf)
    as (ka & kb & got & new & w' & HL & H1 & H2 & H3 & H4 & H5 & H6 & H7 & H8 & H9 & H10).
  exists ka, kb, got, new, w'. unfold Client.do_work. rewrite max_fd by lia.
  split; [exact HL|]. conjs; auto.
Qed.

Lemma do_work_relays_in_order_witness :
  exists (ka kb : nat) (got : list Z) (new : list call) (w' : World),
    Client.do_work 300 300 3 w_pair = Ret tt w' /\
    out w' 3 = out w_pair 3 ++ firstn ka (inp w_pair STDIN_FILENO) /\
    inp w' STDIN_FILENO = skipn ka (inp w_pair STDIN_FILENO) /\
    inp w' 3 = skipn kb (inp w_pair 3) /\
    out w' STDOUT_FILENO = out w_pair STDOUT_FILENO ++ got /\
    trace w' = new ++ trace w_pair /\
    (whole_writes STDOUT_FILENO new = true -> got = firstn kb (inp w_pair 3)) /\
    (inp w' STDIN_FILENO = [] \/ inp w' 3 = []) /\
    (forall fd, fd <> 3 -> fd <> STDOUT_FILENO -> out w' fd = out w_pair fd) /\
    (forall fd, fd <> STDIN_FILENO -> fd <> 3 -> inp w' fd = inp w_pair fd) /\
    fdtab w' = fdtab w_pair.
Proof.
  apply (do_work_relays_in_order 300 300 3 w_pair); try reflexivity.
  - discriminate.
  - unfold FD_SETSIZE. lia.
  - cbn. lia.
Defined.

(** ** Who owns a connection *)





































